(** * connPanel: connection snapshots, identity resolution and sorting

    A shallow embedding of [src/interface/connPanel.py] (the connection panel
    of the arm relay monitor) together with the properties of it that the
    specification states.

    The embedding follows the Python text closely:
    - [str] values are [string]s and the string methods the panel uses
      ([split], [find], slicing, [int], [upper], [%]-formatting) are written out
      in module [Py];
    - the dictionaries of the panel are [gmap]s; a dictionary key of the form
      [(ip, port)] keeps the dynamic type of [port] ([PyStr] or [PyInt]),
      because Python compares a [str] and an [int] as different keys;
    - the panel object is a record [ConnPanel] and every method is a function
      in the monad [M], which threads the record and carries raised
      exceptions ([Raise]) next to normal results ([Return]); the state
      reached when an exception escapes is kept, as in Python;
    - the controller connection, netstat, the clock and the hostname resolver
      are the fields of a record [Env] of oracles. *)

From Stdlib Require Import ZArith String Ascii List Lia Permutation Sorted.
From stdpp Require Import base gmap strings list pretty.

Open Scope string_scope.
Open Scope list_scope.
Open Scope Z_scope.

(** ** Python string primitives *)

Module Py.

(** Characters that [str.split()], [str.strip()] and [int()] treat as
    whitespace: space, tab, newline, vertical tab, form feed, carriage
    return. *)
Definition is_space (c : ascii) : bool :=
  match N_of_ascii c with
  | 9%N | 10%N | 11%N | 12%N | 13%N | 32%N => true
  | _ => false
  end.

(** [s.split()] : the maximal runs of non-whitespace characters. *)
Fixpoint split_go (word : option string) (s : string) : list string :=
  match s with
  | EmptyString => match word with Some w => [w] | None => [] end
  | String c rest =>
      if is_space c then
        match word with
        | Some w => w :: split_go None rest
        | None => split_go None rest
        end
      else
        split_go (Some (match word with
                        | Some w => w +:+ String c EmptyString
                        | None => String c EmptyString
                        end)) rest
  end.

Definition split (s : string) : list string := split_go None s.

(** [s.split(sep)] for a one-character separator: always at least one
    piece, empty pieces are kept. *)
Fixpoint split_on (sep : ascii) (s : string) : list string :=
  match s with
  | EmptyString => [EmptyString]
  | String c rest =>
      let r := split_on sep rest in
      if Ascii.eqb c sep then EmptyString :: r
      else match r with
           | w :: ws => String c w :: ws
           | [] => [String c EmptyString]
           end
  end.

(** [s.find(c)] : index of the first occurrence, [-1] when there is none. *)
Fixpoint find (c : ascii) (s : string) : Z :=
  match s with
  | EmptyString => -1
  | String d rest =>
      if Ascii.eqb d c then 0
      else let r := find c rest in if r <? 0 then -1 else r + 1
  end.

Fixpoint take (n : nat) (s : string) : string :=
  match n, s with
  | S n', String c rest => String c (take n' rest)
  | _, _ => EmptyString
  end.

Fixpoint drop (n : nat) (s : string) : string :=
  match n, s with
  | S n', String _ rest => drop n' rest
  | _, _ => s
  end.

Definition len (s : string) : Z := Z.of_nat (String.length s).

(** A slice bound: negative bounds count from the end, and the result is
    clipped to [0 .. len s]. *)
Definition bound (s : string) (k : Z) : nat :=
  Z.to_nat (Z.min (len s) (Z.max 0 (if k <? 0 then k + len s else k))).

(** [s[:k]] and [s[k:]]. *)
Definition slice_to (s : string) (k : Z) : string := take (bound s k) s.
Definition slice_from (s : string) (k : Z) : string := drop (bound s k) s.

(** [s.startswith(p)]. *)
Definition startswith (s p : string) : bool := String.prefix p s.

(** [s.upper()] in the C locale. *)
Definition upper_char (c : ascii) : ascii :=
  let n := N_of_ascii c in
  if ((97 <=? n) && (n <=? 122))%N then ascii_of_N (n - 32) else c.

Fixpoint upper (s : string) : string :=
  match s with
  | EmptyString => EmptyString
  | String c rest => String (upper_char c) (upper rest)
  end.

(** [int(s)] for a [str]: surrounding whitespace, an optional sign and a
    non-empty run of decimal digits; [None] stands for [ValueError]. *)
Fixpoint lstrip (s : string) : string :=
  match s with
  | String c rest => if is_space c then lstrip rest else s
  | EmptyString => EmptyString
  end.

Fixpoint rstrip (s : string) : string :=
  match s with
  | EmptyString => EmptyString
  | String c rest =>
      match rstrip rest with
      | EmptyString => if is_space c then EmptyString else String c EmptyString
      | r => String c r
      end
  end.

Definition digit (c : ascii) : option Z :=
  let n := N_of_ascii c in
  if ((48 <=? n) && (n <=? 57))%N then Some (Z.of_N (n - 48)) else None.

Fixpoint digits (acc : Z) (s : string) : option Z :=
  match s with
  | EmptyString => Some acc
  | String c rest =>
      match digit c with
      | Some d => digits (10 * acc + d) rest
      | None => None
      end
  end.

Definition unsigned (s : string) : option Z :=
  match s with
  | EmptyString => None
  | _ => digits 0 s
  end.

Definition int (s : string) : option Z :=
  match rstrip (lstrip s) with
  | String "-" rest => Z.opp <$> unsigned (lstrip rest)
  | String "+" rest => unsigned (lstrip rest)
  | t => unsigned t
  end.

(** ["%0<width>i" % n] : decimal, padded with zeros after the sign. *)
Fixpoint zeros (n : nat) : string :=
  match n with
  | O => EmptyString
  | S n' => String "0" (zeros n')
  end.

Definition format_0i (width : nat) (n : Z) : string :=
  let body := pretty (Z.abs n) in
  let sign := if n <? 0 then "-" else "" in
  sign +:+ zeros (width - String.length sign - String.length body) +:+ body.

(** ["%i" % n]. *)
Definition format_i (n : Z) : string := pretty n.

(** [cmp(a, b)] on integers and on byte strings. *)
Definition cmp_of (c : comparison) : Z :=
  match c with Lt => -1 | Eq => 0 | Gt => 1 end.

Definition cmp_int (a b : Z) : Z := cmp_of (a ?= b).
Definition cmp_str (a b : string) : Z := cmp_of (String.compare a b).

(** Truth value of a [str]. *)
Definition truthy (s : string) : bool :=
  match s with EmptyString => false | _ => true end.

End Py.

(** ** Data model *)

(** The category of a connection record; the source writes the six tags as
    the strings ["inbound"], ["outbound"], ["client"], ["directory"],
    ["control"] and ["localhost"]. *)
Inductive conn_type := inbound | outbound | client | directory | control | localhost.

#[global] Instance conn_type_eq_dec : EqDecision conn_type.
Proof. solve_decision. Defined.

Definition TYPE_WEIGHTS (t : conn_type) : Z :=
  match t with
  | inbound => 0 | outbound => 1 | client => 2
  | directory => 3 | control => 4 | localhost => 5
  end.

(** A tuple of [connections]; the field names are the source's index
    constants.  Ports are kept as the strings netstat printed.  The
    timestamp is a reading of [time.time()]; only comparison, negation and
    equality are ever applied to it, and it is an integer count of clock
    ticks here. *)
Record conn_entry := mkConn {
  CONN_TYPE : conn_type;
  CONN_L_IP : string;
  CONN_L_PORT : string;
  CONN_F_IP : string;
  CONN_F_PORT : string;
  CONN_COUNTRY : string;
  CONN_TIME : Z
}.

#[global] Instance conn_entry_eq_dec : EqDecision conn_entry.
Proof. solve_decision. Defined.

Inductive listing := LIST_IP | LIST_HOSTNAME | LIST_FINGERPRINT | LIST_NICKNAME.

#[global] Instance listing_eq_dec : EqDecision listing.
Proof. solve_decision. Defined.

Inductive ord :=
  | ORD_TYPE | ORD_FOREIGN_LISTING | ORD_SRC_LISTING | ORD_DST_LISTING
  | ORD_COUNTRY | ORD_FOREIGN_PORT | ORD_SRC_PORT | ORD_DST_PORT | ORD_TIME.

(** A Python value that is either a [str] or an [int]: the [port] argument
    of the resolver, the second component of a cache key, and the listing
    value the sort compares.  [PyStr "9001"] and [PyInt 9001] are different
    values, as ["9001" == 9001] is false in Python. *)
Inductive pyval := PyStr (s : string) | PyInt (n : Z).

#[global] Instance pyval_eq_dec : EqDecision pyval.
Proof. solve_decision. Defined.

#[global] Instance pyval_countable : Countable pyval.
Proof.
  refine (inj_countable'
            (fun v => match v with PyStr s => inl s | PyInt n => inr n end)
            (fun x => match x with inl s => PyStr s | inr n => PyInt n end) _).
  by intros [].
Defined.

(** [cmp] of Python 2 on these values: numbers sort before strings. *)
Definition cmp (a b : pyval) : Z :=
  match a, b with
  | PyInt x, PyInt y => Py.cmp_int x y
  | PyStr x, PyStr y => Py.cmp_str x y
  | PyInt _, PyStr _ => -1
  | PyStr _, PyInt _ => 1
  end.

(** An entry of the identity index: [(orport, fingerprint, nickname)]. *)
Definition triple : Type := Z * string * string.

(** A router status entry of the consensus, as TorCtl hands it out. *)
Record ns_entry := mkNs {
  ns_ip : string;
  ns_orport : Z;
  ns_idhex : string;
  ns_nickname : string
}.

Definition DIR_SERVERS : list (string * string) :=
  [("86.59.21.38", "80"); ("128.31.0.34", "9031"); ("216.224.124.114", "9030");
   ("80.190.246.100", "80"); ("194.109.206.212", "80"); ("213.73.91.31", "80");
   ("208.83.223.34", "443")].

(** ** The panel object *)

#[local] Set Primitive Projections.

(** The attributes of [ConnPanel] that the snapshot, resolver and sort code
    reads or writes (cursor, scroll and layout attributes belong to the
    renderer and are left out).  [logged] collects the calls
    [self.logger.monitor_event(level, msg)] in order. *)
Record ConnPanel := mkPanel {
  pid : option string;
  listingType : listing;
  localhostEntry : option (conn_entry * string);
  sortOrdering : list ord;
  fingerprintLookupCache : gmap (string * pyval) string;
  nicknameLookupCache : gmap (string * pyval) string;
  fingerprintMappings : gmap string (list triple);
  providedGeoipWarning : bool;
  orconnStatusCache : option (list string);
  orconnStatusCacheValid : bool;
  clientConnectionCache : option (list string);
  isPaused : bool;
  pauseTime : Z;
  connectionsBuffer : list conn_entry;
  orPort : string;
  dirPort : string;
  controlPort : string;
  connections : list conn_entry;
  connectionCount : list Z;
  lastUpdate : Z;
  logged : list (string * string)
}.

#[local] Unset Primitive Projections.

Definition set_listingType (v : listing) (s : ConnPanel) : ConnPanel :=
  let '(mkPanel a1 _ a3 a4 a5 a6 a7 a8 a9 a10 a11 a12 a13 a14 a15 a16 a17 a18 a19 a20 a21) := s in
  mkPanel a1 v a3 a4 a5 a6 a7 a8 a9 a10 a11 a12 a13 a14 a15 a16 a17 a18 a19 a20 a21.

Definition set_sortOrdering (v : list ord) (s : ConnPanel) : ConnPanel :=
  let '(mkPanel a1 a2 a3 _ a5 a6 a7 a8 a9 a10 a11 a12 a13 a14 a15 a16 a17 a18 a19 a20 a21) := s in
  mkPanel a1 a2 a3 v a5 a6 a7 a8 a9 a10 a11 a12 a13 a14 a15 a16 a17 a18 a19 a20 a21.

Definition set_localhostEntry (v : option (conn_entry * string)) (s : ConnPanel) : ConnPanel :=
  let '(mkPanel a1 a2 _ a4 a5 a6 a7 a8 a9 a10 a11 a12 a13 a14 a15 a16 a17 a18 a19 a20 a21) := s in
  mkPanel a1 a2 v a4 a5 a6 a7 a8 a9 a10 a11 a12 a13 a14 a15 a16 a17 a18 a19 a20 a21.

Definition set_fingerprintLookupCache (v : gmap (string * pyval) string) (s : ConnPanel) : ConnPanel :=
  let '(mkPanel a1 a2 a3 a4 _ a6 a7 a8 a9 a10 a11 a12 a13 a14 a15 a16 a17 a18 a19 a20 a21) := s in
  mkPanel a1 a2 a3 a4 v a6 a7 a8 a9 a10 a11 a12 a13 a14 a15 a16 a17 a18 a19 a20 a21.

Definition set_nicknameLookupCache (v : gmap (string * pyval) string) (s : ConnPanel) : ConnPanel :=
  let '(mkPanel a1 a2 a3 a4 a5 _ a7 a8 a9 a10 a11 a12 a13 a14 a15 a16 a17 a18 a19 a20 a21) := s in
  mkPanel a1 a2 a3 a4 a5 v a7 a8 a9 a10 a11 a12 a13 a14 a15 a16 a17 a18 a19 a20 a21.

Definition set_fingerprintMappings (v : gmap string (list triple)) (s : ConnPanel) : ConnPanel :=
  let '(mkPanel a1 a2 a3 a4 a5 a6 _ a8 a9 a10 a11 a12 a13 a14 a15 a16 a17 a18 a19 a20 a21) := s in
  mkPanel a1 a2 a3 a4 a5 a6 v a8 a9 a10 a11 a12 a13 a14 a15 a16 a17 a18 a19 a20 a21.

Definition set_providedGeoipWarning (v : bool) (s : ConnPanel) : ConnPanel :=
  let '(mkPanel a1 a2 a3 a4 a5 a6 a7 _ a9 a10 a11 a12 a13 a14 a15 a16 a17 a18 a19 a20 a21) := s in
  mkPanel a1 a2 a3 a4 a5 a6 a7 v a9 a10 a11 a12 a13 a14 a15 a16 a17 a18 a19 a20 a21.

Definition set_orconnStatusCache (v : option (list string)) (s : ConnPanel) : ConnPanel :=
  let '(mkPanel a1 a2 a3 a4 a5 a6 a7 a8 _ a10 a11 a12 a13 a14 a15 a16 a17 a18 a19 a20 a21) := s in
  mkPanel a1 a2 a3 a4 a5 a6 a7 a8 v a10 a11 a12 a13 a14 a15 a16 a17 a18 a19 a20 a21.

Definition set_orconnStatusCacheValid (v : bool) (s : ConnPanel) : ConnPanel :=
  let '(mkPanel a1 a2 a3 a4 a5 a6 a7 a8 a9 _ a11 a12 a13 a14 a15 a16 a17 a18 a19 a20 a21) := s in
  mkPanel a1 a2 a3 a4 a5 a6 a7 a8 a9 v a11 a12 a13 a14 a15 a16 a17 a18 a19 a20 a21.

Definition set_clientConnectionCache (v : option (list string)) (s : ConnPanel) : ConnPanel :=
  let '(mkPanel a1 a2 a3 a4 a5 a6 a7 a8 a9 a10 _ a12 a13 a14 a15 a16 a17 a18 a19 a20 a21) := s in
  mkPanel a1 a2 a3 a4 a5 a6 a7 a8 a9 a10 v a12 a13 a14 a15 a16 a17 a18 a19 a20 a21.

Definition set_isPaused (v : bool) (s : ConnPanel) : ConnPanel :=
  let '(mkPanel a1 a2 a3 a4 a5 a6 a7 a8 a9 a10 a11 _ a13 a14 a15 a16 a17 a18 a19 a20 a21) := s in
  mkPanel a1 a2 a3 a4 a5 a6 a7 a8 a9 a10 a11 v a13 a14 a15 a16 a17 a18 a19 a20 a21.

Definition set_pauseTime (v : Z) (s : ConnPanel) : ConnPanel :=
  let '(mkPanel a1 a2 a3 a4 a5 a6 a7 a8 a9 a10 a11 a12 _ a14 a15 a16 a17 a18 a19 a20 a21) := s in
  mkPanel a1 a2 a3 a4 a5 a6 a7 a8 a9 a10 a11 a12 v a14 a15 a16 a17 a18 a19 a20 a21.

Definition set_connectionsBuffer (v : list conn_entry) (s : ConnPanel) : ConnPanel :=
  let '(mkPanel a1 a2 a3 a4 a5 a6 a7 a8 a9 a10 a11 a12 a13 _ a15 a16 a17 a18 a19 a20 a21) := s in
  mkPanel a1 a2 a3 a4 a5 a6 a7 a8 a9 a10 a11 a12 a13 v a15 a16 a17 a18 a19 a20 a21.

Definition set_connections (v : list conn_entry) (s : ConnPanel) : ConnPanel :=
  let '(mkPanel a1 a2 a3 a4 a5 a6 a7 a8 a9 a10 a11 a12 a13 a14 a15 a16 a17 _ a19 a20 a21) := s in
  mkPanel a1 a2 a3 a4 a5 a6 a7 a8 a9 a10 a11 a12 a13 a14 a15 a16 a17 v a19 a20 a21.

Definition set_connectionCount (v : list Z) (s : ConnPanel) : ConnPanel :=
  let '(mkPanel a1 a2 a3 a4 a5 a6 a7 a8 a9 a10 a11 a12 a13 a14 a15 a16 a17 a18 _ a20 a21) := s in
  mkPanel a1 a2 a3 a4 a5 a6 a7 a8 a9 a10 a11 a12 a13 a14 a15 a16 a17 a18 v a20 a21.

Definition set_lastUpdate (v : Z) (s : ConnPanel) : ConnPanel :=
  let '(mkPanel a1 a2 a3 a4 a5 a6 a7 a8 a9 a10 a11 a12 a13 a14 a15 a16 a17 a18 a19 _ a21) := s in
  mkPanel a1 a2 a3 a4 a5 a6 a7 a8 a9 a10 a11 a12 a13 a14 a15 a16 a17 a18 a19 v a21.

Definition set_logged (v : list (string * string)) (s : ConnPanel) : ConnPanel :=
  let '(mkPanel a1 a2 a3 a4 a5 a6 a7 a8 a9 a10 a11 a12 a13 a14 a15 a16 a17 a18 a19 a20 _) := s in
  mkPanel a1 a2 a3 a4 a5 a6 a7 a8 a9 a10 a11 a12 a13 a14 a15 a16 a17 a18 a19 a20 v.

(** ** Exceptions and the panel monad *)

(** The exception classes that occur in the panel code.  [SocketError] is
    [socket.error]; [ErrorReply] and [TorCtlClosed] are TorCtl's. *)
Inductive exn :=
  | IOError | SocketError | ErrorReply | TorCtlClosed
  | TypeError | ValueError | IndexError | KeyError.

#[global] Instance exn_eq_dec : EqDecision exn.
Proof. solve_decision. Defined.

Inductive outcome (A : Type) :=
  | Return (a : A)
  | Raise (e : exn).

Arguments Return {A} a.
Arguments Raise {A} e.

(** A method body: from the panel before the call to the panel after it and
    either the returned value or the exception that escapes. *)
Definition M (A : Type) : Type := ConnPanel -> ConnPanel * outcome A.

Definition ret {A} (a : A) : M A := fun s => (s, Return a).

Definition raise {A} (e : exn) : M A := fun s => (s, Raise e).

Definition bind {A B} (m : M A) (k : A -> M B) : M B :=
  fun s =>
    match m s with
    | (s', Return a) => k a s'
    | (s', Raise e) => (s', Raise e)
    end.

Definition get : M ConnPanel := fun s => (s, Return s).

Definition modify (f : ConnPanel -> ConnPanel) : M unit := fun s => (f s, Return tt).

(** The result of a call into an external collaborator. *)
Definition call {A} (o : outcome A) : M A := fun s => (s, o).

(** [try: m  except <classes>: handler]. *)
Definition try_except {A} (m : M A) (handles : exn -> bool) (handler : M A) : M A :=
  fun s =>
    match m s with
    | (s', Raise e) => if handles e then handler s' else (s', Raise e)
    | r => r
    end.

Declare Scope py_scope.
Delimit Scope py_scope with py.
Notation "x <- m ;; k" := (bind m (fun x => k))
  (at level 100, m at next level, right associativity) : py_scope.
Notation "m ;; k" := (bind m (fun _ => k))
  (at level 100, right associativity) : py_scope.
Open Scope py_scope.

(** [for x in l: acc = body x acc]. *)
Fixpoint for_each {A B} (l : list B) (body : B -> A -> M A) (acc : A) : M A :=
  match l with
  | [] => ret acc
  | x :: l' => acc' <- body x acc ;; for_each l' body acc'
  end.

(** [for x in l: body x], where the body answers [false] to leave the
    enclosing function with [return]. The result tells whether the loop ran
    to its end. *)
Fixpoint for_until_return {B} (l : list B) (body : B -> M bool) : M bool :=
  match l with
  | [] => ret true
  | x :: l' =>
      go_on <- body x ;;
      if go_on then for_until_return l' body else ret false
  end.

(** ** External collaborators *)

(** One oracle per call the panel makes to the outside.  A field gives the
    value the call returns or the exception it raises.
    - [readlines] is [netstatCall.readlines()] on the pipe of the netstat
      command;
    - [get_info key] is [conn.get_info(key)[key]];
    - [get_option name] is [conn.get_option(name)[0][1]];
    - [get_network_status None] is [conn.get_network_status()] and
      [get_network_status (Some q)] is [conn.get_network_status(q)];
    - [router_down desc ns] is
      [TorCtl.Router.build_from_desc(desc.split("\n"), ns).down];
    - [time_time n] is the value of the [n]-th call of [time.time()] made
      by the operation;
    - [resolve ip] is [self.resolver.resolve(ip)];
    - [socket_error_is_IOError] tells whether [socket.error] is a subclass
      of [IOError] (it is from Python 2.6 on). *)
Record Env := mkEnv {
  readlines : outcome (list string);
  get_info : string -> outcome string;
  get_option : string -> outcome string;
  get_network_status : option string -> outcome (list ns_entry);
  router_down : string -> ns_entry -> outcome bool;
  time_time : nat -> Z;
  resolve : string -> option string;
  socket_error_is_IOError : bool
}.

(** ** Small list and truth-value helpers *)

(** [l.remove(x)]: drops the first element equal to [x]; [None] stands for
    the [ValueError] raised when there is none. *)
Fixpoint list_remove_first {A} `{EqDecision A} (x : A) (l : list A) : option (list A) :=
  match l with
  | [] => None
  | y :: l' =>
      if decide (x = y) then Some l'
      else (fun r => y :: r) <$> list_remove_first x l'
  end.

(** Truth value of a variable that holds [None] or a [str]. *)
Definition truthy_opt (o : option string) : bool :=
  match o with
  | Some s => Py.truthy s
  | None => false
  end.

(** Truth value of a variable that holds [None] or a list. *)
Definition truthy_list {A} (o : option (list A)) : bool :=
  match o with
  | Some (_ :: _) => true
  | _ => false
  end.

(** [l[i]] with its [IndexError]. *)
Definition index {A} (l : list A) (i : nat) : M A :=
  match l !! i with
  | Some x => ret x
  | None => raise IndexError
  end.

(** [int(v)]: a [str] is parsed, an [int] is returned as it is. *)
Definition int (v : pyval) : M Z :=
  match v with
  | PyInt n => ret n
  | PyStr s =>
      match Py.int s with
      | Some n => ret n
      | None => raise ValueError
      end
  end.

Definition monitor_event (level msg : string) : M unit :=
  modify (fun s => set_logged (logged s ++ [(level, msg)]) s).

(** ** Module-level functions *)

(** [_ipToInt]: the running total is multiplied by 255 for each dotted
    component. *)
Definition _ipToInt (ipAddr : string) : M Z :=
  for_each (Py.split_on "." ipAddr)
    (fun comp total =>
       n <- int (PyStr comp) ;;
       ret (total * 255 + n))
    0.

(** The comparison functions of [SORT_TYPES]; the three listing sorts carry
    [None] there and are built by [sortConnections]. *)
Definition port_of_source (x : conn_entry) : string :=
  if decide (CONN_TYPE x = inbound) then CONN_F_PORT x else CONN_L_PORT x.

Definition port_of_destination (x : conn_entry) : string :=
  if decide (CONN_TYPE x = inbound) then CONN_L_PORT x else CONN_F_PORT x.

Definition SORT_TYPES (o : ord) : option (conn_entry -> conn_entry -> M Z) :=
  match o with
  | ORD_TYPE =>
      Some (fun x y => ret (TYPE_WEIGHTS (CONN_TYPE x) - TYPE_WEIGHTS (CONN_TYPE y)))
  | ORD_FOREIGN_LISTING | ORD_SRC_LISTING | ORD_DST_LISTING => None
  | ORD_COUNTRY =>
      Some (fun x y => ret (Py.cmp_str (CONN_COUNTRY x) (CONN_COUNTRY y)))
  | ORD_FOREIGN_PORT =>
      Some (fun x y =>
              a <- int (PyStr (CONN_F_PORT x)) ;;
              b <- int (PyStr (CONN_F_PORT y)) ;;
              ret (a - b))
  | ORD_SRC_PORT =>
      Some (fun x y =>
              a <- int (PyStr (port_of_source x)) ;;
              b <- int (PyStr (port_of_source y)) ;;
              ret (a - b))
  | ORD_DST_PORT =>
      Some (fun x y =>
              a <- int (PyStr (port_of_destination x)) ;;
              b <- int (PyStr (port_of_destination y)) ;;
              ret (a - b))
  | ORD_TIME =>
      Some (fun x y => ret (Py.cmp_int (- CONN_TIME x) (- CONN_TIME y)))
  end.

(** [_multisort]: the first comparison that is not zero decides. *)
Fixpoint _multisort (conn1 conn2 : conn_entry)
    (sorts : list (conn_entry -> conn_entry -> M Z)) : M Z :=
  match sorts with
  | [] => raise IndexError
  | f :: rest =>
      comp <- f conn1 conn2 ;;
      if negb (comp =? 0) || bool_decide (rest = []) then ret comp
      else _multisort conn1 conn2 rest
  end.

(** [list.sort(cmpfunc)].  Python's sort is stable, and it asks
    [cmpfunc(later, earlier) < 0] to decide whether an element moves in front
    of one that precedes it; a stable insertion sort asking the same question
    stands for it (the two agree whenever [cmpfunc] is a consistent
    ordering).  The comparison function runs in the panel monad, since the
    listing sorts call the resolver. *)
Fixpoint sort_insert (cmpfunc : conn_entry -> conn_entry -> M Z)
    (x : conn_entry) (sorted : list conn_entry) : M (list conn_entry) :=
  match sorted with
  | [] => ret [x]
  | p :: rest =>
      c <- cmpfunc x p ;;
      if c <? 0 then ret (x :: p :: rest)
      else r <- sort_insert cmpfunc x rest ;; ret (p :: r)
  end.

Definition list_sort (cmpfunc : conn_entry -> conn_entry -> M Z)
    (l : list conn_entry) : M (list conn_entry) :=
  for_each l (sort_insert cmpfunc) [].

(** One step of [_getFingerprintMappings]. *)
Definition add_mapping (ipToFingerprint : gmap string (list triple)) (entry : ns_entry)
    : gmap string (list triple) :=
  let t := (ns_orport entry, ns_idhex entry, ns_nickname entry) in
  match ipToFingerprint !! ns_ip entry with
  | Some l => <[ns_ip entry := l ++ [t]]> ipToFingerprint
  | None => <[ns_ip entry := [t]]> ipToFingerprint
  end.

(** One step of [_getClientConnections]: the first hop named on a line of
    [circuit-status]. *)
Definition client_of_line (line : string) : list string :=
  let components := Py.split line in
  if 3 <? Z.of_nat (length components) then
    match components !! 2%nat with
    | Some c =>
        match Py.split_on "," c with
        | hop :: _ => [hop]
        | [] => []
        end
    | None => []
    end
  else [].

(** The test of the client loop of [reset] for one [clientName]. *)
Definition is_client_name (nickname fingerprint clientName : string) : bool :=
  String.eqb nickname clientName
  || ((1 <? Py.len clientName)
      && String.prefix "$" clientName
      && String.eqb fingerprint (Py.slice_from clientName 1)).

(** [connTimes] as [reset] builds it: a later entry overwrites an earlier
    one with the same foreign address and port. *)
Definition build_connTimes (entries : list conn_entry) : gmap (string * string) Z :=
  fold_left (fun connTimes entry =>
               <[(CONN_F_IP entry, CONN_F_PORT entry) := CONN_TIME entry]> connTimes)
            entries ∅.

(** The local variables [connectionsTmp] and [connectionCountTmp] of
    [reset], with the number of [time.time()] calls made so far. *)
Record reset_locals := mkLocals {
  connectionsTmp : list conn_entry;
  connectionCountTmp : list Z;
  clockReads : nat
}.

(** How a call of [reset] ended when it raised nothing: at [return] of
    line 208 (no pid), at [return] of the netstat handler, or at the end of
    the method with the results assigned. *)
Inductive reset_exit := NoPid | NetstatFailed | Assigned.

(** ** The methods of [ConnPanel] *)

Section Panel.

Variable w : Env.

(** [_getFingerprintMappings(conn, nsList)]. *)
Definition _getFingerprintMappings (nsList : option (list ns_entry))
    : M (gmap string (list triple)) :=
  nsList <- match nsList with
            | Some (e :: l) => ret (e :: l)
            | _ =>
                try_except (call (get_network_status w None))
                  (fun e => match e with
                            | TorCtlClosed | ErrorReply | TypeError => true
                            | _ => false
                            end)
                  (ret [])
            end ;;
  ret (fold_left add_mapping nsList ∅).

(** [_getClientConnections(conn)]. *)
Definition _getClientConnections : M (list string) :=
  try_except
    (status <- call (get_info w "circuit-status") ;;
     ret (concat (map client_of_line (Py.split_on "010" status))))
    (fun e => match e with
              | ErrorReply | TorCtlClosed | SocketError => true
              | _ => false
              end)
    (ret []).

(** Lines 543-550 of [getFingerprint]: reload [orconnStatusCache] when it
    is not valid.  Every second word of [orconn-status] is kept, starting
    with the first. *)
Fixpoint odd_entries (entries : list string) : list string :=
  match entries with
  | e :: _ :: rest => e :: odd_entries rest
  | l => l
  end.

Definition load_orconnStatusCache : M unit :=
  st <- get ;;
  if orconnStatusCacheValid st then ret tt
  else
    modify (set_orconnStatusCache (Some [])) ;;
    modify (set_orconnStatusCacheValid true) ;;
    try_except
      (status <- call (get_info w "orconn-status") ;;
       modify (set_orconnStatusCache (Some (odd_entries (Py.split status)))))
      (fun e => match e with
                | TorCtlClosed | ErrorReply => true
                | _ => false
                end)
      (modify (set_orconnStatusCache None)).

(** The body of the elimination loop, lines 570-587. *)
Definition eliminate (entry : triple) (operativeMatches : list triple) : M (list triple) :=
  let '(entryPort, entryFingerprint, entryNickname) := entry in
  toRemove <- try_except
                (nsData <- call (get_network_status w (Some ("id/" +:+ entryFingerprint))) ;;
                 match nsData with
                 | [nsEntry] =>
                     desc <- call (get_info w ("desc/id/" +:+ entryFingerprint)) ;;
                     call (router_down w desc nsEntry)
                 | _ => raise ErrorReply
                 end)
                (fun e => bool_decide (e = ErrorReply))
                (ret false) ;;
  st <- get ;;
  let toRemove :=
    if truthy_list (orconnStatusCache st) && negb toRemove
    then negb (bool_decide (entryNickname ∈ default [] (orconnStatusCache st)))
    else toRemove in
  if toRemove then
    match list_remove_first entry operativeMatches with
    | Some l => ret l
    | None => raise ValueError
    end
  else ret operativeMatches.

(** The first entry of [potentialMatches] whose port is [port]. *)
Fixpoint port_match (port : Z) (potentialMatches : list triple) : option string :=
  match potentialMatches with
  | [] => None
  | (entryPort, entryFingerprint, _) :: rest =>
      if entryPort =? port then Some entryFingerprint else port_match port rest
  end.

(** Lines 535-594 of [getFingerprint]: the cache, the identity index and
    the elimination of candidates. *)
Definition lookupFingerprint (ipAddr : string) (port : pyval) : M string :=
  port <- int port ;;
  st <- get ;;
  match fingerprintLookupCache st !! (ipAddr, PyInt port) with
  | Some fingerprint => ret fingerprint
  | None =>
      load_orconnStatusCache ;;
      st <- get ;;
      found <- match fingerprintMappings st !! ipAddr with
               | Some potentialMatches =>
                   let found :=
                     match potentialMatches with
                     | [(_, entryFingerprint, _)] => Some entryFingerprint
                     | _ => port_match port potentialMatches
                     end in
                   if truthy_opt found then ret found
                   else
                     operativeMatches <-
                       for_each potentialMatches eliminate potentialMatches ;;
                     match operativeMatches with
                     | [(_, entryFingerprint, _)] => ret (Some entryFingerprint)
                     | _ => ret found
                     end
               | None => ret None
               end ;;
      let fingerprint :=
        if truthy_opt found then default "UNKNOWN" found else "UNKNOWN" in
      modify (fun s =>
                set_fingerprintLookupCache
                  (<[(ipAddr, PyInt port) := fingerprint]> (fingerprintLookupCache s)) s) ;;
      ret fingerprint
  end.

Definition getFingerprint (ipAddr : string) (port : pyval) : M string :=
  st <- get ;;
  match localhostEntry st with
  | Some (entry, fingerprint) =>
      if bool_decide (ipAddr = CONN_L_IP entry)
         && bool_decide (port = PyStr (CONN_L_PORT entry))
      then ret fingerprint
      else lookupFingerprint ipAddr port
  | None => lookupFingerprint ipAddr port
  end.

Definition getNickname (ipAddr : string) (port : pyval) : M string :=
  st <- get ;;
  match nicknameLookupCache st !! (ipAddr, port) with
  | Some nickname => ret nickname
  | None =>
      fingerprint <- getFingerprint ipAddr port ;;
      looked_up <-
        try_except
          (if negb (String.eqb fingerprint "UNKNOWN") then
             nsData <- call (get_network_status w (Some ("id/" +:+ fingerprint))) ;;
             nsEntry <- index nsData 0 ;;
             ret (Some (ns_nickname nsEntry))
           else ret (Some fingerprint))
          (fun e => bool_decide (e = ErrorReply))
          (ret None) ;;
      match looked_up with
      | None => ret "UNKNOWN"
      | Some nickname =>
          modify (fun s =>
                    set_nicknameLookupCache
                      (<[(ipAddr, port) := nickname]> (nicknameLookupCache s)) s) ;;
          ret nickname
      end
  end.

(** The [listingWrapper] that [sortConnections] picks for the listing
    type. *)
Definition listingWrapper (lt : listing) (ip port : string) : M pyval :=
  match lt with
  | LIST_IP => n <- _ipToInt ip ;; ret (PyInt n)
  | LIST_HOSTNAME =>
      if truthy_opt (resolve w ip)
      then ret (PyStr (Py.upper (default "" (resolve w ip))))
      else n <- _ipToInt ip ;; ret (PyStr ("zzzzz" +:+ Py.format_0i 99 n))
  | LIST_FINGERPRINT =>
      fingerprint <- getFingerprint ip (PyStr port) ;;
      if negb (String.eqb fingerprint "UNKNOWN")
      then fingerprint <- getFingerprint ip (PyStr port) ;; ret (PyStr fingerprint)
      else n <- _ipToInt ip ;; ret (PyStr ("zzzzz" +:+ Py.format_0i 99 n))
  | LIST_NICKNAME =>
      nickname <- getNickname ip (PyStr port) ;;
      if negb (String.eqb nickname "UNKNOWN" || String.eqb nickname "Unnamed")
      then nickname <- getNickname ip (PyStr port) ;; ret (PyStr nickname)
      else
        nickname <- getNickname ip (PyStr port) ;;
        let tier := if String.eqb nickname "Unnamed" then 0 else 1 in
        n <- _ipToInt ip ;;
        ret (PyStr ("zzzzz" +:+ Py.format_i tier +:+ Py.format_0i 99 n))
  end.

Definition ip_of_source (x : conn_entry) : string :=
  if decide (CONN_TYPE x = inbound) then CONN_F_IP x else CONN_L_IP x.

Definition ip_of_destination (x : conn_entry) : string :=
  if decide (CONN_TYPE x = inbound) then CONN_L_IP x else CONN_F_IP x.

(** The comparison function [sortConnections] appends to [sorts] for one
    entry of [sortOrdering].  Calling the [None] of a listing row of
    [SORT_TYPES] would be a [TypeError]; the three listing cases come first,
    so that branch is never taken. *)
Definition sort_function (lt : listing) (entry : ord) : conn_entry -> conn_entry -> M Z :=
  match entry with
  | ORD_FOREIGN_LISTING =>
      fun x y =>
        a <- listingWrapper lt (CONN_F_IP x) (CONN_F_PORT x) ;;
        b <- listingWrapper lt (CONN_F_IP y) (CONN_F_PORT y) ;;
        ret (cmp a b)
  | ORD_SRC_LISTING =>
      fun x y =>
        a <- listingWrapper lt (ip_of_source x) (CONN_F_PORT x) ;;
        b <- listingWrapper lt (ip_of_source y) (CONN_F_PORT y) ;;
        ret (cmp a b)
  | ORD_DST_LISTING =>
      fun x y =>
        a <- listingWrapper lt (ip_of_destination x) (CONN_F_PORT x) ;;
        b <- listingWrapper lt (ip_of_destination y) (CONN_F_PORT y) ;;
        ret (cmp a b)
  | _ =>
      match SORT_TYPES entry with
      | Some f => f
      | None => fun _ _ => raise TypeError
      end
  end.

(** [sortConnections].  When a comparison raises, the model leaves
    [connections] in the order it had (CPython leaves the same elements in
    an unspecified order). *)
Definition sortConnections : M unit :=
  st <- get ;;
  let sorts := map (sort_function (listingType st)) (sortOrdering st) in
  sorted <- list_sort (fun x y => _multisort x y sorts) (connections st) ;;
  modify (set_connections sorted).

Definition circ_status_event : M unit :=
  modify (set_clientConnectionCache None).

Definition new_consensus_event (nslist : list ns_entry) : M unit :=
  modify (set_orconnStatusCacheValid false) ;;
  modify (set_fingerprintLookupCache ∅) ;;
  modify (set_nicknameLookupCache ∅) ;;
  mappings <- _getFingerprintMappings (Some nslist) ;;
  modify (set_fingerprintMappings mappings) ;;
  st <- get ;;
  if bool_decide (listingType st ≠ LIST_HOSTNAME) then sortConnections else ret tt.

(** Lines 169-174 of [new_desc_event]: the keys of the fingerprint cache
    that hold [fingerprint] are deleted from both caches. *)
Definition invalidEntries (fingerprint : string) (cache : gmap (string * pyval) string)
    : list (string * pyval) :=
  map fst (filter (fun kv => snd kv = fingerprint) (map_to_list cache)).

Definition clear_cached (fingerprint : string) : M unit :=
  modify (fun s =>
            let invalid := invalidEntries fingerprint (fingerprintLookupCache s) in
            set_nicknameLookupCache (foldr delete (nicknameLookupCache s) invalid)
              (set_fingerprintLookupCache (foldr delete (fingerprintLookupCache s) invalid) s)).

(** Lines 187-200: the mappings after the consensus entry [nsEntry] of the
    new descriptor is stored. *)
Fixpoint orport_match (orport : Z) (entries : list triple) : option triple :=
  match entries with
  | [] => None
  | (entryPort, entryFingerprint, entryNickname) :: rest =>
      if entryPort =? orport then Some (entryPort, entryFingerprint, entryNickname)
      else orport_match orport rest
  end.

Definition store_descriptor (nsEntry : ns_entry) : M unit :=
  st <- get ;;
  let new := (ns_orport nsEntry, ns_idhex nsEntry, ns_nickname nsEntry) in
  match fingerprintMappings st !! ns_ip nsEntry with
  | Some entries =>
      entries <- match orport_match (ns_orport nsEntry) entries with
                 | Some orportMatch =>
                     match list_remove_first orportMatch entries with
                     | Some l => ret l
                     | None => raise ValueError
                     end
                 | None => ret entries
                 end ;;
      modify (fun s => set_fingerprintMappings
                         (<[ns_ip nsEntry := entries ++ [new]]> (fingerprintMappings s)) s)
  | None =>
      modify (fun s => set_fingerprintMappings
                         (<[ns_ip nsEntry := [new]]> (fingerprintMappings s)) s)
  end.

(** The body of the loop of [new_desc_event] for one fingerprint; [false]
    is the [return] of lines 178 and 183. *)
Definition update_descriptor (fingerprint : string) : M bool :=
  clear_cached fingerprint ;;
  nsData <- try_except
              (l <- call (get_network_status w (Some ("id/" +:+ fingerprint))) ;; ret (Some l))
              (fun e => match e with
                        | ErrorReply | TorCtlClosed => true
                        | _ => false
                        end)
              (ret None) ;;
  match nsData with
  | None => ret false
  | Some nsData =>
      if 1 <? Z.of_nat (length nsData) then
        monitor_event "WARN" ("Multiple consensus entries for fingerprint: " +:+ fingerprint) ;;
        ret false
      else
        nsEntry <- index nsData 0 ;;
        store_descriptor nsEntry ;;
        ret true
  end.

Definition new_desc_event (idlist : list string) : M unit :=
  modify (set_orconnStatusCacheValid false) ;;
  completed <- for_until_return idlist update_descriptor ;;
  if completed then
    st <- get ;;
    if bool_decide (listingType st ≠ LIST_HOSTNAME) then sortConnections else ret tt
  else ret tt.

(** The body of the loop over the netstat lines, lines 233-277 of
    [reset]. *)
Definition reset_line (connTimes : gmap (string * string) Z) (line : string)
    (acc : reset_locals) : M reset_locals :=
  if negb (Py.startswith line "tcp") then ret acc
  else
    let param := Py.split line in
    local <- index param 3 ;;
    foreign <- index param 4 ;;
    let localIP := Py.slice_to local (Py.find ":" local) in
    let foreignIP := Py.slice_to foreign (Py.find ":" foreign) in
    let localPort := Py.slice_from local (Py.len localIP + 1) in
    let foreignPort := Py.slice_from foreign (Py.len foreignIP + 1) in
    st <- get ;;
    classified <-
      (if String.eqb localPort (orPort st) || String.eqb localPort (dirPort st) then
         ret (inbound, alter (Z.add 1) 0%nat (connectionCountTmp acc))
       else if String.eqb localPort (controlPort st) then
         ret (control, alter (Z.add 1) 4%nat (connectionCountTmp acc))
       else
         fingerprint <- getFingerprint foreignIP (PyStr foreignPort) ;;
         nickname <- getNickname foreignIP (PyStr foreignPort) ;;
         st <- get ;;
         match clientConnectionCache st with
         | None => raise TypeError
         | Some clientNames =>
             if existsb (is_client_name nickname fingerprint) clientNames then
               ret (client, alter (Z.add 1) 2%nat (connectionCountTmp acc))
             else if bool_decide ((foreignIP, foreignPort) ∈ DIR_SERVERS) then
               ret (directory, alter (Z.add 1) 3%nat (connectionCountTmp acc))
             else
               ret (outbound, alter (Z.add 1) 1%nat (connectionCountTmp acc))
         end) ;;
    countryCode <-
      try_except
        (call (get_info w ("ip-to-country/" +:+ Py.slice_to foreign (Py.find ":" foreign))))
        (fun e => match e with
                  | SocketError | ErrorReply => true
                  | _ => false
                  end)
        (st <- get ;;
         (if providedGeoipWarning st then ret tt
          else
            monitor_event "WARN" "Tor geoip database is unavailable." ;;
            modify (set_providedGeoipWarning true)) ;;
         ret "??") ;;
    let timed :=
      match connTimes !! (foreignIP, foreignPort) with
      | Some connTime => (connTime, clockReads acc)
      | None => (time_time w (clockReads acc), S (clockReads acc))
      end in
    ret {| connectionsTmp :=
             connectionsTmp acc ++
               [mkConn (fst classified) localIP localPort foreignIP foreignPort
                       countryCode (fst timed)];
           connectionCountTmp := snd classified;
           clockReads := snd timed |}.

(** Lines 284-304: the record for this relay itself.  The three queries
    share one [try]; when one of them fails [selfFingerprint] is still
    [None], so the test of line 291 fails exactly as when this returns
    [None]. *)
Definition self_descriptor : M (option (string * string * string)) :=
  try_except
    (selfAddress <- call (get_info w "address") ;;
     selfPort <- call (get_option w "ORPort") ;;
     selfFingerprint <- call (get_info w "fingerprint") ;;
     ret (Some (selfAddress, selfPort, selfFingerprint)))
    (fun e => match e with
              | ErrorReply | TorCtlClosed | SocketError => true
              | _ => false
              end)
    (ret None).

Definition add_localhost (connTimes : gmap (string * string) Z) (acc : reset_locals)
    : M reset_locals :=
  self <- self_descriptor ;;
  match self with
  | Some (selfAddress, selfPort, selfFingerprint) =>
      if Py.truthy selfAddress && Py.truthy selfPort && Py.truthy selfFingerprint then
        selfCountryCode <-
          try_except
            (call (get_info w ("ip-to-country/" +:+ selfAddress)))
            (fun e => match e with
                      | SocketError | ErrorReply => true
                      | _ => false
                      end)
            (ret "??") ;;
        let timed :=
          match connTimes !! (selfAddress, selfPort) with
          | Some connTime => (connTime, clockReads acc)
          | None => (time_time w (clockReads acc), S (clockReads acc))
          end in
        let entry := mkConn localhost selfAddress selfPort selfAddress selfPort
                            selfCountryCode (fst timed) in
        modify (set_localhostEntry (Some (entry, selfFingerprint))) ;;
        ret {| connectionsTmp := connectionsTmp acc ++ [entry];
               connectionCountTmp := connectionCountTmp acc;
               clockReads := snd timed |}
      else
        modify (set_localhostEntry None) ;; ret acc
  | None =>
      modify (set_localhostEntry None) ;; ret acc
  end.

(** Which exceptions the handler [except IOError] of [reset] takes. *)
Definition is_IOError (e : exn) : bool :=
  match e with
  | IOError => true
  | SocketError => socket_error_is_IOError w
  | _ => false
  end.

(** [reset].  The two locks are not modelled: the panel is only used by one
    caller at a time here. *)
Definition reset : M reset_exit :=
  st <- get ;;
  if negb (truthy_opt (pid st)) then ret NoPid
  else
    (if bool_decide (clientConnectionCache st = None) && negb (isPaused st) then
       clients <- _getClientConnections ;;
       modify (set_clientConnectionCache (Some clients))
     else ret tt) ;;
    st <- get ;;
    let connTimes :=
      build_connTimes (if negb (isPaused st) then connections st else connectionsBuffer st) in
    read <-
      try_except
        (results <- call (readlines w) ;;
         acc <- for_each results (reset_line connTimes) (mkLocals [] [0; 0; 0; 0; 0] 0) ;;
         ret (Some acc))
        is_IOError
        (monitor_event "WARN" "Unable to query netstat for new connections" ;;
         ret None) ;;
    match read with
    | None => ret NetstatFailed
    | Some acc =>
        acc <- add_localhost connTimes acc ;;
        modify (set_lastUpdate (time_time w (clockReads acc))) ;;
        st <- get ;;
        (if isPaused st then
           modify (set_connectionsBuffer (connectionsTmp acc))
         else
           modify (set_connections (connectionsTmp acc)) ;;
           modify (set_connectionCount (connectionCountTmp acc)) ;;
           if bool_decide (listingType st ≠ LIST_HOSTNAME) then sortConnections else ret tt) ;;
        ret Assigned
    end.

Definition setPaused (isPause : bool) : M unit :=
  st <- get ;;
  if bool_decide (isPause = isPaused st) then ret tt
  else
    modify (set_isPaused isPause) ;;
    if isPause then
      modify (set_pauseTime (time_time w 0)) ;;
      modify (fun s => set_connectionsBuffer (connections s) s)
    else
      modify (fun s => set_connections (connectionsBuffer s) s).

(** [__init__]: the attribute values assigned by the constructor, which
    then calls [reset]. *)
Definition init (torPid : option string) : ConnPanel * outcome reset_exit :=
  (mappings <- _getFingerprintMappings None ;;
   call (get_option w "Nickname") ;;
   ORPort <- call (get_option w "ORPort") ;;
   DirPort <- call (get_option w "DirPort") ;;
   ControlPort <- call (get_option w "ControlPort") ;;
   modify (fun _ =>
             mkPanel torPid LIST_IP None [ORD_TYPE; ORD_FOREIGN_LISTING; ORD_FOREIGN_PORT]
                     ∅ ∅ mappings false (Some []) false None false 0 []
                     ORPort DirPort ControlPort [] [0; 0; 0; 0; 0] (-1) []) ;;
   reset)
    (mkPanel torPid LIST_IP None [] ∅ ∅ ∅ false (Some []) false None false 0 []
             "" "" "" [] [0; 0; 0; 0; 0] (-1) []).

End Panel.

(** ** Views of the panel the claims speak about *)

(** The snapshot a refresh reads the connection times from and writes its
    result to: the live list, or the buffer while the panel is paused. *)
Definition snapshot (s : ConnPanel) : list conn_entry :=
  if isPaused s then connectionsBuffer s else connections s.

(** The number of records of a list that are not the localhost record. *)
Definition foreign_records (l : list conn_entry) : Z :=
  Z.of_nat (length (filter (fun e => CONN_TYPE e <> localhost) l)).

(** The sum of the counters of [connectionCount]. *)
Definition count_total (counts : list Z) : Z := fold_right Z.add 0 counts.

(** The state after a series of refresh ticks, one environment per tick;
    a tick that raises leaves the state it had reached. *)
Definition refreshes (ticks : list Env) (s : ConnPanel) : ConnPanel :=
  fold_left (fun s w => fst (reset w s)) ticks s.

(** The last record of a list with the given foreign address and port:
    the one whose time [build_connTimes] keeps. *)
Definition last_with_pair (ip port : string) (l : list conn_entry) : option conn_entry :=
  last (filter (fun e => CONN_F_IP e = ip /\ CONN_F_PORT e = port) l).

(** [entries] without its first entry for [orport], as lines 189-195 of
    [new_desc_event] leave it. *)
Fixpoint without_orport (orport : Z) (entries : list triple) : list triple :=
  match entries with
  | [] => []
  | (entryPort, entryFingerprint, entryNickname) :: rest =>
      if entryPort =? orport then rest
      else (entryPort, entryFingerprint, entryNickname) :: without_orport orport rest
  end.

(** The value of a dotted quad [a.b.c.d] as a 32-bit integer, the order the
    specification gives for the raw-address listing. *)
Definition dotted_quad_value (a b c d : Z) : Z :=
  ((a * 256 + b) * 256 + c) * 256 + d.

(** ** A concrete relay, used for the examples *)

Module Scenario.

(** A controller that knows one relay, [relayA] at 1.2.3.4:9001, has no
    circuits open, and has neither a geoip database nor a descriptor of its
    own to report. *)
Definition relayA : ns_entry := mkNs "1.2.3.4" 9001 "ABCD" "relayA".

Definition controller (netstat : outcome (list string)) : Env :=
  mkEnv netstat
    (fun key => if String.eqb key "circuit-status" then Return "" else Raise ErrorReply)
    (fun name =>
       if String.eqb name "ORPort" then Return "9001"
       else if String.eqb name "DirPort" then Return "9030"
       else if String.eqb name "ControlPort" then Return "9051"
       else Return "Unnamed")
    (fun query =>
       match query with
       | None => Return [relayA]
       | Some q => if String.eqb q "id/ABCD" then Return [relayA] else Raise ErrorReply
       end)
    (fun _ _ => Return false)
    (fun n => 100 + Z.of_nat n)
    (fun _ => None)
    true.

Definition inbound_line : string :=
  "tcp        0      0 10.0.0.5:9001          5.6.7.8:40000         ESTABLISHED 1234/tor".

Definition outbound_line (localPort : string) : string :=
  "tcp        0      0 10.0.0.5:" +:+ localPort +:+
  "         1.2.3.4:9001          ESTABLISHED 1234/tor".

(** The same controller after [relayA] has published a descriptor from a
    new address, 5.5.5.5:9001. *)
Definition relayA_moved : ns_entry := mkNs "5.5.5.5" 9001 "ABCD" "relayA".

Definition controller_after_move : Env :=
  mkEnv (Return [])
    (fun key => if String.eqb key "circuit-status" then Return "" else Raise ErrorReply)
    (fun name => Return "9001")
    (fun query =>
       match query with
       | None => Return [relayA_moved]
       | Some q => if String.eqb q "id/ABCD" then Return [relayA_moved] else Raise ErrorReply
       end)
    (fun _ _ => Return false)
    (fun n => 200 + Z.of_nat n)
    (fun _ => None)
    true.

(** A record of a connection to [ip] first seen at [time]. *)
Definition record (ip : string) (time : Z) : conn_entry :=
  mkConn outbound "10.0.0.5" "50000" ip "9001" "??" time.

(** The panel as [__init__] leaves it when netstat shows no connection. *)
Definition started : ConnPanel := fst (init (controller (Return [])) (Some "1234")).

End Scenario.

(** ** The sort without the monad *)

(** [sort_insert] and [list_sort] for a comparison that never raises and
    never touches the panel: [before x p] is [cmpfunc(x, p) < 0]. *)
Fixpoint insert_by (before : conn_entry -> conn_entry -> bool) (x : conn_entry)
    (sorted : list conn_entry) : list conn_entry :=
  match sorted with
  | [] => [x]
  | p :: rest =>
      if before x p then x :: p :: rest else p :: insert_by before x rest
  end.

Definition sort_by (before : conn_entry -> conn_entry -> bool) (l acc : list conn_entry)
    : list conn_entry :=
  fold_left (fun sorted x => insert_by before x sorted) l acc.

(** The order of the "Connection Time" sort: [x] goes in front of [p] when
    its timestamp is the larger one. *)
Definition later (x p : conn_entry) : bool := CONN_TIME p <? CONN_TIME x.

Definition not_earlier (a b : conn_entry) : Prop := CONN_TIME b <= CONN_TIME a.

(** * Reasoning about method bodies *)

(** [wp m Q E s]: running [m] from [s] ends in a state and result
    satisfying [Q], or raises an exception with a state satisfying [E].
    Every method is a total function, so [wp] with [E] false states that the
    method returns. *)
Definition wp {A} (m : M A) (Q : A -> ConnPanel -> Prop) (E : exn -> ConnPanel -> Prop)
    (s : ConnPanel) : Prop :=
  match m s with
  | (s', Return a) => Q a s'
  | (s', Raise e) => E e s'
  end.

(** ** Predicates used in the statements and proofs *)

(** [keeps I m]: [m] started where [I] holds leaves a panel where [I]
    holds, whether it returns or raises. *)
Definition keeps {A} (I : ConnPanel -> Prop) (m : M A) : Prop :=
  forall s, I s -> wp m (fun _ => I) (fun _ => I) s.

(** A property that fingerprint resolution cannot disturb: it survives the
    writes to the fingerprint cache and to the [orconn-status] cache. *)
Record fingerprint_stable (I : ConnPanel -> Prop) : Prop := {
  stable_fingerprintLookupCache : forall v s, I s -> I (set_fingerprintLookupCache v s);
  stable_orconnStatusCache : forall v s, I s -> I (set_orconnStatusCache v s);
  stable_orconnStatusCacheValid : forall v s, I s -> I (set_orconnStatusCacheValid v s)
}.

(** A property that neither resolver disturbs. *)
Record resolver_stable (I : ConnPanel -> Prop) : Prop := {
  stable_fingerprint : fingerprint_stable I;
  stable_nicknameLookupCache : forall v s, I s -> I (set_nicknameLookupCache v s)
}.

(** A property that a refresh cannot disturb before it assigns its
    results: it survives the resolver's writes, the warnings, and the
    updates of the client cache, the localhost entry and [lastUpdate]. *)
Record refresh_stable (I : ConnPanel -> Prop) : Prop := {
  stable_resolver : resolver_stable I;
  stable_logged : forall v s, I s -> I (set_logged v s);
  stable_providedGeoipWarning : forall v s, I s -> I (set_providedGeoipWarning v s);
  stable_localhostEntry : forall v s, I s -> I (set_localhostEntry v s);
  stable_clientConnectionCache : forall v s, I s -> I (set_clientConnectionCache v s);
  stable_lastUpdate : forall v s, I s -> I (set_lastUpdate v s)
}.

(** The warning of line 280. *)
Definition netstat_warning : string * string :=
  ("WARN", "Unable to query netstat for new connections").

(** The index after lines 187-200 stored the consensus entry [nsEntry]. *)
Definition patched (nsEntry : ns_entry) (mappings : gmap string (list triple))
    : gmap string (list triple) :=
  <[ns_ip nsEntry :=
      without_orport (ns_orport nsEntry) (default [] (mappings !! ns_ip nsEntry))
      ++ [(ns_orport nsEntry, ns_idhex nsEntry, ns_nickname nsEntry)]]> mappings.

(** The time of a record agrees with [connTimes]: it is the stored time of
    its foreign pair, or a reading of the clock when the pair is not
    there. *)
Definition timed_by (w : Env) (connTimes : gmap (string * string) Z) (r : conn_entry) : Prop :=
  match connTimes !! (CONN_F_IP r, CONN_F_PORT r) with
  | Some connTime => CONN_TIME r = connTime
  | None => exists n, CONN_TIME r = time_time w n
  end.

(** Every record collected so far by [reset] is timed by [connTimes]. *)
Definition all_timed (w : Env) (connTimes : gmap (string * string) Z) (acc : reset_locals)
    : Prop :=
  Forall (timed_by w connTimes) (connectionsTmp acc).

(** What a refresh leaves of the attributes it reads the old snapshot
    from, up to the point where it assigns its results. *)
Definition same_snapshot (st s : ConnPanel) : Prop :=
  isPaused s = isPaused st
  /\ connections s = connections st
  /\ connectionsBuffer s = connectionsBuffer st
  /\ connectionCount s = connectionCount st.

(** The assignment at the end of [reset], lines 310-317, of the locals
    [acc] by a refresh started in [st]. *)
Definition assigned (st s' : ConnPanel) (acc : reset_locals) : Prop :=
  if isPaused st then
    connectionsBuffer s' = connectionsTmp acc
    /\ connections s' = connections st
    /\ connectionCount s' = connectionCount st
  else
    Permutation (connections s') (connectionsTmp acc)
    /\ connectionCount s' = connectionCountTmp acc.

(** The counters of the locals of [reset] add up to the number of records
    collected so far that are not the localhost record. *)
Definition counted (acc : reset_locals) : Prop :=
  length (connectionCountTmp acc) = 5%nat
  /\ count_total (connectionCountTmp acc) = foreign_records (connectionsTmp acc).

(** The classification of lines 239-263 picks a category other than
    localhost and adds one to one of the five counters. *)
Definition classified_from (acc : reset_locals) (classified : conn_type * list Z) : Prop :=
  fst classified <> localhost
  /\ exists i, (i < 5)%nat /\ snd classified = alter (Z.add 1) i (connectionCountTmp acc).

(** * Further parts of the module *)

(** ** Sort labels *)

(** The numbers of the sort types, line 40. *)
Definition ord_number (o : ord) : Z :=
  match o with
  | ORD_TYPE => 0 | ORD_FOREIGN_LISTING => 1 | ORD_SRC_LISTING => 2
  | ORD_DST_LISTING => 3 | ORD_COUNTRY => 4 | ORD_FOREIGN_PORT => 5
  | ORD_SRC_PORT => 6 | ORD_DST_PORT => 7 | ORD_TIME => 8
  end.

(** The first two columns of [SORT_TYPES]: sort type and label. *)
Definition SORT_LABELS : list (Z * string) :=
  [(0, "Connection Type"); (1, "Listing (Foreign)"); (2, "Listing (Source)");
   (3, "Listing (Dest.)"); (4, "Country Code"); (5, "Port (Foreign)");
   (6, "Port (Source)"); (7, "Port (Dest.)"); (8, "Connection Time")].

(** The colour [getSortLabel] picks for a label, lines 74-79. *)
Definition label_color (label : string) : option string :=
  if String.eqb label "Connection Type" then Some "red"
  else if Py.startswith label "Listing" then Some "blue"
  else if Py.startswith label "Port" then Some "green"
  else if String.eqb label "Bandwidth" then Some "cyan"
  else if String.eqb label "Country Code" then Some "yellow"
  else if String.eqb label "Connection Time" then Some "magenta"
  else None.

(** The loop of [getSortLabel] over the rows of the table. *)
Fixpoint sort_label_in (table : list (Z * string)) (sortType : Z) (withColor : bool)
    : outcome string :=
  match table with
  | [] => Raise ValueError
  | (type, label) :: rest =>
      if sortType =? type then
        match (if withColor then label_color label else None) with
        | Some color =>
            Return ("<" +:+ color +:+ ">" +:+ label +:+ "</" +:+ color +:+ ">")
        | None => Return label
        end
      else sort_label_in rest sortType withColor
  end.

Definition getSortLabel (sortType : Z) (withColor : bool) : outcome string :=
  sort_label_in SORT_LABELS sortType withColor.

(** The loop of [getSortType]. *)
Fixpoint sort_type_in (table : list (Z * string)) (sortLabel : string) : outcome Z :=
  match table with
  | [] => Raise ValueError
  | (type, label) :: rest =>
      if String.eqb sortLabel label then Return type else sort_type_in rest sortLabel
  end.

Definition getSortType (sortLabel : string) : outcome Z :=
  sort_type_in SORT_LABELS sortLabel.

(** ** Cursor and scroll position *)


(** The attributes of the panel that [handleKey] and the bounds code of
    [redraw] read and write besides [connections] and [listingType].
    [maxY] is the height that [_resetBounds] found for the panel. *)
Record Navigation := mkNav {
  isCursorEnabled : bool;
  cursorSelection : option conn_entry;
  cursorLoc : Z;
  scroll : Z;
  showingDetails : bool;
  maxY : Z;
  allowDNS : bool
}.

(** [l.index(x)] for the cursor selection: the position of the first
    record equal to it; [None] stands for [ValueError], which is also what
    the initial selection [None] gives. *)
Fixpoint index_of (x : conn_entry) (l : list conn_entry) : option Z :=
  match l with
  | [] => None
  | y :: rest => if decide (x = y) then Some 0 else Z.succ <$> index_of x rest
  end.

Definition selection_index (selection : option conn_entry) (l : list conn_entry) : option Z :=
  match selection with
  | Some x => index_of x l
  | None => None
  end.



(** Lines 378-401 of [redraw]: the part that keeps cursor and scroll within
    the list before the entries are drawn.  Nothing is done for an empty
    list. *)
Definition redraw_bounds (conns : list conn_entry) (nav : Navigation) : outcome Navigation :=
  match conns with
  | [] => Return nav
  | _ :: _ =>
      let listingHeight := if showingDetails nav then maxY nav - 1 - 8 else maxY nav - 1 in
      let loc := Z.max (Z.min (cursorLoc nav) (Z.of_nat (length conns) - 1)) 0 in
      let top := Z.max (Z.min (scroll nav) (Z.of_nat (length conns) - listingHeight)) 0 in
      if isCursorEnabled nav then
        match selection_index (cursorSelection nav) conns with
        | None =>
            match conns !! Z.to_nat loc with
            | Some entry =>
                let top' := if loc <? top then loc
                            else if top <? loc - listingHeight + 1
                                 then loc - listingHeight + 1 else top in
                Return (mkNav true (Some entry) loc top'
                              (showingDetails nav) (maxY nav) (allowDNS nav))
            | None => Raise IndexError
            end
        | Some i =>
            let top' := if i <? top then i
                        else if top <? i - listingHeight + 1
                             then i - listingHeight + 1 else top in
            Return (mkNav true (cursorSelection nav) i top'
                          (showingDetails nav) (maxY nav) (allowDNS nav))
        end
      else
        Return (mkNav false (cursorSelection nav) loc top
                      (showingDetails nav) (maxY nav) (allowDNS nav))
  end.






(** ** Predicates for the further properties *)

(** The first value of a list that is not zero, zero when there is none:
    what a chain of comparisons decides. *)
Fixpoint first_nonzero (values : list Z) : Z :=
  match values with
  | [] => 0
  | v :: rest => if v =? 0 then first_nonzero rest else v
  end.

(** The page height [handleKey] and [redraw] work with. *)
Definition page_height (nav : Navigation) : Z :=
  if showingDetails nav then maxY nav - 1 - 8 else maxY nav - 1.


(** The warning of line 271, logged when the geoip lookup fails. *)
Definition geoip_warning : string * string :=
  ("WARN", "Tor geoip database is unavailable.").

(** How often the geoip warning is in the log. *)
Definition geoip_warnings (s : ConnPanel) : Z :=
  Z.of_nat (length (filter (fun entry => entry = geoip_warning) (logged s))).

(** The local port is one this relay listens on for other relays and
    directory clients. *)
Definition is_relay_port (s : ConnPanel) (port : string) : Prop :=
  port = orPort s \/ port = dirPort s.

(** What lines 239-263 and 301 of [reset] make of the category of a record,
    read from the record itself and the three ports of the panel. *)
Definition well_classified (s : ConnPanel) (r : conn_entry) : Prop :=
  match CONN_TYPE r with
  | inbound => is_relay_port s (CONN_L_PORT r)
  | control => ~ is_relay_port s (CONN_L_PORT r) /\ CONN_L_PORT r = controlPort s
  | client =>
      ~ is_relay_port s (CONN_L_PORT r) /\ CONN_L_PORT r <> controlPort s
  | directory =>
      ~ is_relay_port s (CONN_L_PORT r) /\ CONN_L_PORT r <> controlPort s
      /\ (CONN_F_IP r, CONN_F_PORT r) ∈ DIR_SERVERS
  | outbound =>
      ~ is_relay_port s (CONN_L_PORT r) /\ CONN_L_PORT r <> controlPort s
      /\ (CONN_F_IP r, CONN_F_PORT r) ∉ DIR_SERVERS
  | localhost =>
      CONN_L_IP r = CONN_F_IP r /\ CONN_L_PORT r = CONN_F_PORT r
  end.

(** The three ports of the panel are those of [st]. *)
Definition same_ports (st s : ConnPanel) : Prop :=
  orPort s = orPort st /\ dirPort s = dirPort st /\ controlPort s = controlPort st.

(** The port that [getFingerprint] looks up after [int(port)]; [None]
    stands for the [ValueError] of [int]. *)
Definition port_number (port : pyval) : option Z :=
  match port with
  | PyInt n => Some n
  | PyStr t => Py.int t
  end.

(** The answer [getFingerprint] has ready for an address and port without
    asking anyone: the fingerprint of the localhost entry when they are its
    address and port, the entry of the lookup cache otherwise. *)
Definition ready_answer (s : ConnPanel) (ipAddr : string) (port : pyval) : option string :=
  let cached :=
    match port_number port with
    | Some p => fingerprintLookupCache s !! (ipAddr, PyInt p)
    | None => None
    end in
  match localhostEntry s with
  | Some (entry, fingerprint) =>
      if bool_decide (ipAddr = CONN_L_IP entry)
         && bool_decide (port = PyStr (CONN_L_PORT entry))
      then Some fingerprint
      else cached
  | None => cached
  end.

(** The identity index lists a relay with [fingerprint] at [ipAddr]. *)
Definition listed_at (mappings : gmap string (list triple)) (ipAddr fingerprint : string)
    : Prop :=
  exists entryPort entryNickname,
    (entryPort, fingerprint, entryNickname) ∈ default [] (mappings !! ipAddr).

(** The triples of the consensus entries of [nsList] with address
    [ipAddr], in the order of the consensus. *)
Definition entries_at (ipAddr : string) (nsList : list ns_entry) : list triple :=
  map (fun entry => (ns_orport entry, ns_idhex entry, ns_nickname entry))
      (filter (fun entry => ns_ip entry = ipAddr) nsList).

(** Every cached fingerprint is ["UNKNOWN"] or the fingerprint of a relay
    that the identity index lists at the address of its key. *)
Definition answers_listed (s : ConnPanel) : Prop :=
  forall ipAddr port f,
    fingerprintLookupCache s !! (ipAddr, port) = Some f ->
    f = "UNKNOWN" \/ listed_at (fingerprintMappings s) ipAddr f.

(** The warning of line 182. *)
Definition multiple_entries_warning (fingerprint : string) : string * string :=
  ("WARN", "Multiple consensus entries for fingerprint: " +:+ fingerprint).

(** The dotted components of an address as [int] parses them; [None] when
    one of them is not an integer literal. *)
Fixpoint int_all (components : list string) : option (list Z) :=
  match components with
  | [] => Some []
  | comp :: rest =>
      match Py.int comp with
      | Some n =>
          match int_all rest with
          | Some ns => Some (n :: ns)
          | None => None
          end
      | None => None
      end
  end.

Definition dotted_components (ipAddr : string) : option (list Z) :=
  int_all (Py.split_on "." ipAddr).

(** The value of a list of components in a base, the first component the
    most significant: [dotted_value 256 [a; b; c; d]] is the address as a
    32-bit integer. *)
Definition dotted_value (base : Z) (components : list Z) : Z :=
  fold_left (fun total n => total * base + n) components 0.

(** The order of the connection types: [a] does not come after [b]. *)
Definition by_type_weight (a b : conn_entry) : Prop :=
  TYPE_WEIGHTS (CONN_TYPE a) <= TYPE_WEIGHTS (CONN_TYPE b).

(** ** The string primitives on netstat output *)

Example split_netstat_line :
  Py.split "tcp   0  0 10.0.0.5:9001     1.2.3.4:443  ESTABLISHED 1234/tor"
  = ["tcp"; "0"; "0"; "10.0.0.5:9001"; "1.2.3.4:443"; "ESTABLISHED"; "1234/tor"].
Proof. reflexivity. Qed.

Example split_on_dot : Py.split_on "." "1.2..4" = ["1"; "2"; ""; "4"].
Proof. reflexivity. Qed.

Example find_colon : Py.find ":" "1.2.3.4:443" = 7 /\ Py.find ":" "abc" = -1.
Proof. split; reflexivity. Qed.

Example slice_bounds :
  Py.slice_to "1.2.3.4:443" 7 = "1.2.3.4" /\ Py.slice_from "1.2.3.4:443" 8 = "443"
  /\ Py.slice_to "abc" (-1) = "ab" /\ Py.slice_from "abc" 5 = "".
Proof. repeat split; reflexivity. Qed.

Example int_of_str :
  Py.int " 9001 " = Some 9001 /\ Py.int "-7" = Some (-7) /\ Py.int "" = None
  /\ Py.int "*" = None /\ Py.int ":ffff" = None.
Proof. repeat split; reflexivity. Qed.

Example format_zero_padded :
  Py.format_0i 5 42 = "00042" /\ Py.format_0i 5 (-42) = "-0042".
Proof. split; vm_compute; reflexivity. Qed.

(** The scenario of section 8 of the specification: a connection whose
    local port is the OR port is inbound, and the resolver finds the
    fingerprint of the one relay at the address. *)
Example inbound_scenario :
  let w := Scenario.controller
             (Return ["tcp 0 0 0.0.0.0:9001 1.2.3.4:9001 ESTABLISHED 1234/tor"]) in
  map CONN_TYPE (connections (fst (reset w Scenario.started))) = [inbound]
  /\ snd (getFingerprint w "1.2.3.4" (PyInt 9001) Scenario.started) = Return "ABCD".
Proof. split; vm_compute; reflexivity. Qed.

(** ** Rules for [wp] *)

Lemma wp_run {A} (m : M A) Q E s :
  wp m Q E s ->
  match snd (m s) with
  | Return a => Q a (fst (m s))
  | Raise e => E e (fst (m s))
  end.
Proof. unfold wp. destruct (m s) as [s' [a|e]]; auto. Qed.

Lemma wp_ret {A} (a : A) Q E s : wp (ret a) Q E s = Q a s.
Proof. reflexivity. Qed.

Lemma wp_raise {A} e (Q : A -> ConnPanel -> Prop) E s : wp (raise e) Q E s = E e s.
Proof. reflexivity. Qed.

Lemma wp_get Q E s : wp get Q E s = Q s s.
Proof. reflexivity. Qed.

Lemma wp_modify f Q E s : wp (modify f) Q E s = Q tt (f s).
Proof. reflexivity. Qed.

Lemma wp_call {A} (o : outcome A) Q E s :
  wp (call o) Q E s = match o with Return a => Q a s | Raise e => E e s end.
Proof. unfold wp, call. destruct o; reflexivity. Qed.

Lemma wp_bind {A B} (m : M A) (k : A -> M B) Q E s :
  wp (bind m k) Q E s = wp m (fun a => wp (k a) Q E) E s.
Proof. unfold wp, bind. destruct (m s) as [s' [a|e]]; reflexivity. Qed.

Lemma wp_try_except {A} (m : M A) handles handler Q E s :
  wp (try_except m handles handler) Q E s
  = wp m Q (fun e s' => if handles e then wp handler Q E s' else E e s') s.
Proof.
  unfold wp, try_except. destruct (m s) as [s' [a|e]]; [reflexivity|].
  destruct (handles e); reflexivity.
Qed.

Lemma wp_mono {A} (m : M A) (Q Q' : A -> ConnPanel -> Prop) (E E' : exn -> ConnPanel -> Prop) s :
  wp m Q E s ->
  (forall a s', Q a s' -> Q' a s') ->
  (forall e s', E e s' -> E' e s') ->
  wp m Q' E' s.
Proof. unfold wp. destruct (m s) as [s' [a|e]]; auto. Qed.

Lemma wp_true {A} (m : M A) s : wp m (fun _ _ => True) (fun _ _ => True) s.
Proof. unfold wp. destruct (m s) as [s' [a|e]]; exact Logic.I. Qed.

(** Skips a step whose result the postcondition does not depend on. *)
Lemma wp_skip {A B} (m : M A) (k : A -> M B) (Q : B -> ConnPanel -> Prop) s :
  (forall a s', wp (k a) Q (fun _ _ => True) s') ->
  wp (bind m k) Q (fun _ _ => True) s.
Proof.
  intros Hk. rewrite wp_bind. eapply wp_mono; [apply wp_true | | auto].
  intros a s' _. apply Hk.
Qed.

Lemma wp_monitor_event level msg Q E s :
  wp (monitor_event level msg) Q E s = Q tt (set_logged (logged s ++ [(level, msg)]) s).
Proof. reflexivity. Qed.

Lemma wp_index {A} (l : list A) i Q E s :
  wp (index l i) Q E s = match l !! i with Some x => Q x s | None => E IndexError s end.
Proof. unfold index. destruct (l !! i); reflexivity. Qed.

Lemma wp_int v Q E s :
  wp (int v) Q E s
  = match v with
    | PyInt n => Q n s
    | PyStr t => match Py.int t with Some n => Q n s | None => E ValueError s end
    end.
Proof. unfold int. destruct v as [t|n]; [destruct (Py.int t)|]; reflexivity. Qed.

(** A loop keeps an invariant of its accumulator and the panel. *)
Lemma wp_for_each {A B} (body : B -> A -> M A) (J : A -> ConnPanel -> Prop) E l :
  (forall x acc s, In x l -> J acc s -> wp (body x acc) J E s) ->
  forall acc s, J acc s -> wp (for_each l body acc) J E s.
Proof.
  induction l as [|x l IH]; intros Hbody acc s HJ; simpl.
  - exact HJ.
  - rewrite wp_bind. eapply wp_mono.
    + apply Hbody; [left; reflexivity | exact HJ].
    + intros acc' s' HJ'. apply IH; [|exact HJ'].
      intros y acc0 s0 Hy. apply Hbody. right; exact Hy.
    + auto.
Qed.

Lemma wp_for_until_return {B} (body : B -> M bool) (I : ConnPanel -> Prop) E l :
  (forall x s, In x l -> I s -> wp (body x) (fun _ => I) E s) ->
  forall s, I s -> wp (for_until_return l body) (fun _ => I) E s.
Proof.
  induction l as [|x l IH]; intros Hbody s HI; simpl.
  - exact HI.
  - rewrite wp_bind. eapply wp_mono.
    + apply Hbody; [left; reflexivity | exact HI].
    + intros [|] s' HI'; [|exact HI'].
      apply IH; [|exact HI']. intros y s0 Hy. apply Hbody. right; exact Hy.
    + auto.
Qed.

(** One step of symbolic execution of a method body. *)
Ltac wp_step :=
  first
    [ rewrite wp_bind
    | rewrite wp_try_except
    | rewrite wp_ret
    | rewrite wp_raise
    | rewrite wp_get
    | rewrite wp_modify
    | rewrite wp_monitor_event
    | rewrite wp_call
    | rewrite wp_index
    | rewrite wp_int ];
  cbv beta.

Ltac wp_steps := repeat wp_step.

(** ** Operations that keep a property of the panel *)

Lemma keeps_fst {A} (I : ConnPanel -> Prop) (m : M A) s :
  keeps I m -> I s -> I (fst (m s)).
Proof.
  intros Hk HI. specialize (Hk s HI). unfold wp in Hk.
  destruct (m s) as [s' [a|e]]; exact Hk.
Qed.

(** Using a kept property in the middle of a body. *)
Lemma wp_keeps {A} (I : ConnPanel -> Prop) (m : M A) Q E s :
  keeps I m -> I s ->
  (forall a s', I s' -> Q a s') ->
  (forall e s', I s' -> E e s') ->
  wp m Q E s.
Proof. intros Hk HI HQ HE. eapply wp_mono; [apply Hk, HI | auto | auto]. Qed.

Lemma keeps_ret {A} I (a : A) : keeps I (ret a).
Proof. intros s HI. exact HI. Qed.

Lemma keeps_raise {A} I e : keeps I (@raise A e).
Proof. intros s HI. exact HI. Qed.

Lemma keeps_get I : keeps I get.
Proof. intros s HI. exact HI. Qed.

Lemma keeps_call {A} I (o : outcome A) : keeps I (call o).
Proof. intros s HI. rewrite wp_call. destruct o; exact HI. Qed.

Lemma keeps_modify (I : ConnPanel -> Prop) f : (forall s, I s -> I (f s)) -> keeps I (modify f).
Proof. intros Hf s HI. apply Hf, HI. Qed.

Lemma keeps_bind {A B} I (m : M A) (k : A -> M B) :
  keeps I m -> (forall a, keeps I (k a)) -> keeps I (bind m k).
Proof.
  intros Hm Hk s HI. rewrite wp_bind.
  apply (wp_keeps I); auto.
Qed.

Lemma keeps_try_except {A} I (m : M A) handles handler :
  keeps I m -> keeps I handler -> keeps I (try_except m handles handler).
Proof.
  intros Hm Hh s HI. rewrite wp_try_except.
  apply (wp_keeps I); auto. intros e s' HI'.
  destruct (handles e); [apply Hh, HI' | exact HI'].
Qed.

Lemma keeps_for_each {A B} I (body : B -> A -> M A) l :
  (forall x acc, keeps I (body x acc)) -> forall acc, keeps I (for_each l body acc).
Proof.
  intros Hbody acc s HI.
  apply (wp_for_each body (fun _ => I)); [|exact HI].
  intros x acc0 s0 _ HI0. apply Hbody, HI0.
Qed.

Lemma keeps_for_until_return {B} I (body : B -> M bool) l :
  (forall x, keeps I (body x)) -> keeps I (for_until_return l body).
Proof.
  intros Hbody s HI. apply (wp_for_until_return body I); [|exact HI].
  intros x s0 _ HI0. apply Hbody, HI0.
Qed.

Lemma keeps_index {A} I (l : list A) i : keeps I (index l i).
Proof. unfold index. destruct (l !! i); [apply keeps_ret | apply keeps_raise]. Qed.

Lemma keeps_int I v : keeps I (int v).
Proof.
  unfold int. destruct v as [t|n]; [|apply keeps_ret].
  destruct (Py.int t); [apply keeps_ret | apply keeps_raise].
Qed.

Lemma keeps_ipToInt I ip : keeps I (_ipToInt ip).
Proof.
  unfold _ipToInt. apply keeps_for_each. intros comp total.
  apply keeps_bind; [apply keeps_int | intros n; apply keeps_ret].
Qed.

Create HintDb keeps.

#[local] Hint Resolve keeps_ret keeps_raise keeps_get keeps_call keeps_index keeps_int
  keeps_ipToInt : keeps.

(** Splits a body along its binds, handlers and case distinctions. *)
Ltac keeps_split :=
  repeat
    match goal with
    | |- keeps _ (bind _ _) => apply keeps_bind; [|intros]
    | |- keeps _ (try_except _ _ _) => apply keeps_try_except
    | |- keeps _ (for_each _ _ _) => apply keeps_for_each; intros
    | |- keeps _ (for_until_return _ _) => apply keeps_for_until_return; intros
    | |- keeps _ (modify _) => apply keeps_modify; intros
    | |- keeps _ (if ?b then _ else _) => destruct b
    | |- keeps _ (match ?x with _ => _ end) => destruct x
    | |- keeps _ (let '(_, _) := ?x in _) => destruct x
    | |- keeps _ _ => solve [auto with keeps]
    end.

Section Keeps.

Variable w : Env.
Variable I : ConnPanel -> Prop.

Lemma keeps_monitor_event level msg :
  (forall v s, I s -> I (set_logged v s)) -> keeps I (monitor_event level msg).
Proof. intros H. apply keeps_modify. intros s. apply H. Qed.

Lemma keeps_getClientConnections : keeps I (_getClientConnections w).
Proof. unfold _getClientConnections. keeps_split. Qed.

Lemma keeps_getFingerprintMappings nsList : keeps I (_getFingerprintMappings w nsList).
Proof. unfold _getFingerprintMappings. keeps_split. Qed.

Section Fingerprint.

Hypothesis HI : fingerprint_stable I.

Lemma keeps_load_orconnStatusCache : keeps I (load_orconnStatusCache w).
Proof.
  destruct HI as [_ Hc Hv].
  unfold load_orconnStatusCache. keeps_split; auto.
Qed.

Lemma keeps_eliminate entry operativeMatches : keeps I (eliminate w entry operativeMatches).
Proof.
  unfold eliminate. destruct entry as [[entryPort entryFingerprint] entryNickname].
  keeps_split.
Qed.

Lemma keeps_lookupFingerprint ipAddr port : keeps I (lookupFingerprint w ipAddr port).
Proof.
  pose proof keeps_load_orconnStatusCache. pose proof keeps_eliminate.
  destruct HI as [Hf _ _].
  unfold lookupFingerprint. keeps_split; auto.
Qed.

Lemma keeps_getFingerprint ipAddr port : keeps I (getFingerprint w ipAddr port).
Proof.
  pose proof keeps_lookupFingerprint.
  unfold getFingerprint. keeps_split; auto.
Qed.

End Fingerprint.

Section Resolver.

Hypothesis HI : resolver_stable I.

Lemma keeps_getNickname ipAddr port : keeps I (getNickname w ipAddr port).
Proof.
  destruct HI as [Hfp Hn]. pose proof (keeps_getFingerprint Hfp).
  unfold getNickname. keeps_split; auto.
Qed.

Lemma keeps_listingWrapper lt ip port : keeps I (listingWrapper w lt ip port).
Proof.
  destruct HI as [Hfp Hn]. pose proof (keeps_getFingerprint Hfp).
  pose proof keeps_getNickname.
  unfold listingWrapper. keeps_split; auto.
Qed.

Lemma keeps_sort_function lt entry x y : keeps I (sort_function w lt entry x y).
Proof.
  pose proof keeps_listingWrapper.
  unfold sort_function, SORT_TYPES. destruct entry; keeps_split; auto.
Qed.

Lemma keeps_multisort x y sorts :
  (forall f, In f sorts -> keeps I (f x y)) -> keeps I (_multisort x y sorts).
Proof.
  induction sorts as [|f rest IH]; intros Hs; simpl.
  - apply keeps_raise.
  - apply keeps_bind; [apply Hs; left; reflexivity|].
    intros comp. destruct (negb (comp =? 0) || bool_decide (rest = [])).
    + apply keeps_ret.
    + apply IH. intros g Hg. apply Hs. right; exact Hg.
Qed.

Lemma keeps_sort_insert cmpfunc x sorted :
  (forall a b, keeps I (cmpfunc a b)) -> keeps I (sort_insert cmpfunc x sorted).
Proof.
  intros Hc. induction sorted as [|p rest IH]; simpl; keeps_split; auto.
Qed.

Lemma keeps_list_sort cmpfunc l :
  (forall a b, keeps I (cmpfunc a b)) -> keeps I (list_sort cmpfunc l).
Proof.
  intros Hc. unfold list_sort. apply keeps_for_each.
  intros x acc. apply keeps_sort_insert, Hc.
Qed.

Lemma keeps_sortConnections :
  (forall v s, I s -> I (set_connections v s)) -> keeps I (sortConnections w).
Proof.
  intros Hset. unfold sortConnections.
  apply keeps_bind; [apply keeps_get|]. intros st.
  apply keeps_bind.
  - apply keeps_list_sort. intros a b. apply keeps_multisort.
    intros f Hf. apply in_map_iff in Hf. destruct Hf as [o [<- _]].
    apply keeps_sort_function.
  - intros sorted. apply keeps_modify. intros s. apply Hset.
Qed.

End Resolver.

End Keeps.

(** Discharges a stability record for a property stated on attributes the
    writes do not touch. *)
Ltac stable :=
  repeat
    match goal with
    | |- refresh_stable _ => constructor
    | |- resolver_stable _ => constructor
    | |- fingerprint_stable _ => constructor
    end;
  let H := fresh in intros ? ? H; exact H.

Section KeepsRefresh.

Variable w : Env.
Variable I : ConnPanel -> Prop.
Hypothesis HI : refresh_stable I.

Lemma keeps_reset_line connTimes line acc : keeps I (reset_line w connTimes line acc).
Proof.
  destruct HI as [Hr Hl Hg _ _ _].
  pose proof (keeps_getFingerprint w I (stable_fingerprint I Hr)).
  pose proof (keeps_getNickname w I Hr).
  pose proof (fun level msg => keeps_monitor_event I level msg Hl).
  unfold reset_line. keeps_split; auto.
Qed.

Lemma keeps_self_descriptor : keeps I (self_descriptor w).
Proof. unfold self_descriptor. keeps_split. Qed.

Lemma keeps_add_localhost connTimes acc : keeps I (add_localhost w connTimes acc).
Proof.
  pose proof keeps_self_descriptor.
  destruct HI as [_ _ _ Hl _ _].
  unfold add_localhost. keeps_split; auto.
Qed.

Lemma keeps_reset_clients st :
  keeps I (if bool_decide (clientConnectionCache st = None) && negb (isPaused st) then
             clients <- _getClientConnections w ;;
             modify (set_clientConnectionCache (Some clients))
           else ret tt).
Proof.
  pose proof (keeps_getClientConnections w I).
  destruct HI as [_ _ _ _ Hc _].
  keeps_split; auto.
Qed.

Lemma keeps_reset_read connTimes :
  keeps I (try_except
             (results <- call (readlines w) ;;
              acc <- for_each results (reset_line w connTimes) (mkLocals [] [0; 0; 0; 0; 0] 0) ;;
              ret (Some acc))
             (is_IOError w)
             (monitor_event "WARN" "Unable to query netstat for new connections" ;;
              ret None)).
Proof.
  pose proof keeps_reset_line.
  pose proof (fun level msg => keeps_monitor_event I level msg (stable_logged I HI)).
  keeps_split; auto.
Qed.

(** A refresh of a paused panel keeps every property that also survives a
    write to the buffer. *)
Lemma keeps_reset_paused :
  (forall v s, I s -> I (set_connectionsBuffer v s)) ->
  (forall s, I s -> isPaused s = true) ->
  keeps I (reset w).
Proof.
  intros Hbuf Hpaused s Hs. unfold reset.
  wp_step. wp_step.
  destruct (negb (truthy_opt (pid s))); [wp_step; exact Hs|].
  wp_step. apply (wp_keeps I); [apply keeps_reset_clients | exact Hs | | auto].
  intros _ s1 Hs1. wp_step. wp_step. cbv zeta.
  wp_step. apply (wp_keeps I); [apply keeps_reset_read | exact Hs1 | | auto].
  intros [acc|] s2 Hs2; [|wp_step; exact Hs2].
  wp_step. apply (wp_keeps I); [apply keeps_add_localhost | exact Hs2 | | auto].
  intros acc' s3 Hs3. wp_steps.
  assert (Hs4 : I (set_lastUpdate (time_time w (clockReads acc')) s3))
    by (apply (stable_lastUpdate I HI), Hs3).
  rewrite (Hpaused _ Hs4). wp_steps. apply Hbuf, Hs4.
Qed.

End KeepsRefresh.

(** * The claims *)

(** ** Pausing (C8) *)

Lemma setPaused_true w st :
  let paused := fst (setPaused w true st) in
  isPaused paused = true
  /\ connections paused = connections st
  /\ connectionCount paused = connectionCount st.
Proof.
  unfold setPaused, bind, get. simpl.
  destruct (isPaused st) eqn:Hp; simpl; auto.
Qed.

Lemma refreshes_paused ticks : forall st,
  isPaused st = true ->
  connections (refreshes ticks st) = connections st
  /\ connectionCount (refreshes ticks st) = connectionCount st
  /\ isPaused (refreshes ticks st) = true.
Proof.
  induction ticks as [|w ticks IH]; intros st Hp; simpl; [auto|].
  pose (I := fun s => connections s = connections st
                      /\ connectionCount s = connectionCount st
                      /\ isPaused s = true).
  assert (HI : I (fst (reset w st))).
  { apply keeps_fst; [|unfold I; auto].
    apply keeps_reset_paused; [stable | intros v s H; exact H | intros s H; apply H]. }
  destruct HI as [Hc [Hn Hp']].
  destruct (IH _ Hp') as [Hc' [Hn' Hp'']].
  rewrite Hc', Hn', Hc, Hn. auto.
Qed.

(** C8. After [setPaused(True)], any series of refresh ticks, whatever the
    collaborators answer and whether a tick returns or raises, leaves
    [connections] and [connectionCount] as they were when the panel was
    paused, and the panel stays paused: among the snapshot attributes a
    paused refresh writes only [connectionsBuffer]. *)
Theorem paused_refreshes_keep_live_view (w : Env) (ticks : list Env) (st : ConnPanel) :
  let paused := fst (setPaused w true st) in
  connections (refreshes ticks paused) = connections st
  /\ connectionCount (refreshes ticks paused) = connectionCount st
  /\ isPaused (refreshes ticks paused) = true.
Proof.
  intros paused.
  destruct (setPaused_true w st) as [Hp [Hc Hn]]. fold paused in Hp, Hc, Hn.
  destruct (refreshes_paused ticks paused Hp) as [Hc' [Hn' Hp']].
  rewrite Hc', Hn', Hc, Hn. auto.
Qed.

(** ** A failed netstat query (C9) *)

(** C9. On a tick on which reading the netstat pipe raises [IOError], the
    live list, the counters and the buffer are left as they were, and the
    refresh returns from the handler having logged the netstat warning.
    The one way not to reach the query is that the reload of the client
    cache, which comes first, raises out of [reset]; the snapshot is left
    intact then as well. *)
Theorem failed_query_keeps_snapshot (w : Env) (st : ConnPanel) :
  truthy_opt (pid st) = true ->
  readlines w = Raise IOError ->
  let st' := fst (reset w st) in
  connections st' = connections st
  /\ connectionCount st' = connectionCount st
  /\ connectionsBuffer st' = connectionsBuffer st
  /\ ((snd (reset w st) = Return NetstatFailed /\ logged st' = logged st ++ [netstat_warning])
      \/ (clientConnectionCache st = None /\ isPaused st = false
          /\ exists e, get_info w "circuit-status" = Raise e /\ snd (reset w st) = Raise e)).
Proof.
  intros Hpid Hread. unfold reset, bind, get. rewrite Hpid. simpl.
  destruct (bool_decide (clientConnectionCache st = None) && negb (isPaused st)) eqn:Hreload.
  - apply andb_true_iff in Hreload. destruct Hreload as [Hnone Hlive].
    apply bool_decide_eq_true in Hnone. apply negb_true_iff in Hlive.
    unfold _getClientConnections, try_except, call, bind, modify.
    destruct (get_info w "circuit-status") as [status|e] eqn:Hinfo; simpl.
    + rewrite Hread. simpl. repeat (split; [reflexivity|]). left. split; reflexivity.
    + destruct e; simpl; rewrite ?Hread; simpl; repeat (split; [reflexivity|]);
        first [ left; split; reflexivity
              | right; split; [exact Hnone|]; split; [exact Hlive|];
                eexists; split; reflexivity ].
  - unfold try_except, call, bind, ret. rewrite Hread. simpl.
    repeat (split; [reflexivity|]). left. split; reflexivity.
Qed.

(** The theorem at a failing netstat query on the started panel. *)
Lemma failed_query_witness :
  let w := Scenario.controller (Raise IOError) in
  let st' := fst (reset w Scenario.started) in
  connections st' = connections Scenario.started
  /\ connectionCount st' = connectionCount Scenario.started
  /\ connectionsBuffer st' = connectionsBuffer Scenario.started
  /\ ((snd (reset w Scenario.started) = Return NetstatFailed
       /\ logged st' = logged Scenario.started ++ [netstat_warning])
      \/ (clientConnectionCache Scenario.started = None /\ isPaused Scenario.started = false
          /\ exists e, get_info w "circuit-status" = Raise e
                       /\ snd (reset w Scenario.started) = Raise e)).
Proof.
  apply (failed_query_keeps_snapshot (Scenario.controller (Raise IOError)) Scenario.started);
    reflexivity.
Defined.

(** ** Exceptions that escape (C10) *)

(** C10 fails on the code.  The panel is paused, a circuit-status event sets
    [clientConnectionCache] to [None], and the next refresh sees a
    connection that is neither inbound nor control: [reset] does not reload
    the cache while paused (line 217) and the loop of line 250 iterates over
    [None], so [TypeError] escapes from [reset]. *)
Theorem paused_reset_with_stale_clients_raises :
  let w := Scenario.controller (Return [Scenario.outbound_line "50000"]) in
  let paused := fst (setPaused w true Scenario.started) in
  let stale := fst (circ_status_event paused) in
  isPaused stale = true
  /\ clientConnectionCache stale = None
  /\ snd (reset w stale) = Raise TypeError.
Proof. vm_compute. auto. Qed.

(** ** The keys of the two caches (C4) *)

(** C4 fails on the code.  A refresh that sees a connection to
    1.2.3.4:9001 calls both resolvers with the port as netstat printed it, a
    [str].  [getFingerprint] converts the port with [int] before it stores
    its result, [getNickname] stores under the port as given: the nickname
    cache gets the key [("1.2.3.4", "9001")] and the fingerprint cache the
    key [("1.2.3.4", 9001)]. *)
Theorem nickname_key_not_a_fingerprint_key :
  let w := Scenario.controller (Return [Scenario.outbound_line "50000"]) in
  let st := fst (reset w Scenario.started) in
  snd (reset w Scenario.started) = Return Assigned
  /\ nicknameLookupCache st !! ("1.2.3.4", PyStr "9001") = Some "relayA"
  /\ fingerprintLookupCache st !! ("1.2.3.4", PyStr "9001") = None
  /\ fingerprintLookupCache st !! ("1.2.3.4", PyInt 9001) = Some "ABCD"
  /\ ~ (dom (nicknameLookupCache st) ⊆ dom (fingerprintLookupCache st)).
Proof.
  intros w st.
  assert (Hn : nicknameLookupCache st !! ("1.2.3.4", PyStr "9001") = Some "relayA")
    by (vm_compute; reflexivity).
  assert (Hf : fingerprintLookupCache st !! ("1.2.3.4", PyStr "9001") = None)
    by (vm_compute; reflexivity).
  repeat split; try (vm_compute; reflexivity).
  intros Hsub.
  assert (Hin : ("1.2.3.4", PyStr "9001") ∈ dom (fingerprintLookupCache st)).
  { apply Hsub, elem_of_dom. rewrite Hn. eauto. }
  apply elem_of_dom in Hin. rewrite Hf in Hin. destruct Hin as [x Hx]. discriminate.
Qed.

(** ** The raw-address listing (C6) *)

(** C6 fails on the code.  [_ipToInt] multiplies by 255, so the addresses
    0.0.1.0 and 0.0.0.255 both get the value 255 and compare equal, and
    0.0.255.255 gets a larger value than 0.1.0.0 although it is the smaller
    32-bit integer. *)
Theorem raw_address_listing_not_32_bit_order (w : Env) (s : ConnPanel) :
  let listing_cmp x y := snd (sort_function w LIST_IP ORD_FOREIGN_LISTING x y s) in
  listing_cmp (Scenario.record "0.0.1.0" 0) (Scenario.record "0.0.0.255" 0) = Return 0
  /\ dotted_quad_value 0 0 1 0 > dotted_quad_value 0 0 0 255
  /\ listing_cmp (Scenario.record "0.0.255.255" 0) (Scenario.record "0.1.0.0" 0) = Return 1
  /\ dotted_quad_value 0 0 255 255 < dotted_quad_value 0 1 0 0
  /\ snd (_ipToInt "0.0.1.0" s) = Return 255
  /\ snd (_ipToInt "0.0.0.255" s) = Return 255.
Proof. repeat split; reflexivity. Qed.

(** ** Nicknames of unresolved connections (C7) *)

(** The claim of C7 fails at a concrete input.  No relay is known at
    9.9.9.9, fingerprint resolution answers ["UNKNOWN"], and the nickname
    cache has an entry for the pair afterwards. *)
Lemma unknown_nickname_gets_cached :
  let w := Scenario.controller (Return []) in
  let key := ("9.9.9.9", PyStr "443") in
  ~ (snd (getFingerprint w "9.9.9.9" (PyStr "443") Scenario.started) = Return "UNKNOWN" ->
     snd (getNickname w "9.9.9.9" (PyStr "443") Scenario.started) = Return "UNKNOWN"
     /\ nicknameLookupCache (fst (getNickname w "9.9.9.9" (PyStr "443") Scenario.started))
          !! key = None).
Proof.
  intros w key H.
  assert (Hfp : snd (getFingerprint w "9.9.9.9" (PyStr "443") Scenario.started)
                = Return "UNKNOWN") by (vm_compute; reflexivity).
  destruct (H Hfp) as [_ Hnone].
  assert (Hsome : nicknameLookupCache
                    (fst (getNickname w "9.9.9.9" (PyStr "443") Scenario.started))
                    !! key = Some "UNKNOWN") by (vm_compute; reflexivity).
  rewrite Hsome in Hnone. discriminate.
Qed.

(** C7, amended.  When the pair has no nickname-cache entry and
    fingerprint resolution answers ["UNKNOWN"], [getNickname] returns
    ["UNKNOWN"] and stores it in the nickname cache under the pair; nothing
    else changes after the fingerprint resolution, and a second call is
    answered from the cache without touching the panel.  When fingerprint
    resolution answers a fingerprint and the nickname query raises
    [ErrorReply], [getNickname] returns ["UNKNOWN"] and stores nothing.
    That is the only such case: whenever [getNickname] returns and the
    nickname cache has no entry for the pair afterwards, the answer is
    ["UNKNOWN"], fingerprint resolution answered a fingerprint other than
    ["UNKNOWN"] and the nickname query raised [ErrorReply]. *)
Theorem unknown_nickname (w : Env) (st : ConnPanel) (ipAddr : string) (port : pyval) :
  nicknameLookupCache st !! (ipAddr, port) = None ->
  let resolved := fst (getFingerprint w ipAddr port st) in
  (snd (getFingerprint w ipAddr port st) = Return "UNKNOWN" ->
   let cached :=
     set_nicknameLookupCache (<[(ipAddr, port) := "UNKNOWN"]> (nicknameLookupCache st))
       resolved in
   getNickname w ipAddr port st = (cached, Return "UNKNOWN")
   /\ getNickname w ipAddr port cached = (cached, Return "UNKNOWN"))
  /\ (forall fingerprint,
        snd (getFingerprint w ipAddr port st) = Return fingerprint ->
        fingerprint <> "UNKNOWN" ->
        get_network_status w (Some ("id/" +:+ fingerprint)) = Raise ErrorReply ->
        getNickname w ipAddr port st = (resolved, Return "UNKNOWN")
        /\ nicknameLookupCache resolved = nicknameLookupCache st)
  /\ (forall nickname,
        snd (getNickname w ipAddr port st) = Return nickname ->
        nicknameLookupCache (fst (getNickname w ipAddr port st)) !! (ipAddr, port) = None ->
        nickname = "UNKNOWN"
        /\ exists fingerprint,
             snd (getFingerprint w ipAddr port st) = Return fingerprint
             /\ fingerprint <> "UNKNOWN"
             /\ get_network_status w (Some ("id/" +:+ fingerprint)) = Raise ErrorReply).
Proof.
  intros Hmiss resolved. subst resolved.
  assert (Hkeep : nicknameLookupCache (fst (getFingerprint w ipAddr port st))
                  = nicknameLookupCache st).
  { apply (keeps_fst (fun s => nicknameLookupCache s = nicknameLookupCache st));
      [|reflexivity].
    apply keeps_getFingerprint. stable. }
  split; [|split].
  - intros Hfp cached. subst cached. split.
    + unfold getNickname, bind, get. rewrite Hmiss.
      destruct (getFingerprint w ipAddr port st) as [s1 o].
      simpl in *. subst o. simpl. rewrite Hkeep. reflexivity.
    + unfold getNickname, bind, get. simpl.
      rewrite lookup_insert_eq. reflexivity.
  - intros fingerprint Hfp Hknown Hquery. split; [|exact Hkeep].
    unfold getNickname, bind, get. rewrite Hmiss.
    destruct (getFingerprint w ipAddr port st) as [s1 o].
    simpl in *. subst o. simpl.
    apply String.eqb_neq in Hknown. rewrite Hknown. simpl.
    unfold try_except, bind, call. rewrite Hquery. reflexivity.
  - intros nickname. unfold getNickname, bind, get. rewrite Hmiss. clear Hkeep.
    destruct (getFingerprint w ipAddr port st) as [s1 [fingerprint|e]];
      [|discriminate].
    cbn [fst snd]. unfold try_except, bind, call, index, ret, modify.
    destruct (String.eqb fingerprint "UNKNOWN") eqn:Hknown; cbn [negb].
    + cbn [fst snd]. intros _ Hnone.
      change (<[(ipAddr, port) := fingerprint]> (nicknameLookupCache s1) !! (ipAddr, port)
              = None) in Hnone.
      rewrite lookup_insert_eq in Hnone. discriminate.
    + apply String.eqb_neq in Hknown.
      destruct (get_network_status w (Some ("id/" +:+ fingerprint)))
        as [[|nsEntry nsData]|e] eqn:Hquery; cbn [lookup fst snd].
      * discriminate.
      * cbn. intros _ Hnone.
        change (<[(ipAddr, port) := ns_nickname nsEntry]> (nicknameLookupCache s1)
                  !! (ipAddr, port) = None) in Hnone.
        rewrite lookup_insert_eq in Hnone. discriminate.
      * destruct (bool_decide (e = ErrorReply)) eqn:He; cbn [fst snd]; [|discriminate].
        apply bool_decide_eq_true_1 in He. subst e.
        intros [= <-] _. split; [reflexivity|].
        exists fingerprint. split; [reflexivity|]. split; [exact Hknown | exact Hquery].
Qed.

(** The theorem at an address no relay is known at. *)
Lemma unknown_nickname_witness :
  let w := Scenario.controller (Return []) in
  let resolved := fst (getFingerprint w "9.9.9.9" (PyStr "443") Scenario.started) in
  let cached :=
    set_nicknameLookupCache
      (<[("9.9.9.9", PyStr "443") := "UNKNOWN"]> (nicknameLookupCache Scenario.started))
      resolved in
  getNickname w "9.9.9.9" (PyStr "443") Scenario.started = (cached, Return "UNKNOWN")
  /\ getNickname w "9.9.9.9" (PyStr "443") cached = (cached, Return "UNKNOWN").
Proof.
  intros w resolved cached.
  apply (proj1 (unknown_nickname w Scenario.started "9.9.9.9" (PyStr "443") eq_refl)).
  vm_compute. reflexivity.
Defined.

(** ** The connection-time sort (C5) *)

Section PureSort.

Variable cmpfunc : conn_entry -> conn_entry -> M Z.
Variable c : conn_entry -> conn_entry -> Z.
Hypothesis cmpfunc_pure : forall x y s, cmpfunc x y s = (s, Return (c x y)).

Lemma sort_insert_pure x sorted s :
  sort_insert cmpfunc x sorted s
  = (s, Return (insert_by (fun a b => c a b <? 0) x sorted)).
Proof.
  induction sorted as [|p rest IH]; simpl; [reflexivity|].
  unfold bind. rewrite cmpfunc_pure.
  destruct (c x p <? 0); [reflexivity|].
  fold (@bind (list conn_entry) (list conn_entry)). unfold bind. rewrite IH. reflexivity.
Qed.

Lemma list_sort_pure l : forall acc s,
  for_each l (sort_insert cmpfunc) acc s
  = (s, Return (sort_by (fun a b => c a b <? 0) l acc)).
Proof.
  induction l as [|x l IH]; intros acc s; simpl; [reflexivity|].
  unfold bind. rewrite sort_insert_pure. apply IH.
Qed.

End PureSort.

Section InsertBy.

Variable before : conn_entry -> conn_entry -> bool.

Lemma insert_by_perm x sorted : Permutation (insert_by before x sorted) (x :: sorted).
Proof.
  induction sorted as [|p rest IH]; simpl; [reflexivity|].
  destruct (before x p); [reflexivity|].
  rewrite IH. apply perm_swap.
Qed.

Lemma sort_by_perm l : forall acc, Permutation (sort_by before l acc) (l ++ acc).
Proof.
  induction l as [|x l IH]; intros acc; simpl; [reflexivity|].
  unfold sort_by in *. simpl. rewrite IH, insert_by_perm.
  symmetry. apply Permutation_middle.
Qed.

End InsertBy.

Lemma insert_by_ext (f g : conn_entry -> conn_entry -> bool) x sorted :
  (forall a b, f a b = g a b) -> insert_by f x sorted = insert_by g x sorted.
Proof.
  intros Hfg. induction sorted as [|p rest IH]; simpl; [reflexivity|].
  rewrite Hfg, IH. reflexivity.
Qed.

Lemma sort_by_ext (f g : conn_entry -> conn_entry -> bool) :
  (forall a b, f a b = g a b) -> forall l acc, sort_by f l acc = sort_by g l acc.
Proof.
  intros Hfg. induction l as [|x l IH]; intros acc; [reflexivity|].
  unfold sort_by in *. simpl. rewrite (insert_by_ext f g x acc Hfg). apply IH.
Qed.

Lemma insert_later_sorted x sorted :
  StronglySorted not_earlier sorted ->
  StronglySorted not_earlier (insert_by later x sorted).
Proof.
  induction 1 as [|p rest Hs IH Hp]; simpl.
  - repeat constructor.
  - unfold later at 1. destruct (CONN_TIME p <? CONN_TIME x) eqn:Hlt.
    + apply Z.ltb_lt in Hlt. constructor; [constructor; assumption|].
      constructor; [unfold not_earlier; lia|].
      eapply Forall_impl; [exact Hp|]. unfold not_earlier. intros a Ha. simpl in Ha. lia.
    + apply Z.ltb_ge in Hlt. constructor; [exact IH|].
      rewrite insert_by_perm. constructor; [exact Hlt | exact Hp].
Qed.

Lemma sort_later_sorted l : forall acc,
  StronglySorted not_earlier acc -> StronglySorted not_earlier (sort_by later l acc).
Proof.
  induction l as [|x l IH]; intros acc Hacc; simpl; [exact Hacc|].
  apply IH, insert_later_sorted, Hacc.
Qed.

Lemma sorted_lookup_order (l : list conn_entry) : forall i j x y,
  StronglySorted not_earlier l ->
  l !! i = Some x -> l !! j = Some y -> (i < j)%nat -> not_earlier x y.
Proof.
  induction l as [|p rest IH]; intros i j x y Hs Hi Hj Hij; [discriminate|].
  apply StronglySorted_inv in Hs. destruct Hs as [Hs Hp].
  destruct j as [|j]; [lia|]. simpl in Hj.
  destruct i as [|i]; simpl in Hi.
  - injection Hi as <-. rewrite Forall_forall in Hp. apply Hp.
    eapply list_elem_of_lookup_2. exact Hj.
  - apply (IH i j); auto. lia.
Qed.

(** The comparison [_multisort] makes for the ordering [[ORD_TIME]]. *)
Lemma multisort_time w lt x y s :
  _multisort x y (map (sort_function w lt) [ORD_TIME]) s
  = (s, Return (Py.cmp_int (- CONN_TIME x) (- CONN_TIME y))).
Proof.
  simpl. unfold bind, ret.
  destruct (negb (Py.cmp_int (- CONN_TIME x) (- CONN_TIME y) =? 0)); reflexivity.
Qed.

Lemma cmp_time_later x y :
  (Py.cmp_int (- CONN_TIME x) (- CONN_TIME y) <? 0) = later x y.
Proof.
  unfold Py.cmp_int, later.
  destruct (Z.compare_spec (- CONN_TIME x) (- CONN_TIME y)) as [H|H|H]; simpl;
    symmetry; [apply Z.ltb_ge | apply Z.ltb_lt | apply Z.ltb_ge]; lia.
Qed.

(** When the sort returns, its result is a rearrangement of its input. *)
Lemma sort_insert_perm cmpfunc x sorted s :
  wp (sort_insert cmpfunc x sorted) (fun r _ => Permutation r (x :: sorted))
     (fun _ _ => True) s.
Proof.
  revert s. induction sorted as [|p rest IH]; intros s; simpl.
  - wp_step. reflexivity.
  - apply wp_skip. intros c s1. destruct (c <? 0).
    + wp_step. reflexivity.
    + wp_step. eapply wp_mono; [apply IH | | auto].
      intros r s2 Hr. wp_step. simpl. rewrite Hr. apply perm_swap.
Qed.

Lemma list_sort_perm cmpfunc l : forall acc s,
  wp (for_each l (sort_insert cmpfunc) acc) (fun r _ => Permutation r (l ++ acc))
     (fun _ _ => True) s.
Proof.
  induction l as [|x l IH]; intros acc s; simpl.
  - wp_step. reflexivity.
  - wp_step. eapply wp_mono; [apply sort_insert_perm | | auto].
    intros r s1 Hr. simpl in Hr. eapply wp_mono; [apply IH | | auto].
    intros r' s2 Hr'. simpl in Hr'. rewrite Hr', Hr. symmetry. apply Permutation_middle.
Qed.

Lemma sortConnections_perm w s :
  wp (sortConnections w) (fun _ s' => Permutation (connections s') (connections s))
     (fun _ _ => True) s.
Proof.
  unfold sortConnections. wp_step. wp_step. wp_step. unfold list_sort.
  eapply wp_mono; [apply list_sort_perm | | auto].
  intros r s1 Hr. simpl in Hr. wp_step. simpl. rewrite Hr, app_nil_r. reflexivity.
Qed.

(** A sort whose comparison answers by a key leaves the list in the order
    of the key. *)
Section SortedByKey.

Variable key : conn_entry -> Z.
Variable cmpfunc : conn_entry -> conn_entry -> M Z.

Hypothesis cmpfunc_key : forall x p s,
  wp (cmpfunc x p)
     (fun c _ => (c < 0 -> key x <= key p) /\ (0 <= c -> key p <= key x))
     (fun _ _ => True) s.

Lemma sort_insert_sorted x sorted s :
  StronglySorted (fun a b => key a <= key b) sorted ->
  wp (sort_insert cmpfunc x sorted)
     (fun r _ => StronglySorted (fun a b => key a <= key b) r
                 /\ Permutation r (x :: sorted))
     (fun _ _ => True) s.
Proof.
  revert s. induction sorted as [|p rest IH]; intros s Hsorted; simpl.
  - wp_step. split; [repeat constructor | reflexivity].
  - inversion Hsorted as [|? ? Hrest Hp]. subst.
    wp_step. eapply wp_mono; [apply cmpfunc_key | | auto].
    intros c s1 [Hlt Hge]. cbv beta. destruct (c <? 0) eqn:Hc.
    + apply Z.ltb_lt in Hc. wp_step. split; [|reflexivity].
      constructor; [exact Hsorted|].
      constructor; [apply Hlt, Hc|].
      eapply Forall_impl; [exact Hp|]. intros q Hq. simpl in *.
      specialize (Hlt Hc). lia.
    + apply Z.ltb_ge in Hc. wp_step.
      eapply wp_mono; [apply IH, Hrest | | auto].
      intros r s2 [Hr Hperm]. cbv beta. wp_step. split.
      * constructor; [exact Hr|]. rewrite Hperm.
        constructor; [apply Hge, Hc | exact Hp].
      * rewrite Hperm. apply perm_swap.
Qed.

Lemma list_sort_sorted l : forall acc s,
  StronglySorted (fun a b => key a <= key b) acc ->
  wp (for_each l (sort_insert cmpfunc) acc)
     (fun r _ => StronglySorted (fun a b => key a <= key b) r)
     (fun _ _ => True) s.
Proof.
  induction l as [|x l IH]; intros acc s Hacc; simpl.
  - wp_step. exact Hacc.
  - wp_step. eapply wp_mono; [apply sort_insert_sorted, Hacc | | auto].
    intros r s1 [Hr _]. cbv beta. apply IH, Hr.
Qed.

End SortedByKey.

Lemma StronglySorted_weaken {A} (R R' : A -> A -> Prop) (l : list A) :
  (forall a b, R a b -> R' a b) -> StronglySorted R l -> StronglySorted R' l.
Proof.
  intros HR. induction 1 as [|a l Hs IH Ha]; constructor; [exact IH|].
  eapply Forall_impl; [exact Ha|]. intros b. apply HR.
Qed.

(** The comparison [_multisort] makes for an ordering that starts with
    [ORD_TIME]: the later entries are asked only when the times are equal. *)
Lemma multisort_by_time (w : Env) (lt : listing) (rest : list ord) x p s :
  wp (_multisort x p (map (sort_function w lt) (ORD_TIME :: rest)))
     (fun c _ =>
        (c < 0 -> - CONN_TIME x <= - CONN_TIME p)
        /\ (0 <= c -> - CONN_TIME p <= - CONN_TIME x))
     (fun _ _ => True) s.
Proof.
  simpl map. simpl _multisort. wp_step. wp_step.
  assert (Hcmp : (Py.cmp_int (- CONN_TIME x) (- CONN_TIME p) < 0
                  -> - CONN_TIME x <= - CONN_TIME p)
                 /\ (0 <= Py.cmp_int (- CONN_TIME x) (- CONN_TIME p)
                     -> - CONN_TIME p <= - CONN_TIME x)
                 /\ (Py.cmp_int (- CONN_TIME x) (- CONN_TIME p) = 0
                     -> CONN_TIME x = CONN_TIME p)).
  { unfold Py.cmp_int.
    destruct (Z.compare_spec (- CONN_TIME x) (- CONN_TIME p)) as [H|H|H];
      unfold Py.cmp_of; lia. }
  destruct (Py.cmp_int (- CONN_TIME x) (- CONN_TIME p) =? 0) eqn:Hzero.
  - apply Z.eqb_eq in Hzero. cbn [negb orb].
    destruct (bool_decide (map (sort_function w lt) rest = [])).
    + wp_step. lia.
    + eapply wp_mono; [apply wp_true | | auto]. intros c s1 _. cbv beta. lia.
  - cbn [negb orb]. wp_step. lia.
Qed.

(** The claim of C5 fails at a concrete input: of two records first seen at
    10 and at 20, the one seen at 10 has the longer duration, and the sort
    puts it last. *)
Lemma time_sort_puts_longest_lived_last :
  let w := Scenario.controller (Return []) in
  let st := set_sortOrdering [ORD_TIME]
              (set_connections [Scenario.record "1.1.1.1" 10; Scenario.record "2.2.2.2" 20]
                 Scenario.started) in
  let sorted := connections (fst (sortConnections w st)) in
  ~ (forall i j x y,
       sorted !! i = Some x -> sorted !! j = Some y ->
       CONN_TIME x < CONN_TIME y -> (i < j)%nat).
Proof.
  intros w st sorted H.
  assert (Hs : sorted = [Scenario.record "2.2.2.2" 20; Scenario.record "1.1.1.1" 10])
    by (vm_compute; reflexivity).
  specialize (H 1%nat 0%nat (Scenario.record "1.1.1.1" 10) (Scenario.record "2.2.2.2" 20)).
  rewrite Hs in H. simpl in H.
  specialize (H eq_refl eq_refl ltac:(lia)). lia.
Qed.

(** C5, amended.  With [ORD_TIME] as the first entry of the sort ordering,
    whatever entries follow it and whatever the listing type is, a call of
    [sortConnections] that returns leaves the same records in [connections]
    and puts of any two records the one with the larger first-seen
    timestamp, that is the shorter duration, first.  With [ORD_TIME] as the
    only entry the call does return, and changes nothing but the order of
    [connections]. *)
Theorem time_sort_newest_first (w : Env) (st : ConnPanel) (rest : list ord) :
  sortOrdering st = ORD_TIME :: rest ->
  (forall st',
     sortConnections w st = (st', Return tt) ->
     Permutation (connections st') (connections st)
     /\ forall i j x y,
          connections st' !! i = Some x -> connections st' !! j = Some y ->
          CONN_TIME y < CONN_TIME x -> (i < j)%nat)
  /\ (rest = [] ->
      exists sorted, sortConnections w st = (set_connections sorted st, Return tt)).
Proof.
  intros Hord. split.
  - intros st' Hrun.
    assert (Hwp : wp (sortConnections w)
                    (fun _ s' => StronglySorted not_earlier (connections s'))
                    (fun _ _ => True) st).
    { unfold sortConnections. wp_step. wp_step. wp_step. rewrite Hord.
      unfold list_sort.
      eapply wp_mono.
      - apply (list_sort_sorted (fun e => - CONN_TIME e)).
        + intros x p s. apply multisort_by_time.
        + constructor.
      - intros sorted s1 Hsorted. cbv beta. wp_step.
        change (StronglySorted not_earlier sorted).
        eapply StronglySorted_weaken; [|exact Hsorted].
        intros a b Hab. unfold not_earlier. simpl in Hab. lia.
      - auto. }
    pose proof (sortConnections_perm w st) as Hperm.
    unfold wp in Hwp, Hperm. rewrite Hrun in Hwp, Hperm.
    split; [exact Hperm|].
    intros i j x y Hi Hj Hlt.
    destruct (Nat.lt_trichotomy i j) as [H|[H|H]]; [exact H| |].
    + subst j. rewrite Hi in Hj. injection Hj as ->. lia.
    + pose proof (sorted_lookup_order _ j i y x Hwp Hj Hi H) as Hle.
      unfold not_earlier in Hle. lia.
  - intros ->. exists (sort_by later (connections st) []).
    unfold sortConnections, bind, get, list_sort. rewrite Hord.
    rewrite (list_sort_pure _ (fun x y => Py.cmp_int (- CONN_TIME x) (- CONN_TIME y))
               (multisort_time w (listingType st))).
    unfold modify. rewrite (sort_by_ext _ later cmp_time_later). reflexivity.
Qed.

(** The theorem at two records first seen at 10 and at 20, sorted by time
    and then by foreign port. *)
Lemma time_sort_witness :
  let w := Scenario.controller (Return []) in
  let st := set_sortOrdering [ORD_TIME; ORD_FOREIGN_PORT]
              (set_connections [Scenario.record "1.1.1.1" 10; Scenario.record "2.2.2.2" 20]
                 Scenario.started) in
  let st' := fst (sortConnections w st) in
  sortOrdering st = ORD_TIME :: [ORD_FOREIGN_PORT]
  /\ sortConnections w st = (st', Return tt)
  /\ Permutation (connections st') (connections st)
  /\ forall i j x y,
       connections st' !! i = Some x -> connections st' !! j = Some y ->
       CONN_TIME y < CONN_TIME x -> (i < j)%nat.
Proof.
  intros w st st'.
  assert (Hord : sortOrdering st = ORD_TIME :: [ORD_FOREIGN_PORT]) by reflexivity.
  assert (Hrun : sortConnections w st = (st', Return tt)) by (vm_compute; reflexivity).
  split; [exact Hord|]. split; [exact Hrun|].
  exact (proj1 (time_sort_newest_first w st _ Hord) st' Hrun).
Defined.

(** ** Descriptor updates and the identity index (C3) *)

Lemma orport_match_remove orport entries orportMatch :
  orport_match orport entries = Some orportMatch ->
  list_remove_first orportMatch entries = Some (without_orport orport entries).
Proof.
  induction entries as [|[[entryPort entryFingerprint] entryNickname] rest IH]; simpl;
    [discriminate|].
  destruct (entryPort =? orport) eqn:Hport.
  - intros [= <-]. rewrite decide_True by reflexivity. reflexivity.
  - intros Hm. destruct (decide (orportMatch = (entryPort, entryFingerprint, entryNickname)))
      as [->|Hne].
    + exfalso. clear IH. induction rest as [|[[p f] n] rest IH]; simpl in Hm; [discriminate|].
      destruct (p =? orport) eqn:Hp; [|auto].
      injection Hm as -> _ _. congruence.
    + rewrite (IH Hm). reflexivity.
Qed.

Lemma orport_match_none orport entries :
  orport_match orport entries = None -> without_orport orport entries = entries.
Proof.
  induction entries as [|[[entryPort entryFingerprint] entryNickname] rest IH]; simpl;
    [reflexivity|].
  destruct (entryPort =? orport); [discriminate|].
  intros Hm. rewrite (IH Hm). reflexivity.
Qed.

Lemma store_descriptor_patches nsEntry s :
  store_descriptor nsEntry s
  = (set_fingerprintMappings (patched nsEntry (fingerprintMappings s)) s, Return tt).
Proof.
  unfold store_descriptor, patched, bind, get.
  destruct (fingerprintMappings s !! ns_ip nsEntry) as [entries|] eqn:Hl; simpl;
    [|reflexivity].
  destruct (orport_match (ns_orport nsEntry) entries) as [orportMatch|] eqn:Hm.
  - rewrite (orport_match_remove _ _ _ Hm). reflexivity.
  - rewrite (orport_match_none _ _ Hm). reflexivity.
Qed.

Lemma wp_fst {A} (I : ConnPanel -> Prop) (m : M A) s :
  wp m (fun _ => I) (fun _ => I) s -> I (fst (m s)).
Proof. unfold wp. destruct (m s) as [s' [a|e]]; auto. Qed.

(** The claim of C3 fails at a concrete input.  The index lists [relayA]
    at 1.2.3.4; a descriptor event names its fingerprint and the refreshed
    consensus entry gives the address 5.5.5.5.  After the event the index
    still holds the entry for the fingerprint at 1.2.3.4. *)
Lemma stale_index_entry_survives_patch :
  let st' := fst (new_desc_event Scenario.controller_after_move ["ABCD"] Scenario.started) in
  ~ (forall ip entries entry,
       fingerprintMappings st' !! ip = Some entries ->
       entry ∈ entries -> snd (fst entry) = "ABCD" ->
       ip = ns_ip Scenario.relayA_moved).
Proof.
  intros st' H.
  assert (Hold : fingerprintMappings st' !! "1.2.3.4" = Some [(9001, "ABCD", "relayA")])
    by (vm_compute; reflexivity).
  specialize (H "1.2.3.4" _ (9001, "ABCD", "relayA") Hold).
  assert (Hne : "1.2.3.4" <> ns_ip Scenario.relayA_moved) by discriminate.
  apply Hne, H; [left | reflexivity].
Qed.

(** C3, amended.  For a descriptor event naming [fingerprint] whose
    refreshed consensus document is the single entry [nsEntry], the index
    after the event is the index before it with one change, at the address
    of [nsEntry]: the first entry there with the OR port of [nsEntry]
    (whatever its fingerprint) is dropped and the refreshed triple is
    appended.  Entries at every other address, also those that reference
    [fingerprint], stay as they are. *)
Theorem new_desc_event_patches_one_address (w : Env) (st : ConnPanel)
    (fingerprint : string) (nsEntry : ns_entry) :
  get_network_status w (Some ("id/" +:+ fingerprint)) = Return [nsEntry] ->
  let st' := fst (new_desc_event w [fingerprint] st) in
  fingerprintMappings st' = patched nsEntry (fingerprintMappings st)
  /\ fingerprintMappings st' !! ns_ip nsEntry
     = Some (without_orport (ns_orport nsEntry)
               (default [] (fingerprintMappings st !! ns_ip nsEntry))
             ++ [(ns_orport nsEntry, ns_idhex nsEntry, ns_nickname nsEntry)])
  /\ forall ip, ip <> ns_ip nsEntry ->
       fingerprintMappings st' !! ip = fingerprintMappings st !! ip.
Proof.
  intros Hdoc st'.
  assert (Hpatched : fingerprintMappings st' = patched nsEntry (fingerprintMappings st)).
  { subst st'.
    apply (wp_fst (fun s => fingerprintMappings s = patched nsEntry (fingerprintMappings st))).
    unfold new_desc_event. wp_step. wp_step. simpl for_until_return.
    wp_step. wp_step. unfold update_descriptor.
    wp_step. unfold clear_cached. wp_step.
    wp_step. wp_step. wp_step. wp_step. rewrite Hdoc. wp_step.
    simpl length. change (1 <? Z.of_nat 1) with false. cbv iota.
    wp_step. wp_step. simpl lookup. cbv iota.
    wp_step. unfold wp at 1. rewrite store_descriptor_patches. simpl.
    wp_step. wp_step. wp_step. wp_step.
    match goal with |- context [listingType ?s] => set (s1 := s) end.
    assert (Hs1 : fingerprintMappings s1 = patched nsEntry (fingerprintMappings st))
      by reflexivity.
    destruct (bool_decide (listingType s1 ≠ LIST_HOSTNAME)); [|wp_step; exact Hs1].
    apply keeps_sortConnections; [stable | intros v s H; exact H | exact Hs1]. }
  split; [exact Hpatched|]. rewrite Hpatched. unfold patched. split.
  - apply lookup_insert_eq.
  - intros ip Hip. apply lookup_insert_ne. congruence.
Qed.

(** The theorem at the relay that moved from 1.2.3.4 to 5.5.5.5. *)
Lemma new_desc_event_witness :
  let st' := fst (new_desc_event Scenario.controller_after_move ["ABCD"] Scenario.started) in
  fingerprintMappings st' = patched Scenario.relayA_moved (fingerprintMappings Scenario.started)
  /\ fingerprintMappings st' !! "5.5.5.5" = Some [(9001, "ABCD", "relayA")]
  /\ forall ip, ip <> "5.5.5.5" ->
       fingerprintMappings st' !! ip = fingerprintMappings Scenario.started !! ip.
Proof.
  apply (new_desc_event_patches_one_address Scenario.controller_after_move Scenario.started
           "ABCD" Scenario.relayA_moved).
  reflexivity.
Defined.

(** ** Connection times across refreshes (C2) *)

Lemma wp_conj {A} (m : M A) (Q1 Q2 : A -> ConnPanel -> Prop)
    (E1 E2 : exn -> ConnPanel -> Prop) s :
  wp m Q1 E1 s -> wp m Q2 E2 s ->
  wp m (fun a s' => Q1 a s' /\ Q2 a s') (fun e s' => E1 e s' /\ E2 e s') s.
Proof. unfold wp. destruct (m s) as [s' [a|e]]; auto. Qed.

Section Times.

Variable w : Env.
Variable connTimes : gmap (string * string) Z.

Lemma reset_line_timed line acc s :
  all_timed w connTimes acc ->
  wp (reset_line w connTimes line acc) (fun acc' _ => all_timed w connTimes acc')
     (fun _ _ => True) s.
Proof.
  intros Hacc. unfold reset_line.
  destruct (negb (Py.startswith line "tcp")); [wp_step; exact Hacc|].
  apply wp_skip. intros local s1. apply wp_skip. intros foreign s2.
  apply wp_skip. intros st s3. apply wp_skip. intros classified s4.
  apply wp_skip. intros countryCode s5. wp_step.
  unfold all_timed. simpl. apply Forall_app. split; [exact Hacc|].
  constructor; [|constructor]. unfold timed_by. simpl.
  destruct (connTimes !! _) as [connTime|]; simpl; eauto.
Qed.

Lemma add_localhost_timed acc s :
  all_timed w connTimes acc ->
  wp (add_localhost w connTimes acc) (fun acc' _ => all_timed w connTimes acc')
     (fun _ _ => True) s.
Proof.
  intros Hacc. unfold add_localhost.
  apply wp_skip. intros [[[selfAddress selfPort] selfFingerprint]|] s1.
  - destruct (Py.truthy selfAddress && Py.truthy selfPort && Py.truthy selfFingerprint).
    + apply wp_skip. intros selfCountryCode s2. wp_step. wp_step. wp_step.
      unfold all_timed. simpl. apply Forall_app. split; [exact Hacc|].
      constructor; [|constructor]. unfold timed_by. simpl.
      destruct (connTimes !! _) as [connTime|]; simpl; eauto.
    + wp_step. wp_step. wp_step. exact Hacc.
  - wp_step. wp_step. wp_step. exact Hacc.
Qed.

End Times.

Lemma snapshot_paused s : isPaused s = true -> snapshot s = connectionsBuffer s.
Proof. unfold snapshot. intros ->. reflexivity. Qed.

Lemma snapshot_live s : isPaused s = false -> snapshot s = connections s.
Proof. unfold snapshot. intros ->. reflexivity. Qed.

Lemma same_snapshot_stable st : refresh_stable (same_snapshot st).
Proof. stable. Qed.

(** A property [J] of the locals of [reset] that the loop body and the
    localhost step keep holds of the locals that a refresh assigns. *)
Section ResetAssigns.

Variable w : Env.
Variable st : ConnPanel.
Variable J : reset_locals -> Prop.

Hypothesis J_start : J (mkLocals [] [0; 0; 0; 0; 0] 0).
Hypothesis J_line : forall line acc s,
  J acc ->
  wp (reset_line w (build_connTimes (snapshot st)) line acc)
     (fun acc' _ => J acc') (fun _ _ => True) s.
Hypothesis J_localhost : forall acc s,
  J acc ->
  wp (add_localhost w (build_connTimes (snapshot st)) acc)
     (fun acc' _ => J acc') (fun _ _ => True) s.

Lemma reset_read_locals s :
  wp (try_except
        (results <- call (readlines w) ;;
         acc <- for_each results (reset_line w (build_connTimes (snapshot st)))
                  (mkLocals [] [0; 0; 0; 0; 0] 0) ;;
         ret (Some acc))
        (is_IOError w)
        (monitor_event "WARN" "Unable to query netstat for new connections" ;;
         ret None))
     (fun read _ => match read with Some acc => J acc | None => True end)
     (fun _ _ => True) s.
Proof.
  rewrite wp_try_except. rewrite wp_bind, wp_call.
  assert (Hexn : forall e s',
             if is_IOError w e
             then wp (monitor_event "WARN" "Unable to query netstat for new connections" ;;
                      ret None)
                     (fun read _ => match read with Some acc => J acc | None => True end)
                     (fun _ _ => True) s'
             else True).
  { intros e s'. destruct (is_IOError w e); [|exact Logic.I]. wp_steps. exact Logic.I. }
  destruct (readlines w) as [results|e]; [|apply Hexn].
  rewrite wp_bind.
  eapply wp_mono.
  - apply (wp_for_each (reset_line w (build_connTimes (snapshot st)))
             (fun acc _ => J acc) (fun _ _ => True)).
    + intros line acc s0 _ Hacc. apply J_line, Hacc.
    + exact J_start.
  - intros acc s' Hacc. wp_step. exact Hacc.
  - intros e s' _. apply Hexn.
Qed.

Lemma reset_assigns :
  wp (reset w)
     (fun exit s' =>
        isPaused s' = isPaused st
        /\ (exit = Assigned -> exists acc, J acc /\ assigned st s' acc))
     (fun _ _ => True) st.
Proof.
  pose proof (same_snapshot_stable st) as Hstable.
  assert (H0 : same_snapshot st st) by (repeat split).
  unfold reset. wp_step. wp_step.
  destruct (negb (truthy_opt (pid st))).
  { wp_step. split; [reflexivity | discriminate]. }
  wp_step.
  apply (wp_keeps (same_snapshot st)); [apply keeps_reset_clients, Hstable | exact H0 | | auto].
  intros _ s1 H1. wp_step. wp_step. cbv zeta.
  assert (Hsnap : (if negb (isPaused s1) then connections s1 else connectionsBuffer s1)
                  = snapshot st).
  { destruct H1 as [Hp [Hc [Hb _]]]. unfold snapshot. rewrite Hp, Hc, Hb.
    destruct (isPaused st); reflexivity. }
  rewrite Hsnap. wp_step.
  eapply wp_mono.
  { apply wp_conj.
    - apply (keeps_reset_read w (same_snapshot st) Hstable), H1.
    - apply reset_read_locals. }
  2: { auto. }
  intros [acc|] s2 [H2 Hacc]; cbv beta in *.
  2: { wp_step. split; [apply H2 | discriminate]. }
  wp_step. eapply wp_mono.
  { apply wp_conj.
    - apply (keeps_add_localhost w (same_snapshot st) Hstable), H2.
    - apply J_localhost, Hacc. }
  2: { auto. }
  intros acc' s3 [H3 Hacc']. cbv beta in *.
  wp_step. wp_step. wp_step. wp_step. wp_step.
  destruct H3 as [Hp [Hc [Hb Hn]]].
  change (isPaused (set_lastUpdate (time_time w (clockReads acc')) s3)) with (isPaused s3).
  unfold assigned. rewrite <- Hp.
  destruct (isPaused s3) eqn:Hpaused.
  - wp_step. wp_step. split; [exact Hpaused|].
    intros _. exists acc'. split; [exact Hacc'|]. simpl. auto.
  - wp_step. wp_step. wp_step. wp_step.
    match goal with |- context [bool_decide ?P] => destruct (bool_decide P) end.
    + match goal with |- wp _ _ _ ?s => set (s4 := s) end.
      pose (I4 := fun s => isPaused s = false /\ connectionCount s = connectionCountTmp acc').
      assert (H4 : I4 s4) by (split; [exact Hpaused | reflexivity]).
      assert (Hc4 : connections s4 = connectionsTmp acc') by reflexivity.
      eapply wp_mono.
      { apply wp_conj.
        - apply (keeps_sortConnections w I4); [stable | intros v s H; exact H | exact H4].
        - apply sortConnections_perm. }
      2: { auto. }
      intros _ s5 [[Hp5 Hn5] Hperm]. cbv beta in *. wp_step.
      split; [exact Hp5|]. intros _. exists acc'. split; [exact Hacc'|].
      rewrite <- Hc4. auto.
    + wp_step. wp_step. split; [exact Hpaused|].
      intros _. exists acc'. split; [exact Hacc'|]. simpl. auto.
Qed.

End ResetAssigns.

Lemma reset_timed w st :
  wp (reset w)
     (fun exit s' =>
        isPaused s' = isPaused st
        /\ (exit = Assigned ->
            Forall (timed_by w (build_connTimes (snapshot st))) (snapshot s')))
     (fun _ _ => True) st.
Proof.
  eapply wp_mono; [| |auto].
  - apply (reset_assigns w st (all_timed w (build_connTimes (snapshot st)))).
    + constructor.
    + intros line acc s. apply reset_line_timed.
    + intros acc s. apply add_localhost_timed.
  - intros exit s' [Hp Hassigned]. split; [exact Hp|].
    intros Hexit. destruct (Hassigned Hexit) as [acc [Hacc Hs']].
    unfold assigned in Hs'. unfold all_timed in Hacc.
    destruct (isPaused st) eqn:Hpaused.
    + rewrite (snapshot_paused s' Hp). destruct Hs' as [-> _]. exact Hacc.
    + rewrite (snapshot_live s' Hp). destruct Hs' as [Hperm _].
      rewrite Hperm. exact Hacc.
Qed.

Lemma build_connTimes_snoc l e :
  build_connTimes (l ++ [e])
  = <[(CONN_F_IP e, CONN_F_PORT e) := CONN_TIME e]> (build_connTimes l).
Proof. unfold build_connTimes. rewrite fold_left_app. reflexivity. Qed.

(** [connTimes] holds for each pair the time of the last record with it. *)
Lemma build_connTimes_last l ip port :
  build_connTimes l !! (ip, port) = CONN_TIME <$> last_with_pair ip port l.
Proof.
  unfold last_with_pair.
  induction l as [|e l IH] using rev_ind; [reflexivity|].
  rewrite build_connTimes_snoc, filter_app.
  destruct (decide (CONN_F_IP e = ip /\ CONN_F_PORT e = port)) as [[<- <-]|Hne].
  - rewrite lookup_insert_eq, filter_cons, filter_nil.
    rewrite decide_True by (split; reflexivity).
    rewrite last_snoc. reflexivity.
  - rewrite lookup_insert_ne by (intros [= Hip Hport]; apply Hne; auto).
    rewrite filter_cons, filter_nil.
    rewrite decide_False by exact Hne.
    rewrite app_nil_r. exact IH.
Qed.

Lemma last_with_pair_elem ip port l old :
  last_with_pair ip port l = Some old ->
  old ∈ l /\ CONN_F_IP old = ip /\ CONN_F_PORT old = port.
Proof.
  unfold last_with_pair. intros Hlast.
  apply last_Some_elem_of in Hlast. apply list_elem_of_filter in Hlast.
  destruct Hlast as [[Hip Hport] Hin]. auto.
Qed.

Lemma last_with_pair_none ip port l old :
  last_with_pair ip port l = None ->
  old ∈ l -> ~ (CONN_F_IP old = ip /\ CONN_F_PORT old = port).
Proof.
  unfold last_with_pair. intros Hlast Hin Hpair.
  apply last_None in Hlast.
  assert (Hin' : old ∈ filter (fun e => CONN_F_IP e = ip /\ CONN_F_PORT e = port) l)
    by (apply list_elem_of_filter; auto).
  rewrite Hlast in Hin'. inversion Hin'.
Qed.

(** The claim of C2 fails at a concrete input.  Two connections to
    1.2.3.4:9001 appear in one refresh and are stamped by two readings of
    the clock, 100 and 101; the next refresh, which sees the same two
    connections, stamps both with 101. *)
Lemma same_pair_time_changes :
  let w := Scenario.controller
             (Return [Scenario.outbound_line "50000"; Scenario.outbound_line "50001"]) in
  let st1 := fst (reset w Scenario.started) in
  let st2 := fst (reset w st1) in
  snd (reset w Scenario.started) = Return Assigned
  /\ snd (reset w st1) = Return Assigned
  /\ ~ (forall old new,
          old ∈ snapshot st1 -> new ∈ snapshot st2 ->
          CONN_F_IP old = CONN_F_IP new -> CONN_F_PORT old = CONN_F_PORT new ->
          CONN_TIME new = CONN_TIME old).
Proof.
  intros w st1 st2.
  split; [vm_compute; reflexivity|]. split; [vm_compute; reflexivity|].
  intros H.
  assert (H1 : snapshot st1
               = [mkConn outbound "10.0.0.5" "50000" "1.2.3.4" "9001" "??" 100;
                  mkConn outbound "10.0.0.5" "50001" "1.2.3.4" "9001" "??" 101])
    by (vm_compute; reflexivity).
  assert (H2 : snapshot st2
               = [mkConn outbound "10.0.0.5" "50000" "1.2.3.4" "9001" "??" 101;
                  mkConn outbound "10.0.0.5" "50001" "1.2.3.4" "9001" "??" 101])
    by (vm_compute; reflexivity).
  specialize (H (mkConn outbound "10.0.0.5" "50000" "1.2.3.4" "9001" "??" 100)
                (mkConn outbound "10.0.0.5" "50000" "1.2.3.4" "9001" "??" 101)).
  rewrite H1, H2 in H. clearbody st1 st2. clear H1 H2.
  specialize (H ltac:(left) ltac:(left) eq_refl eq_refl).
  simpl in H. lia.
Qed.

(** C2, amended.  After a refresh that assigns its results, every record
    of the new snapshot whose foreign (address, port) pair occurs in the
    previous snapshot carries the timestamp of the last record of the
    previous snapshot with that pair; so the timestamp is carried over
    unchanged whenever the previous records with that pair agree on it, in
    particular when there is one such record.  A record whose pair does not
    occur in the previous snapshot carries a reading of the clock. *)
Theorem reset_carries_times (w : Env) (st st' : ConnPanel) :
  reset w st = (st', Return Assigned) ->
  forall new, new ∈ snapshot st' ->
    (forall old,
       last_with_pair (CONN_F_IP new) (CONN_F_PORT new) (snapshot st) = Some old ->
       CONN_TIME new = CONN_TIME old)
    /\ (forall old t,
          old ∈ snapshot st ->
          CONN_F_IP old = CONN_F_IP new -> CONN_F_PORT old = CONN_F_PORT new ->
          (forall o, o ∈ snapshot st ->
                     CONN_F_IP o = CONN_F_IP new -> CONN_F_PORT o = CONN_F_PORT new ->
                     CONN_TIME o = t) ->
          CONN_TIME new = t)
    /\ ((forall old, old ∈ snapshot st ->
                     ~ (CONN_F_IP old = CONN_F_IP new /\ CONN_F_PORT old = CONN_F_PORT new)) ->
        exists n, CONN_TIME new = time_time w n).
Proof.
  intros Hrun new Hnew.
  pose proof (reset_timed w st) as Hwp. unfold wp in Hwp. rewrite Hrun in Hwp.
  destruct Hwp as [_ Htimed]. specialize (Htimed eq_refl).
  rewrite Forall_forall in Htimed. specialize (Htimed new Hnew).
  unfold timed_by in Htimed. rewrite build_connTimes_last in Htimed.
  destruct (last_with_pair (CONN_F_IP new) (CONN_F_PORT new) (snapshot st))
    as [last_old|] eqn:Hlast; simpl in Htimed.
  - destruct (last_with_pair_elem _ _ _ _ Hlast) as [Hin [Hip Hport]].
    split; [|split].
    + intros old [= <-]. exact Htimed.
    + intros old t _ _ _ Hall. rewrite Htimed. apply Hall; assumption.
    + intros Hfresh. exfalso. apply (Hfresh last_old Hin). auto.
  - split; [|split].
    + intros old Hold. discriminate.
    + intros old t Hin Hip Hport _. exfalso.
      apply (last_with_pair_none _ _ _ old Hlast Hin). auto.
    + intros _. exact Htimed.
Qed.

(** The theorem at the second of two refreshes that see the same two
    connections. *)
Lemma reset_carries_times_witness :
  let w := Scenario.controller
             (Return [Scenario.outbound_line "50000"; Scenario.outbound_line "50001"]) in
  let st1 := fst (reset w Scenario.started) in
  let st2 := fst (reset w st1) in
  let new := mkConn outbound "10.0.0.5" "50000" "1.2.3.4" "9001" "??" 101 in
  reset w st1 = (st2, Return Assigned)
  /\ new ∈ snapshot st2
  /\ (forall old,
        last_with_pair (CONN_F_IP new) (CONN_F_PORT new) (snapshot st1) = Some old ->
        CONN_TIME new = CONN_TIME old)
  /\ (forall old t,
        old ∈ snapshot st1 ->
        CONN_F_IP old = CONN_F_IP new -> CONN_F_PORT old = CONN_F_PORT new ->
        (forall o, o ∈ snapshot st1 ->
                   CONN_F_IP o = CONN_F_IP new -> CONN_F_PORT o = CONN_F_PORT new ->
                   CONN_TIME o = t) ->
        CONN_TIME new = t)
  /\ ((forall old, old ∈ snapshot st1 ->
                   ~ (CONN_F_IP old = CONN_F_IP new /\ CONN_F_PORT old = CONN_F_PORT new)) ->
      exists n, CONN_TIME new = time_time w n).
Proof.
  intros w st1 st2 new.
  assert (Hrun : reset w st1 = (st2, Return Assigned)) by (vm_compute; reflexivity).
  assert (Hsnap : snapshot st2
                  = [new; mkConn outbound "10.0.0.5" "50001" "1.2.3.4" "9001" "??" 101])
    by (vm_compute; reflexivity).
  assert (Hin : new ∈ snapshot st2) by (rewrite Hsnap; left).
  split; [exact Hrun|]. split; [exact Hin|].
  exact (reset_carries_times w st1 st2 Hrun new Hin).
Defined.

(** ** The counters and the snapshot (C1) *)

Lemma count_total_incr (counts : list Z) (i : nat) :
  length counts = 5%nat -> (i < 5)%nat ->
  length (alter (Z.add 1) i counts) = 5%nat
  /\ count_total (alter (Z.add 1) i counts) = count_total counts + 1.
Proof.
  intros Hlen Hi.
  destruct counts as [|a [|b [|c [|d [|e [|f rest]]]]]]; try discriminate.
  destruct i as [|[|[|[|[|i]]]]]; try lia; unfold count_total; simpl; split; lia.
Qed.

Lemma foreign_records_snoc l e :
  foreign_records (l ++ [e])
  = foreign_records l + (if decide (CONN_TYPE e = localhost) then 0 else 1).
Proof.
  unfold foreign_records. rewrite filter_app, length_app, filter_cons, filter_nil.
  destruct (decide (CONN_TYPE e = localhost)) as [Heq|Hne].
  - rewrite decide_False by (intros H; apply H, Heq). simpl. lia.
  - rewrite decide_True by exact Hne. simpl. lia.
Qed.

Lemma foreign_records_perm l l' :
  Permutation l l' -> foreign_records l = foreign_records l'.
Proof. unfold foreign_records. intros ->. reflexivity. Qed.

Lemma counted_snoc acc type counts localIP localPort foreignIP foreignPort country time reads i :
  counted acc -> type <> localhost -> (i < 5)%nat ->
  counts = alter (Z.add 1) i (connectionCountTmp acc) ->
  counted (mkLocals
             (connectionsTmp acc
              ++ [mkConn type localIP localPort foreignIP foreignPort country time])
             counts reads).
Proof.
  intros [Hlen Hsum] Htype Hi ->. unfold counted. simpl.
  destruct (count_total_incr _ i Hlen Hi) as [Hlen' Hsum'].
  split; [exact Hlen'|]. rewrite Hsum', foreign_records_snoc, Hsum. simpl.
  rewrite decide_False by exact Htype. reflexivity.
Qed.

Section Counted.

Variable w : Env.
Variable connTimes : gmap (string * string) Z.

Lemma reset_line_counted line acc s :
  counted acc ->
  wp (reset_line w connTimes line acc) (fun acc' _ => counted acc') (fun _ _ => True) s.
Proof.
  intros Hacc. unfold reset_line.
  destruct (negb (Py.startswith line "tcp")); [wp_step; exact Hacc|].
  apply wp_skip. intros local s1. apply wp_skip. intros foreign s2.
  apply wp_skip. intros st s3. cbv zeta. wp_step.
  eapply wp_mono with (Q := fun classified _ => classified_from acc classified);
    [| |auto].
  - unfold classified_from.
    repeat match goal with
           | |- wp (if ?b then _ else _) _ _ _ => destruct b
           end.
    + wp_step. simpl. split; [discriminate|]. exists 0%nat. split; [lia|reflexivity].
    + wp_step. simpl. split; [discriminate|]. exists 4%nat. split; [lia|reflexivity].
    + apply wp_skip. intros fingerprint s4. apply wp_skip. intros nickname s5.
      apply wp_skip. intros st' s6.
      destruct (clientConnectionCache st') as [clientNames|]; [|wp_step; exact Logic.I].
      repeat match goal with
             | |- wp (if ?b then _ else _) _ _ _ => destruct b
             end; wp_step; simpl; (split; [discriminate|]).
      * exists 2%nat. split; [lia|reflexivity].
      * exists 3%nat. split; [lia|reflexivity].
      * exists 1%nat. split; [lia|reflexivity].
  - intros [type counts] s4 [Htype [i [Hi Hcounts]]]. simpl in Htype, Hcounts.
    apply wp_skip. intros countryCode s5. wp_step. simpl.
    apply (counted_snoc acc type counts _ _ _ _ _ _ _ i); assumption.
Qed.

Lemma add_localhost_counted acc s :
  counted acc ->
  wp (add_localhost w connTimes acc) (fun acc' _ => counted acc') (fun _ _ => True) s.
Proof.
  intros Hacc. unfold add_localhost.
  apply wp_skip. intros [[[selfAddress selfPort] selfFingerprint]|] s1.
  - destruct (Py.truthy selfAddress && Py.truthy selfPort && Py.truthy selfFingerprint).
    + apply wp_skip. intros selfCountryCode s2. wp_step. wp_step. wp_step.
      destruct Hacc as [Hlen Hsum]. unfold counted. simpl. split; [exact Hlen|].
      rewrite foreign_records_snoc, Hsum. simpl. lia.
    + wp_step. wp_step. wp_step. exact Hacc.
  - wp_step. wp_step. wp_step. exact Hacc.
Qed.

End Counted.

(** X8.  On the live path the counters agree with the list: a refresh of
    a panel that is not paused, when it assigns its results, leaves counters
    that add up to the number of records of [connections] other than the
    localhost record. *)
Lemma live_reset_counts_match (w : Env) (st st' : ConnPanel) :
  isPaused st = false ->
  reset w st = (st', Return Assigned) ->
  count_total (connectionCount st') = foreign_records (connections st').
Proof.
  intros Hlive Hrun.
  pose proof (reset_assigns w st counted) as Hwp.
  unfold wp in Hwp. rewrite Hrun in Hwp.
  destruct Hwp as [_ Hassigned].
  - split; reflexivity.
  - intros line acc s. apply reset_line_counted.
  - intros acc s. apply add_localhost_counted.
  - destruct (Hassigned eq_refl) as [acc [[_ Hsum] Hs']].
    unfold assigned in Hs'. rewrite Hlive in Hs'. destruct Hs' as [Hperm ->].
    rewrite Hsum. symmetry. apply foreign_records_perm, Hperm.
Qed.

(** C1 fails on the code.  The panel is paused with an empty list, a
    refresh buffers one inbound connection, and the panel is resumed:
    [setPaused(False)] copies the buffer into [connections] and leaves
    [connectionCount] as it was before the pause. *)
Theorem resume_leaves_stale_counts :
  let w := Scenario.controller (Return [Scenario.inbound_line]) in
  let paused := fst (setPaused w true Scenario.started) in
  let resumed := fst (setPaused w false (fst (reset w paused))) in
  snd (reset w paused) = Return Assigned
  /\ foreign_records (connections resumed) = 1
  /\ count_total (connectionCount resumed) = 0.
Proof. vm_compute. auto. Qed.

(** * Further properties of the code *)

(** ** Sort labels *)

(** X1.  [getSortType] inverts [getSortLabel] without colours, and
    the other way round: a label is the label of sort type [t] exactly when
    [t] is the sort type of the label. *)
Theorem sort_label_round_trip (sortType : Z) (label : string) :
  getSortLabel sortType false = Return label <-> getSortType label = Return sortType.
Proof.
  unfold getSortLabel, getSortType, SORT_LABELS. simpl. split.
  - repeat match goal with
           | |- (if ?t =? ?n then _ else _) = _ -> _ =>
               let E := fresh in
               destruct (t =? n) eqn:E;
               [apply Z.eqb_eq in E; subst; intros [= <-]; reflexivity|]
           end.
    discriminate.
  - repeat match goal with
           | |- (if String.eqb ?l ?n then _ else _) = _ -> _ =>
               let E := fresh in
               destruct (String.eqb l n) eqn:E;
               [apply String.eqb_eq in E; subst; intros [= <-]; reflexivity|]
           end.
    discriminate.
Qed.

(** X2.  [getSortLabel] raises [ValueError] exactly for the numbers
    outside 0..8, with or without colours, and a label with colour markup is
    never accepted by [getSortType], which raises [ValueError] for it. *)
Theorem sort_label_errors (sortType : Z) (withColor : bool) :
  (getSortLabel sortType withColor = Raise ValueError <-> ~ (0 <= sortType <= 8))
  /\ (forall label, getSortLabel sortType true = Return label ->
                    getSortType label = Raise ValueError).
Proof.
  unfold getSortLabel, getSortType, SORT_LABELS. simpl. split; [split|].
  - repeat match goal with
           | |- (if ?t =? ?n then _ else _) = _ -> _ =>
               let E := fresh in
               destruct (t =? n) eqn:E;
               [destruct withColor; discriminate | apply Z.eqb_neq in E]
           end.
    intros _. lia.
  - intros Hout.
    repeat match goal with
           | |- (if ?t =? ?n then _ else _) = _ =>
               let E := fresh in
               destruct (t =? n) eqn:E; [apply Z.eqb_eq in E; lia|]
           end.
    reflexivity.
  - intros label.
    repeat match goal with
           | |- (if ?t =? ?n then _ else _) = _ -> _ =>
               let E := fresh in
               destruct (t =? n) eqn:E; [intros [= <-]; reflexivity|]
           end.
    discriminate.
Qed.

(** ** The chain of comparisons *)

(** X3.  When the comparison functions of a non-empty list [sorts]
    return the values [values] for two records without touching the panel,
    [_multisort] returns the first value that is not zero, and zero exactly
    when every comparison ties; for an empty list it raises
    [IndexError]. *)
Theorem multisort_first_nonzero (x y : conn_entry)
    (sorts : list (conn_entry -> conn_entry -> M Z)) (values : list Z) :
  sorts <> [] ->
  Forall2 (fun f v => forall s, f x y s = (s, Return v)) sorts values ->
  forall s,
    _multisort x y sorts s = (s, Return (first_nonzero values))
    /\ (first_nonzero values = 0 <-> Forall (fun v => v = 0) values)
    /\ _multisort x y [] s = (s, Raise IndexError).
Proof.
  intros Hne Hall s. split; [|split; [|reflexivity]].
  - revert Hne. induction Hall as [|f v sorts values Hf Hrest IH]; intros Hne;
      [now destruct Hne|].
    simpl. unfold bind. rewrite Hf.
    destruct (v =? 0) eqn:Hv; simpl.
    + apply Z.eqb_eq in Hv. subst v.
      destruct Hrest as [|g u sorts values Hg Hrest].
      * reflexivity.
      * apply IH. discriminate.
    + reflexivity.
  - clear Hne Hall. induction values as [|v values IH]; simpl.
    + split; [constructor | reflexivity].
    + destruct (v =? 0) eqn:Hv.
      * apply Z.eqb_eq in Hv. subst v. rewrite IH. split.
        -- intros H. constructor; [reflexivity | exact H].
        -- intros H. inversion H. assumption.
      * apply Z.eqb_neq in Hv. split; [intros H; contradiction|].
        intros H. inversion H. contradiction.
Qed.

(** The theorem at the ordering [[ORD_TYPE; ORD_TIME]] and two outbound
    records first seen at 10 and at 20: the types tie and the times
    decide. *)
Lemma multisort_first_nonzero_witness :
  let w := Scenario.controller (Return []) in
  let x := Scenario.record "1.1.1.1" 10 in
  let y := Scenario.record "2.2.2.2" 20 in
  _multisort x y (map (sort_function w LIST_IP) [ORD_TYPE; ORD_TIME]) Scenario.started
  = (Scenario.started, Return (first_nonzero [0; 1]))
  /\ (first_nonzero [0; 1] = 0 <-> Forall (fun v => v = 0) [0; 1])
  /\ _multisort x y [] Scenario.started = (Scenario.started, Raise IndexError).
Proof.
  intros w x y.
  apply (multisort_first_nonzero x y (map (sort_function w LIST_IP) [ORD_TYPE; ORD_TIME])
           [0; 1]).
  - discriminate.
  - repeat constructor.
Defined.

(** ** What a sort changes *)

(** X4.  When [sortConnections] returns, [connections] holds the
    same records as before, in some order, and the counters, the buffer,
    the pause flag, the identity index, the localhost entry and the log are
    as they were. *)
Theorem sortConnections_rearranges (w : Env) (st st' : ConnPanel) :
  sortConnections w st = (st', Return tt) ->
  Permutation (connections st') (connections st)
  /\ connectionCount st' = connectionCount st
  /\ connectionsBuffer st' = connectionsBuffer st
  /\ isPaused st' = isPaused st
  /\ fingerprintMappings st' = fingerprintMappings st
  /\ localhostEntry st' = localhostEntry st
  /\ logged st' = logged st.
Proof.
  intros Hrun.
  pose proof (sortConnections_perm w st) as Hperm.
  unfold wp in Hperm. rewrite Hrun in Hperm. split; [exact Hperm|].
  pose (I := fun s => connectionCount s = connectionCount st
                      /\ connectionsBuffer s = connectionsBuffer st
                      /\ isPaused s = isPaused st
                      /\ fingerprintMappings s = fingerprintMappings st
                      /\ localhostEntry s = localhostEntry st
                      /\ logged s = logged st).
  assert (HI : I (fst (sortConnections w st))).
  { apply keeps_fst; [|unfold I; auto 10].
    apply keeps_sortConnections; [stable | intros v s H; exact H]. }
  rewrite Hrun in HI. exact HI.
Qed.

(** The theorem at the default ordering and two records. *)
Lemma sortConnections_rearranges_witness :
  let w := Scenario.controller (Return []) in
  let st := set_connections [Scenario.record "2.2.2.2" 20; Scenario.record "1.1.1.1" 10]
              Scenario.started in
  let st' := fst (sortConnections w st) in
  sortConnections w st = (st', Return tt)
  /\ Permutation (connections st') (connections st)
  /\ connectionCount st' = connectionCount st
  /\ connectionsBuffer st' = connectionsBuffer st
  /\ isPaused st' = isPaused st
  /\ fingerprintMappings st' = fingerprintMappings st
  /\ localhostEntry st' = localhostEntry st
  /\ logged st' = logged st.
Proof.
  intros w st st'.
  assert (Hrun : sortConnections w st = (st', Return tt)) by (vm_compute; reflexivity).
  split; [exact Hrun|].
  exact (sortConnections_rearranges w st st' Hrun).
Defined.

(** ** Pause and resume *)

(** X7.  Pausing a live panel and resuming it with no refresh in
    between leaves [connections] and the counters as they were; in between
    the buffer is a copy of the live list and the pause time is the clock
    reading of the pause. *)
Theorem pause_resume_round_trip (w1 w2 : Env) (st : ConnPanel) :
  isPaused st = false ->
  let paused := fst (setPaused w1 true st) in
  let resumed := fst (setPaused w2 false paused) in
  isPaused paused = true
  /\ connectionsBuffer paused = connections st
  /\ pauseTime paused = time_time w1 0
  /\ isPaused resumed = false
  /\ connections resumed = connections st
  /\ connectionCount resumed = connectionCount st.
Proof.
  intros Hlive. unfold setPaused, bind, get, modify. rewrite Hlive. simpl. auto 10.
Qed.

(** The theorem at the started panel. *)
Lemma pause_resume_round_trip_witness :
  let w := Scenario.controller (Return []) in
  let paused := fst (setPaused w true Scenario.started) in
  let resumed := fst (setPaused w false paused) in
  isPaused paused = true
  /\ connectionsBuffer paused = connections Scenario.started
  /\ pauseTime paused = time_time w 0
  /\ isPaused resumed = false
  /\ connections resumed = connections Scenario.started
  /\ connectionCount resumed = connectionCount Scenario.started.
Proof.
  intros w.
  apply (pause_resume_round_trip w w Scenario.started). reflexivity.
Defined.

(** ** The counters after a live refresh *)

(** The lemma [live_reset_counts_match] at a refresh of the started panel
    that sees one inbound and one outbound connection. *)
Lemma live_reset_counts_match_witness :
  let w := Scenario.controller
             (Return [Scenario.inbound_line; Scenario.outbound_line "50000"]) in
  let st' := fst (reset w Scenario.started) in
  isPaused Scenario.started = false
  /\ reset w Scenario.started = (st', Return Assigned)
  /\ count_total (connectionCount st') = foreign_records (connections st').
Proof.
  intros w st'.
  assert (Hrun : reset w Scenario.started = (st', Return Assigned))
    by (vm_compute; reflexivity).
  split; [reflexivity|]. split; [exact Hrun|].
  exact (live_reset_counts_match w Scenario.started st' eq_refl Hrun).
Defined.


(** ** Cursor and scroll *)

Lemma index_of_lookup (x : conn_entry) (l : list conn_entry) (i : Z) :
  index_of x l = Some i ->
  0 <= i < Z.of_nat (length l) /\ l !! Z.to_nat i = Some x.
Proof.
  revert i. induction l as [|y rest IH]; intros i; simpl; [discriminate|].
  destruct (decide (x = y)) as [->|Hne].
  - intros [= <-]. split; [lia | reflexivity].
  - destruct (index_of x rest) as [j|]; [|discriminate].
    intros [= <-]. destruct (IH j eq_refl) as [Hj Hlook].
    split; [lia|]. rewrite Z2Nat.inj_succ by lia. exact Hlook.
Qed.


Lemma lookup_in_range (l : list conn_entry) (i : Z) :
  0 <= i < Z.of_nat (length l) -> exists e, l !! Z.to_nat i = Some e.
Proof.
  intros Hi. apply lookup_lt_is_Some. lia.
Qed.















(** X25.  For a non-empty list the bounds code of [redraw] never
    raises [IndexError]; afterwards the cursor location is a position of the
    list and the scroll position is not negative.  With the cursor enabled
    the selection is the record at the cursor location, a selection that is
    still in the list is kept, and when the page has at least one line the
    cursor line lies within the page that starts at the scroll position. *)
Theorem redraw_bounds_cursor_visible (conns : list conn_entry) (nav : Navigation) :
  conns <> [] ->
  exists nav',
    redraw_bounds conns nav = Return nav'
    /\ 0 <= cursorLoc nav' < Z.of_nat (length conns)
    /\ 0 <= scroll nav'
    /\ (isCursorEnabled nav = true ->
        conns !! Z.to_nat (cursorLoc nav') = cursorSelection nav'
        /\ (selection_index (cursorSelection nav) conns <> None ->
            cursorSelection nav' = cursorSelection nav)
        /\ (1 <= page_height nav ->
            scroll nav' <= cursorLoc nav' <= scroll nav' + page_height nav - 1)).
Proof.
  intros Hne. unfold redraw_bounds, page_height.
  destruct conns as [|c rest]; [congruence|].
  set (conns := c :: rest). cbv zeta.
  set (h := if showingDetails nav then maxY nav - 1 - 8 else maxY nav - 1).
  set (loc := Z.max (Z.min (cursorLoc nav) (Z.of_nat (length conns) - 1)) 0).
  set (top := Z.max (Z.min (scroll nav) (Z.of_nat (length conns) - h)) 0).
  assert (Hlen : 0 < Z.of_nat (length conns)) by (subst conns; simpl; lia).
  assert (Hloc : 0 <= loc < Z.of_nat (length conns)) by (subst loc; lia).
  assert (Htop : 0 <= top) by (subst top; lia).
  destruct (isCursorEnabled nav) eqn:Hcursor.
  - destruct (selection_index (cursorSelection nav) conns) as [i|] eqn:Hsel.
    + assert (Hi : 0 <= i < Z.of_nat (length conns)
                   /\ conns !! Z.to_nat i = cursorSelection nav).
      { destruct (cursorSelection nav) as [x|]; [|discriminate].
        exact (index_of_lookup x conns i Hsel). }
      destruct Hi as [Hi Hlook].
      eexists. split; [reflexivity|]. simpl.
      split; [exact Hi|]. split.
      * destruct (i <? top) eqn:E1; [lia|].
        destruct (top <? i - h + 1) eqn:E2; lia.
      * intros _. split; [exact Hlook|]. split; [reflexivity|].
        intros Hh. destruct (i <? top) eqn:E1; [lia|].
        apply Z.ltb_ge in E1.
        destruct (top <? i - h + 1) eqn:E2; [lia|].
        apply Z.ltb_ge in E2. lia.
    + destruct (lookup_in_range conns loc Hloc) as [e He]. rewrite He.
      eexists. split; [reflexivity|]. simpl.
      split; [exact Hloc|]. split.
      * destruct (loc <? top) eqn:E1; [lia|].
        destruct (top <? loc - h + 1) eqn:E2; lia.
      * intros _. split; [exact He|]. split; [congruence|].
        intros Hh. destruct (loc <? top) eqn:E1; [lia|].
        apply Z.ltb_ge in E1.
        destruct (top <? loc - h + 1) eqn:E2; [lia|].
        apply Z.ltb_ge in E2. lia.
  - eexists. split; [reflexivity|]. simpl.
    split; [exact Hloc|]. split; [exact Htop|]. discriminate.
Qed.

(** The theorem at a list of two records whose selection has gone and whose
    cursor location lies behind the end. *)
Lemma redraw_bounds_cursor_visible_witness :
  let conns := [Scenario.record "1.1.1.1" 10; Scenario.record "2.2.2.2" 20] in
  let nav := mkNav true (Some (Scenario.record "3.3.3.3" 5)) 7 0 false 20 true in
  conns <> []
  /\ exists nav',
       redraw_bounds conns nav = Return nav'
       /\ 0 <= cursorLoc nav' < Z.of_nat (length conns)
       /\ 0 <= scroll nav'
       /\ (isCursorEnabled nav = true ->
           conns !! Z.to_nat (cursorLoc nav') = cursorSelection nav'
           /\ (selection_index (cursorSelection nav) conns <> None ->
               cursorSelection nav' = cursorSelection nav)
           /\ (1 <= page_height nav ->
               scroll nav' <= cursorLoc nav' <= scroll nav' + page_height nav - 1)).
Proof.
  intros conns nav.
  assert (Hne : conns <> []) by discriminate.
  split; [exact Hne|].
  exact (redraw_bounds_cursor_visible conns nav Hne).
Defined.

(** ** Properties that a refresh keeps *)

Lemma keeps_anything {A} (m : M A) : keeps (fun _ => True) m.
Proof. intros s _. apply wp_true. Qed.

Lemma keeps_and {A} (I1 I2 : ConnPanel -> Prop) (m : M A) :
  keeps I1 m -> keeps I2 m -> keeps (fun s => I1 s /\ I2 s) m.
Proof.
  intros H1 H2 s [Hs1 Hs2].
  eapply wp_mono; [apply wp_conj; [apply H1, Hs1 | apply H2, Hs2] | auto | auto].
Qed.

(** The steps of [reset] up to the assignment of its results keep a
    property [P] of the panel that the two resolvers keep and that survives
    the updates those steps make; the locals keep [J]. *)
Section ResetSteps.

Variable w : Env.
Variable P : ConnPanel -> Prop.
Variable J : reset_locals -> Prop.

Hypothesis P_getFingerprint : forall ip port, keeps P (getFingerprint w ip port).
Hypothesis P_getNickname : forall ip port, keeps P (getNickname w ip port).
Hypothesis P_localhostEntry : forall v s, P s -> P (set_localhostEntry v s).
Hypothesis P_clients : forall clients s,
  P s -> clientConnectionCache s = None -> P (set_clientConnectionCache (Some clients) s).
Hypothesis P_netstat : forall s, P s -> P (set_logged (logged s ++ [netstat_warning]) s).
Hypothesis P_geoip : forall s,
  P s -> providedGeoipWarning s = false ->
  P (set_providedGeoipWarning true (set_logged (logged s ++ [geoip_warning]) s)).

Hypothesis J_start : J (mkLocals [] [0; 0; 0; 0; 0] 0).
Hypothesis J_line : forall connTimes line acc s,
  P s -> J acc ->
  wp (reset_line w connTimes line acc) (fun acc' _ => J acc') (fun _ _ => True) s.
Hypothesis J_localhost : forall connTimes acc s,
  P s -> J acc ->
  wp (add_localhost w connTimes acc) (fun acc' _ => J acc') (fun _ _ => True) s.

Lemma keeps_geoip_handler :
  keeps P (st <- get ;;
           (if providedGeoipWarning st then ret tt
            else
              monitor_event "WARN" "Tor geoip database is unavailable." ;;
              modify (set_providedGeoipWarning true)) ;;
           ret "??").
Proof.
  intros s Hs. wp_step. wp_step. wp_step.
  destruct (providedGeoipWarning s) eqn:Hflag.
  - wp_steps. exact Hs.
  - wp_steps. apply (P_geoip s Hs Hflag).
Qed.

Lemma keeps_reset_line_steps connTimes line acc : keeps P (reset_line w connTimes line acc).
Proof.
  unfold reset_line.
  destruct (negb (Py.startswith line "tcp")); [apply keeps_ret|].
  apply keeps_bind; [apply keeps_index | intros local].
  apply keeps_bind; [apply keeps_index | intros foreign]. cbv zeta.
  apply keeps_bind; [apply keeps_get | intros st].
  apply keeps_bind; [keeps_split; auto | intros classified].
  apply keeps_bind; [|intros countryCode; apply keeps_ret].
  apply keeps_try_except; [apply keeps_call | apply keeps_geoip_handler].
Qed.

Lemma keeps_add_localhost_steps connTimes acc : keeps P (add_localhost w connTimes acc).
Proof.
  pose proof (keeps_self_descriptor w P).
  unfold add_localhost. keeps_split; auto.
Qed.

Lemma reset_clients_steps s :
  P s ->
  wp (if bool_decide (clientConnectionCache s = None) && negb (isPaused s) then
        clients <- _getClientConnections w ;;
        modify (set_clientConnectionCache (Some clients))
      else ret tt)
     (fun _ => P) (fun _ => P) s.
Proof.
  intros Hs.
  destruct (bool_decide (clientConnectionCache s = None)) eqn:Hnone; [|exact Hs].
  apply bool_decide_eq_true_1 in Hnone.
  destruct (negb (isPaused s)); [|exact Hs]. simpl andb. cbv iota.
  unfold _getClientConnections. wp_step. wp_step. wp_step. wp_step.
  destruct (get_info w "circuit-status") as [status|e].
  - wp_steps. apply P_clients; assumption.
  - destruct e; try exact Hs; wp_steps; apply P_clients; assumption.
Qed.

Lemma reset_read_steps connTimes s :
  P s ->
  wp (try_except
        (results <- call (readlines w) ;;
         acc <- for_each results (reset_line w connTimes) (mkLocals [] [0; 0; 0; 0; 0] 0) ;;
         ret (Some acc))
        (is_IOError w)
        (monitor_event "WARN" "Unable to query netstat for new connections" ;;
         ret None))
     (fun read s' => P s' /\ match read with Some acc => J acc | None => True end)
     (fun _ => P) s.
Proof.
  intros Hs. rewrite wp_try_except. rewrite wp_bind, wp_call.
  assert (Hexn : forall e s', P s' ->
             if is_IOError w e
             then wp (monitor_event "WARN" "Unable to query netstat for new connections" ;;
                      ret None)
                     (fun read s' =>
                        P s' /\ match read with Some acc => J acc | None => True end)
                     (fun _ => P) s'
             else P s').
  { intros e s' Hs'. destruct (is_IOError w e); [|exact Hs']. wp_steps.
    split; [apply P_netstat, Hs' | exact Logic.I]. }
  destruct (readlines w) as [results|e]; [|apply Hexn, Hs].
  rewrite wp_bind.
  eapply wp_mono.
  - apply (wp_for_each (reset_line w connTimes) (fun acc s' => P s' /\ J acc) (fun _ => P)).
    + intros line acc s0 _ [Hs0 Hacc].
      eapply wp_mono.
      * apply wp_conj;
          [apply keeps_reset_line_steps, Hs0 | apply (J_line connTimes line acc s0 Hs0 Hacc)].
      * intros acc' s' [H1 H2]. split; assumption.
      * intros e s' [H1 _]. exact H1.
    + split; [exact Hs | exact J_start].
  - intros acc s' [Hs' Hacc]. wp_step. split; assumption.
  - intros e s' Hs'. apply Hexn, Hs'.
Qed.

Lemma add_localhost_steps connTimes acc s :
  P s -> J acc ->
  wp (add_localhost w connTimes acc) (fun acc' s' => P s' /\ J acc') (fun _ => P) s.
Proof.
  intros Hs Hacc. eapply wp_mono.
  - apply wp_conj;
      [apply keeps_add_localhost_steps, Hs | apply (J_localhost connTimes acc s Hs Hacc)].
  - intros acc' s' [H1 H2]. split; assumption.
  - intros e s' [H1 _]. exact H1.
Qed.

End ResetSteps.

(** A refresh keeps a property [I] of the panel that also survives the
    assignment of the results, and the locals it assigns satisfy [J]. *)
Section ResetInvariant.

Variable w : Env.
Variable I : ConnPanel -> Prop.
Variable J : reset_locals -> Prop.

Hypothesis I_getFingerprint : forall ip port, keeps I (getFingerprint w ip port).
Hypothesis I_getNickname : forall ip port, keeps I (getNickname w ip port).
Hypothesis I_sortConnections : keeps I (sortConnections w).
Hypothesis I_localhostEntry : forall v s, I s -> I (set_localhostEntry v s).
Hypothesis I_lastUpdate : forall v s, I s -> I (set_lastUpdate v s).
Hypothesis I_connections : forall v s, I s -> I (set_connections v s).
Hypothesis I_connectionsBuffer : forall v s, I s -> I (set_connectionsBuffer v s).
Hypothesis I_connectionCount : forall v s, I s -> I (set_connectionCount v s).
Hypothesis I_clients : forall clients s,
  I s -> clientConnectionCache s = None -> I (set_clientConnectionCache (Some clients) s).
Hypothesis I_netstat : forall s, I s -> I (set_logged (logged s ++ [netstat_warning]) s).
Hypothesis I_geoip : forall s,
  I s -> providedGeoipWarning s = false ->
  I (set_providedGeoipWarning true (set_logged (logged s ++ [geoip_warning]) s)).

Hypothesis J_start : J (mkLocals [] [0; 0; 0; 0; 0] 0).
Hypothesis J_line : forall connTimes line acc s,
  I s -> J acc ->
  wp (reset_line w connTimes line acc) (fun acc' _ => J acc') (fun _ _ => True) s.
Hypothesis J_localhost : forall connTimes acc s,
  I s -> J acc ->
  wp (add_localhost w connTimes acc) (fun acc' _ => J acc') (fun _ _ => True) s.

Lemma reset_invariant st :
  I st ->
  wp (reset w)
     (fun exit s' =>
        I s' /\ isPaused s' = isPaused st
        /\ (exit = Assigned -> exists acc, J acc /\ assigned st s' acc))
     (fun _ => I) st.
Proof.
  intros HI0.
  pose (P := fun s => I s /\ same_snapshot st s).
  assert (H0 : P st) by (split; [exact HI0 | repeat split]).
  assert (P_getFingerprint : forall ip port, keeps P (getFingerprint w ip port)).
  { intros ip port. apply keeps_and; [apply I_getFingerprint|].
    apply keeps_getFingerprint. stable. }
  assert (P_getNickname : forall ip port, keeps P (getNickname w ip port)).
  { intros ip port. apply keeps_and; [apply I_getNickname|].
    apply keeps_getNickname. stable. }
  assert (P_localhostEntry : forall v s, P s -> P (set_localhostEntry v s)).
  { intros v s [H1 H2]. split; [auto | exact H2]. }
  assert (P_clients : forall clients s,
             P s -> clientConnectionCache s = None ->
             P (set_clientConnectionCache (Some clients) s)).
  { intros clients s [H1 H2] Hnone. split; [auto | exact H2]. }
  assert (P_netstat : forall s, P s -> P (set_logged (logged s ++ [netstat_warning]) s)).
  { intros s [H1 H2]. split; [auto | exact H2]. }
  assert (P_geoip : forall s,
             P s -> providedGeoipWarning s = false ->
             P (set_providedGeoipWarning true (set_logged (logged s ++ [geoip_warning]) s))).
  { intros s [H1 H2] Hflag. split; [auto | exact H2]. }
  assert (PJ_line : forall connTimes line acc s,
             P s -> J acc ->
             wp (reset_line w connTimes line acc) (fun acc' _ => J acc') (fun _ _ => True) s).
  { intros connTimes line acc s [H1 _]. apply J_line, H1. }
  assert (PJ_localhost : forall connTimes acc s,
             P s -> J acc ->
             wp (add_localhost w connTimes acc) (fun acc' _ => J acc') (fun _ _ => True) s).
  { intros connTimes acc s [H1 _]. apply J_localhost, H1. }
  unfold reset. wp_step. wp_step.
  destruct (negb (truthy_opt (pid st))).
  { wp_step. split; [exact HI0|]. split; [reflexivity | discriminate]. }
  wp_step.
  eapply wp_mono; [apply (reset_clients_steps w P P_clients st H0) | | intros e s' [H _]; exact H].
  intros u s1 H1. cbv beta in H1. clear u. wp_step. wp_step. cbv zeta.
  wp_step.
  eapply wp_mono;
    [apply (reset_read_steps w P J P_getFingerprint P_getNickname P_netstat P_geoip
              J_start PJ_line _ s1 H1)
    | | intros e s' [H _]; exact H].
  intros [acc|] s2 [H2 Hacc]; cbv beta in *.
  2: { wp_step. destruct H2 as [HI2 [Hp _]]. split; [exact HI2|].
       split; [exact Hp | discriminate]. }
  wp_step.
  eapply wp_mono;
    [apply (add_localhost_steps w P J P_localhostEntry PJ_localhost _ acc s2 H2 Hacc)
    | | intros e s' [H _]; exact H].
  intros acc' s3 [[HI3 H3] Hacc']. cbv beta in *.
  wp_step. wp_step. wp_step. wp_step. wp_step.
  destruct H3 as [Hp [Hc [Hb Hn]]].
  change (isPaused (set_lastUpdate (time_time w (clockReads acc')) s3)) with (isPaused s3).
  unfold assigned. rewrite <- Hp.
  assert (HI4 : I (set_lastUpdate (time_time w (clockReads acc')) s3)) by auto.
  destruct (isPaused s3) eqn:Hpaused.
  - wp_step. wp_step. split; [auto|]. split; [exact Hpaused|].
    intros _. exists acc'. split; [exact Hacc'|]. simpl. auto.
  - wp_step. wp_step. wp_step. wp_step.
    match goal with |- wp _ _ _ ?s => set (s4 := s) end.
    assert (HIs4 : I s4) by (subst s4; auto).
    match goal with |- context [bool_decide ?Q] => destruct (bool_decide Q) end.
    + pose (I4 := fun s => isPaused s = false
                           /\ connectionCount s = connectionCountTmp acc').
      assert (H4 : I s4 /\ I4 s4)
        by (split; [exact HIs4 | split; [exact Hpaused | reflexivity]]).
      assert (Hc4 : connections s4 = connectionsTmp acc') by reflexivity.
      eapply wp_mono.
      { apply wp_conj.
        - apply (keeps_and I I4); [exact I_sortConnections | | exact H4].
          apply keeps_sortConnections; [stable | intros v s H; exact H].
        - apply sortConnections_perm. }
      2: { intros e s' [[G1 _] _]. exact G1. }
      intros _ s5 [[HI5 [Hp5 Hn5]] Hperm]. cbv beta in *. wp_step.
      split; [exact HI5|]. split; [exact Hp5|]. intros _. exists acc'.
      split; [exact Hacc'|]. split; [rewrite <- Hc4; exact Hperm | exact Hn5].
    + wp_step. wp_step. split; [exact HIs4|]. split; [exact Hpaused|].
      intros _. exists acc'. split; [exact Hacc'|]. split; reflexivity.
Qed.

End ResetInvariant.


Lemma refreshes_keep (I : ConnPanel -> Prop) :
  (forall w, keeps I (reset w)) ->
  forall ticks s, I s -> I (refreshes ticks s).
Proof.
  intros Hkeep ticks. unfold refreshes.
  induction ticks as [|w ticks IH]; intros s Hs; simpl; [exact Hs|].
  apply IH. apply keeps_fst; [apply Hkeep | exact Hs].
Qed.

(** A refresh keeps a property that the resolvers and the sort keep and
    that survives every other write it can make. *)
Lemma keeps_reset_steps (w : Env) (I : ConnPanel -> Prop) :
  (forall ip port, keeps I (getFingerprint w ip port)) ->
  (forall ip port, keeps I (getNickname w ip port)) ->
  keeps I (sortConnections w) ->
  (forall v s, I s -> I (set_localhostEntry v s)) ->
  (forall v s, I s -> I (set_lastUpdate v s)) ->
  (forall v s, I s -> I (set_connections v s)) ->
  (forall v s, I s -> I (set_connectionsBuffer v s)) ->
  (forall v s, I s -> I (set_connectionCount v s)) ->
  (forall clients s,
     I s -> clientConnectionCache s = None -> I (set_clientConnectionCache (Some clients) s)) ->
  (forall s, I s -> I (set_logged (logged s ++ [netstat_warning]) s)) ->
  (forall s, I s -> providedGeoipWarning s = false ->
             I (set_providedGeoipWarning true (set_logged (logged s ++ [geoip_warning]) s))) ->
  keeps I (reset w).
Proof.
  intros Hf Hn Hs H2 H3 H4 H5 H6 H7 H8 H9 s HI.
  eapply wp_mono.
  - apply (reset_invariant w I (fun _ => True) Hf Hn Hs H2 H3 H4 H5 H6 H7 H8 H9 Logic.I);
      [| |exact HI].
    + intros connTimes line acc s0 _ _.
      eapply wp_mono; [apply wp_true | auto | auto].
    + intros connTimes acc s0 _ _.
      eapply wp_mono; [apply wp_true | auto | auto].
  - intros exit s' [H _]. exact H.
  - auto.
Qed.

(** A refresh keeps a property that survives every write it can make. *)
Lemma keeps_reset (w : Env) (I : ConnPanel -> Prop) :
  resolver_stable I ->
  (forall v s, I s -> I (set_localhostEntry v s)) ->
  (forall v s, I s -> I (set_lastUpdate v s)) ->
  (forall v s, I s -> I (set_connections v s)) ->
  (forall v s, I s -> I (set_connectionsBuffer v s)) ->
  (forall v s, I s -> I (set_connectionCount v s)) ->
  (forall clients s,
     I s -> clientConnectionCache s = None -> I (set_clientConnectionCache (Some clients) s)) ->
  (forall s, I s -> I (set_logged (logged s ++ [netstat_warning]) s)) ->
  (forall s, I s -> providedGeoipWarning s = false ->
             I (set_providedGeoipWarning true (set_logged (logged s ++ [geoip_warning]) s))) ->
  keeps I (reset w).
Proof.
  intros H1 H2 H3 H4 H5 H6 H7 H8 H9.
  apply keeps_reset_steps; try assumption.
  - intros ip port. apply keeps_getFingerprint, H1.
  - intros ip port. apply keeps_getNickname, H1.
  - apply keeps_sortConnections; assumption.
Qed.

(** ** The geoip warning *)

Lemma geoip_warnings_other (s : ConnPanel) (entry : string * string) :
  entry <> geoip_warning ->
  geoip_warnings (set_logged (logged s ++ [entry]) s) = geoip_warnings s.
Proof.
  intros Hne. unfold geoip_warnings.
  change (logged (set_logged (logged s ++ [entry]) s)) with (logged s ++ [entry]).
  rewrite filter_app, length_app, filter_cons_False by exact Hne.
  rewrite filter_nil. simpl. lia.
Qed.

Lemma geoip_warnings_logged (s : ConnPanel) :
  geoip_warnings (set_providedGeoipWarning true (set_logged (logged s ++ [geoip_warning]) s))
  = geoip_warnings s + 1.
Proof.
  unfold geoip_warnings.
  change (logged (set_providedGeoipWarning true (set_logged (logged s ++ [geoip_warning]) s)))
    with (logged s ++ [geoip_warning]).
  rewrite filter_app, length_app, filter_cons_True by reflexivity.
  rewrite filter_nil. simpl. lia.
Qed.

(** X11.  Over any series of refreshes the geoip warning
    is logged at most once more, whatever the netstat output and however
    often the country lookup fails, and not at all when the panel has
    already given it. *)
Theorem geoip_warning_logged_at_most_once (ticks : list Env) (st : ConnPanel) :
  let s' := refreshes ticks st in
  geoip_warnings st <= geoip_warnings s' <= geoip_warnings st + 1
  /\ (providedGeoipWarning st = true ->
      geoip_warnings s' = geoip_warnings st /\ providedGeoipWarning s' = true)
  /\ (geoip_warnings st < geoip_warnings s' -> providedGeoipWarning s' = true).
Proof.
  intros s'.
  assert (Hnetstat : netstat_warning <> geoip_warning) by discriminate.
  pose (n := geoip_warnings st).
  pose (G := fun s => n <= geoip_warnings s <= n + 1
                      /\ (providedGeoipWarning s = false -> geoip_warnings s = n)).
  pose (W := fun s => providedGeoipWarning s = true /\ geoip_warnings s = n).
  assert (HG : G s').
  { apply refreshes_keep; [|subst G n; simpl; split; [lia | reflexivity]].
    intros w. apply keeps_reset; try (stable; fail).
    - intros v s H _. exact H.
    - intros s [H1 H2]. unfold G. rewrite geoip_warnings_other by exact Hnetstat.
      split; [exact H1 | exact H2].
    - intros s [H1 H2] Hflag. unfold G. rewrite geoip_warnings_logged.
      rewrite (H2 Hflag). split; [lia | discriminate]. }
  destruct HG as [Hrange Hflag]. split; [exact Hrange|]. split.
  - intros Hwarned.
    assert (HW : W s').
    { apply refreshes_keep; [|split; [exact Hwarned | reflexivity]].
      intros w. apply keeps_reset; try (stable; fail).
      - intros v s H _. exact H.
      - intros s [H1 H2]. unfold W. rewrite geoip_warnings_other by exact Hnetstat.
        split; [exact H1 | exact H2].
      - intros s [H1 H2] Hflag'. rewrite H1 in Hflag'. discriminate. }
    destruct HW as [H1 H2]. split; [exact H2 | exact H1].
  - intros Hmore. destruct (providedGeoipWarning s') eqn:E; [reflexivity|].
    specialize (Hflag eq_refl). fold n in Hmore. lia.
Qed.

(** ** The client cache *)



(** ** The category of a record *)

Lemma keeps_same_ports_reset (w : Env) (st : ConnPanel) : keeps (same_ports st) (reset w).
Proof.
  apply keeps_reset; try (stable; fail); intros; assumption.
Qed.

Lemma reset_line_classified (w : Env) (st : ConnPanel) connTimes line acc s :
  same_ports st s ->
  Forall (well_classified st) (connectionsTmp acc) ->
  wp (reset_line w connTimes line acc)
     (fun acc' _ => Forall (well_classified st) (connectionsTmp acc'))
     (fun _ _ => True) s.
Proof.
  intros [Hor [Hdir Hctl]] Hacc. unfold reset_line.
  destruct (negb (Py.startswith line "tcp")); [wp_step; exact Hacc|].
  wp_step. wp_step. destruct (Py.split line !! 3%nat) as [local|]; [|exact Logic.I].
  wp_step. wp_step. destruct (Py.split line !! 4%nat) as [foreign|]; [|exact Logic.I].
  cbv zeta.
  set (localIP := Py.slice_to local (Py.find ":" local)).
  set (foreignIP := Py.slice_to foreign (Py.find ":" foreign)).
  set (localPort := Py.slice_from local (Py.len localIP + 1)).
  set (foreignPort := Py.slice_from foreign (Py.len foreignIP + 1)).
  wp_step. wp_step. wp_step.
  eapply wp_mono
    with (Q := fun classified _ =>
                 forall countryCode time,
                   well_classified st (mkConn (fst classified) localIP localPort
                                              foreignIP foreignPort countryCode time));
    [| |auto].
  - rewrite Hor, Hdir, Hctl.
    destruct (String.eqb localPort (orPort st) || String.eqb localPort (dirPort st))
      eqn:Hrelay.
    { wp_step. intros countryCode time. unfold well_classified, is_relay_port. simpl.
      apply orb_true_iff in Hrelay.
      destruct Hrelay as [H|H]; apply String.eqb_eq in H; [left | right]; exact H. }
    assert (Hnot : ~ is_relay_port st localPort).
    { apply orb_false_iff in Hrelay. destruct Hrelay as [H1 H2].
      apply String.eqb_neq in H1. apply String.eqb_neq in H2.
      intros [H|H]; contradiction. }
    destruct (String.eqb localPort (controlPort st)) eqn:Hcontrol.
    { wp_step. intros countryCode time. unfold well_classified. simpl.
      apply String.eqb_eq in Hcontrol. split; assumption. }
    apply String.eqb_neq in Hcontrol.
    apply wp_skip. intros fingerprint s1. apply wp_skip. intros nickname s2.
    apply wp_skip. intros st2 s3.
    destruct (clientConnectionCache st2) as [clientNames|]; [|exact Logic.I].
    destruct (existsb (is_client_name nickname fingerprint) clientNames).
    { wp_step. intros countryCode time. unfold well_classified. simpl.
      split; assumption. }
    destruct (bool_decide ((foreignIP, foreignPort) ∈ DIR_SERVERS)) eqn:Hdirectory.
    + apply bool_decide_eq_true_1 in Hdirectory.
      wp_step. intros countryCode time. unfold well_classified. simpl. auto.
    + apply bool_decide_eq_false_1 in Hdirectory.
      wp_step. intros countryCode time. unfold well_classified. simpl. auto.
  - intros classified s1 Hclassified. cbv beta.
    apply wp_skip. intros countryCode s2. wp_step. simpl.
    apply Forall_app. split; [exact Hacc|]. constructor; [apply Hclassified | constructor].
Qed.

Lemma add_localhost_classified (w : Env) (st : ConnPanel) connTimes acc s :
  Forall (well_classified st) (connectionsTmp acc) ->
  wp (add_localhost w connTimes acc)
     (fun acc' _ => Forall (well_classified st) (connectionsTmp acc'))
     (fun _ _ => True) s.
Proof.
  intros Hacc. unfold add_localhost.
  apply wp_skip. intros [[[selfAddress selfPort] selfFingerprint]|] s1.
  - destruct (Py.truthy selfAddress && Py.truthy selfPort && Py.truthy selfFingerprint).
    + apply wp_skip. intros selfCountryCode s2. wp_step. wp_step. wp_step. simpl.
      apply Forall_app. split; [exact Hacc|].
      constructor; [|constructor]. unfold well_classified. simpl. split; reflexivity.
    + wp_step. wp_step. wp_step. exact Hacc.
  - wp_step. wp_step. wp_step. exact Hacc.
Qed.

(** X9.  Every record that a refresh assigns carries the category
    that its own fields and the three ports of the panel give it: inbound
    exactly when the local port is the OR or the directory port, control
    when it is the control port and not one of those, a directory record
    only for an address and port of [DIR_SERVERS], an outbound record only
    outside [DIR_SERVERS], and the localhost record with its local address
    and port as the foreign ones.  The ports are left as they were. *)
Theorem reset_classifies_by_ports (w : Env) (st st' : ConnPanel) :
  reset w st = (st', Return Assigned) ->
  Forall (well_classified st') (snapshot st') /\ same_ports st st'.
Proof.
  intros Hrun.
  pose (J := fun acc => Forall (well_classified st) (connectionsTmp acc)).
  assert (Hwp : wp (reset w)
                  (fun exit s' =>
                     same_ports st s' /\ isPaused s' = isPaused st
                     /\ (exit = Assigned -> exists acc, J acc /\ assigned st s' acc))
                  (fun _ => same_ports st) st).
  { apply (reset_invariant w (same_ports st) J); try (stable; fail);
      try (intros; assumption).
    - intros ip port. apply keeps_getFingerprint. stable.
    - intros ip port. apply keeps_getNickname. stable.
    - apply keeps_sortConnections; [stable | intros; assumption].
    - constructor.
    - intros connTimes line acc s Hs Hacc. apply reset_line_classified; assumption.
    - intros connTimes acc s _ Hacc. apply add_localhost_classified; assumption.
    - repeat split. }
  unfold wp in Hwp. rewrite Hrun in Hwp.
  destruct Hwp as [Hports [Hpaused Hassigned]].
  split; [|exact Hports].
  destruct (Hassigned eq_refl) as [acc [Hacc Hs']].
  assert (Hsnap : Forall (well_classified st) (snapshot st')).
  { unfold assigned in Hs'. unfold snapshot. rewrite Hpaused.
    destruct (isPaused st).
    - destruct Hs' as [-> _]. exact Hacc.
    - destruct Hs' as [Hperm _]. rewrite Hperm. exact Hacc. }
  eapply Forall_impl; [exact Hsnap|].
  intros r. unfold well_classified, is_relay_port.
  destruct Hports as [-> [-> ->]]. auto.
Qed.

(** The theorem at a refresh of the started panel that sees one inbound and
    one outbound connection. *)
Lemma reset_classifies_by_ports_witness :
  let w := Scenario.controller
             (Return [Scenario.inbound_line; Scenario.outbound_line "50000"]) in
  let st' := fst (reset w Scenario.started) in
  reset w Scenario.started = (st', Return Assigned)
  /\ Forall (well_classified st') (snapshot st') /\ same_ports Scenario.started st'.
Proof.
  intros w st'.
  assert (Hrun : reset w Scenario.started = (st', Return Assigned))
    by (vm_compute; reflexivity).
  split; [exact Hrun|].
  exact (reset_classifies_by_ports w Scenario.started st' Hrun).
Defined.


(** ** Fingerprint resolution *)

Lemma wp_int_port port Q E s :
  wp (int port) Q E s
  = match port_number port with Some p => Q p s | None => E ValueError s end.
Proof. rewrite wp_int. destruct port; reflexivity. Qed.

Lemma keeps_load_orconnStatusCache_steps (w : Env) (I : ConnPanel -> Prop) :
  (forall v s, I s -> I (set_orconnStatusCache v s)) ->
  (forall v s, I s -> I (set_orconnStatusCacheValid v s)) ->
  keeps I (load_orconnStatusCache w).
Proof.
  intros Hc Hv. unfold load_orconnStatusCache. keeps_split; auto.
Qed.

Lemma list_remove_first_subset {A} `{EqDecision A} (x : A) (l l' : list A) :
  list_remove_first x l = Some l' -> forall y, y ∈ l' -> y ∈ l.
Proof.
  revert l'. induction l as [|z l IH]; intros l'; simpl; [discriminate|].
  destruct (decide (x = z)).
  - intros [= <-] y Hy. right. exact Hy.
  - destruct (list_remove_first x l) as [r|]; [|discriminate].
    intros [= <-] y Hy. apply elem_of_cons in Hy. destruct Hy as [->|Hy].
    + left.
    + right. apply (IH r eq_refl), Hy.
Qed.

Lemma eliminate_subset (w : Env) entry operativeMatches s :
  wp (eliminate w entry operativeMatches)
     (fun remaining _ => forall x, x ∈ remaining -> x ∈ operativeMatches)
     (fun _ _ => True) s.
Proof.
  unfold eliminate. destruct entry as [[entryPort entryFingerprint] entryNickname].
  apply wp_skip. intros toRemove s1. apply wp_skip. intros st1 s2. cbv zeta.
  match goal with |- wp (if ?b then _ else _) _ _ _ => destruct b end.
  - match goal with
    | |- wp (match ?r with _ => _ end) _ _ _ => destruct r as [l|] eqn:Hremove
    end; [|exact Logic.I].
    wp_step. apply (list_remove_first_subset _ _ _ Hremove).
  - wp_step. auto.
Qed.

Lemma port_match_listed port potentialMatches fingerprint :
  port_match port potentialMatches = Some fingerprint ->
  exists entryPort entryNickname,
    (entryPort, fingerprint, entryNickname) ∈ potentialMatches.
Proof.
  induction potentialMatches as [|[[entryPort entryFingerprint] entryNickname] rest IH];
    simpl; [discriminate|].
  destruct (entryPort =? port).
  - intros [= <-]. exists entryPort, entryNickname. left.
  - intros H. destruct (IH H) as [ep [en Hin]]. exists ep, en. right. exact Hin.
Qed.

(** The cache and the index in [lookupFingerprint]: a hit is returned as
    it is; a miss is answered from the index of the address and stored
    under the key that missed, and nothing but the [orconn-status] cache
    changes in between. *)
Lemma wp_lookupFingerprint (w : Env) (I : ConnPanel -> Prop)
    (Q : string -> ConnPanel -> Prop) ipAddr port p st :
  (forall v s, I s -> I (set_orconnStatusCache v s)) ->
  (forall v s, I s -> I (set_orconnStatusCacheValid v s)) ->
  I st ->
  port_number port = Some p ->
  (forall f, fingerprintLookupCache st !! (ipAddr, PyInt p) = Some f -> Q f st) ->
  (forall f s',
     I s' ->
     fingerprintLookupCache s' = fingerprintLookupCache st ->
     fingerprintLookupCache st !! (ipAddr, PyInt p) = None ->
     f = "UNKNOWN" \/ listed_at (fingerprintMappings st) ipAddr f ->
     Q f (set_fingerprintLookupCache
            (<[(ipAddr, PyInt p) := f]> (fingerprintLookupCache s')) s')) ->
  wp (lookupFingerprint w ipAddr port) Q (fun _ => I) st.
Proof.
  intros Ho Hv HI Hp Hhit Hmiss. unfold lookupFingerprint.
  rewrite wp_bind, wp_int_port, Hp. wp_step. wp_step.
  destruct (fingerprintLookupCache st !! (ipAddr, PyInt p)) as [f|] eqn:Hc.
  { wp_step. apply Hhit. reflexivity. }
  pose (I' := fun s => I s /\ fingerprintLookupCache s = fingerprintLookupCache st
                       /\ fingerprintMappings s = fingerprintMappings st).
  assert (H0 : I' st) by (split; [exact HI | split; reflexivity]).
  wp_step.
  apply (wp_keeps I');
    [apply keeps_load_orconnStatusCache_steps | exact H0 | | intros e s' [H _]; exact H].
  { intros v s [H1 H2]. split; [auto | exact H2]. }
  { intros v s [H1 H2]. split; [auto | exact H2]. }
  intros u s1 H1. clear u. wp_step. wp_step.
  destruct H1 as [HI1 [Hc1 Hm1]]. rewrite Hm1.
  wp_step.
  eapply wp_mono
    with (Q := fun found s2 =>
                 I' s2 /\ (found = None
                           \/ exists f, found = Some f
                                        /\ listed_at (fingerprintMappings st) ipAddr f))
         (E := fun _ => I').
  - unfold listed_at.
    destruct (fingerprintMappings st !! ipAddr) as [potentialMatches|] eqn:Hpm.
    2: { wp_step. split; [repeat split; assumption | left; reflexivity]. }
    match goal with
    | |- wp (if truthy_opt ?f then _ else _) _ _ _ => set (found0 := f)
    end.
    assert (Hfound0 : found0 = None
                      \/ exists f, found0 = Some f
                                   /\ exists entryPort entryNickname,
                                        (entryPort, f, entryNickname) ∈ potentialMatches).
    { subst found0.
      assert (Hport : port_match p potentialMatches = None
                      \/ exists f, port_match p potentialMatches = Some f
                                   /\ exists entryPort entryNickname,
                                        (entryPort, f, entryNickname) ∈ potentialMatches).
      { destruct (port_match p potentialMatches) as [f|] eqn:Hport; [right | left; reflexivity].
        exists f. split; [reflexivity | apply port_match_listed with p; exact Hport]. }
      destruct potentialMatches as [|[[a b] c] [|x rest]]; try exact Hport.
      right. exists b. split; [reflexivity|]. exists a, c. left. }
    destruct (truthy_opt found0).
    { wp_step. split; [repeat split; assumption | exact Hfound0]. }
    wp_step.
    eapply wp_mono.
    + apply (wp_for_each (eliminate w)
               (fun remaining s => I' s /\ forall x, x ∈ remaining -> x ∈ potentialMatches)
               (fun _ => I')).
      * intros entry remaining s _ [Hs Hsub].
        eapply wp_mono.
        -- apply wp_conj; [apply (keeps_eliminate w I'), Hs | apply eliminate_subset].
        -- intros remaining' s' [Hs' Hsub']. split; [exact Hs' | auto].
        -- intros e s' [Hs' _]. exact Hs'.
      * split; [repeat split; assumption | auto].
    + intros operativeMatches s2 [Hs2 Hsub]. cbv beta.
      destruct operativeMatches as [|[[a b] c] [|x rest]];
        wp_step; (split; [exact Hs2|]); try exact Hfound0.
      right. exists b. split; [reflexivity|]. exists a, c. apply Hsub. left.
    + auto.
  - intros found s2 [[HI2 [Hc2 Hm2]] Hfound]. cbv beta zeta. wp_step. wp_step. wp_step.
    apply Hmiss; [exact HI2 | exact Hc2 | reflexivity |].
    destruct Hfound as [->|[f [-> Hlisted]]]; [left; reflexivity|].
    simpl. destruct (Py.truthy f); [right; exact Hlisted | left; reflexivity].
  - intros e s' [H _]. exact H.
Qed.

Lemma ready_answer_returned (w : Env) (s : ConnPanel) ipAddr port f :
  ready_answer s ipAddr port = Some f ->
  getFingerprint w ipAddr port s = (s, Return f).
Proof.
  unfold ready_answer, getFingerprint, bind, get. cbv zeta.
  assert (Hcached : match port_number port with
                    | Some p => fingerprintLookupCache s !! (ipAddr, PyInt p)
                    | None => None
                    end = Some f ->
                    lookupFingerprint w ipAddr port s = (s, Return f)).
  { intros H. unfold lookupFingerprint, bind, get.
    assert (Hint : forall s0, int port s0
                              = (s0, match port_number port with
                                     | Some p => Return p
                                     | None => Raise ValueError
                                     end)).
    { intros s0. destruct port as [t|n]; simpl; [destruct (Py.int t)|]; reflexivity. }
    rewrite Hint. destruct (port_number port) as [p|]; [|discriminate].
    rewrite H. reflexivity. }
  destruct (localhostEntry s) as [[entry fingerprint]|]; [|exact Hcached].
  destruct (bool_decide (ipAddr = CONN_L_IP entry)
            && bool_decide (port = PyStr (CONN_L_PORT entry))); [|exact Hcached].
  intros [= ->]. reflexivity.
Qed.

(** What [getFingerprint] returns is ready afterwards, or was ready all
    along, with the origin of a fresh answer. *)
Lemma getFingerprint_answers (w : Env) ipAddr port st :
  wp (getFingerprint w ipAddr port)
     (fun f s' =>
        ready_answer s' ipAddr port = Some f
        /\ (ready_answer st ipAddr port = Some f
            \/ ready_answer st ipAddr port = None
               /\ (f = "UNKNOWN" \/ listed_at (fingerprintMappings st) ipAddr f)))
     (fun _ _ => True) st.
Proof.
  unfold getFingerprint. wp_step. wp_step.
  assert (Hlookup :
            forall cached : option string,
              cached = match port_number port with
                       | Some p => fingerprintLookupCache st !! (ipAddr, PyInt p)
                       | None => None
                       end ->
              ready_answer st ipAddr port = cached ->
              (forall s' f,
                 localhostEntry s' = localhostEntry st ->
                 match port_number port with
                 | Some p => fingerprintLookupCache s' !! (ipAddr, PyInt p)
                 | None => None
                 end = Some f ->
                 ready_answer s' ipAddr port = Some f) ->
              wp (lookupFingerprint w ipAddr port)
                 (fun f s' =>
                    ready_answer s' ipAddr port = Some f
                    /\ (ready_answer st ipAddr port = Some f
                        \/ ready_answer st ipAddr port = None
                           /\ (f = "UNKNOWN"
                               \/ listed_at (fingerprintMappings st) ipAddr f)))
                 (fun _ _ => True) st).
  { intros cached Hcached Hready Hafter.
    destruct (port_number port) as [p|] eqn:Hp.
    2: { unfold lookupFingerprint. rewrite wp_bind, wp_int_port, Hp. exact Logic.I. }
    eapply wp_mono.
    - apply (wp_lookupFingerprint w (fun s => localhostEntry s = localhostEntry st)
               (fun f s' =>
                  ready_answer s' ipAddr port = Some f
                  /\ (ready_answer st ipAddr port = Some f
                      \/ ready_answer st ipAddr port = None
                         /\ (f = "UNKNOWN"
                             \/ listed_at (fingerprintMappings st) ipAddr f)))
               ipAddr port p st); try (intros; assumption); [reflexivity | |].
      + intros f Hf. rewrite Hready, Hcached, Hf. split; [reflexivity | left; reflexivity].
      + intros f s' Hl Hc Hnone Horigin. split.
        * apply Hafter; [exact Hl|]. simpl. apply lookup_insert_eq.
        * right. rewrite Hready, Hcached, Hnone. split; [reflexivity | exact Horigin].
    - auto.
    - auto. }
  unfold ready_answer in *. cbv zeta in *.
  destruct (localhostEntry st) as [[entry fingerprint]|] eqn:Hlocal.
  - destruct (bool_decide (ipAddr = CONN_L_IP entry)
              && bool_decide (port = PyStr (CONN_L_PORT entry))) eqn:Hself.
    + wp_step. rewrite Hlocal, Hself. split; [reflexivity | left; reflexivity].
    + apply (Hlookup _ eq_refl eq_refl).
      intros s' f Hl Hf. rewrite Hl, Hself. exact Hf.
  - apply (Hlookup _ eq_refl eq_refl).
    intros s' f Hl Hf. rewrite Hl. exact Hf.
Qed.

(** X14.  An answer of [getFingerprint] is final until an
    event clears it: when a call returns [f], a second call for the same
    address and port returns [f] again, whatever the controller would say
    by then, and leaves the panel as it is. *)
Theorem getFingerprint_answer_is_cached (w1 w2 : Env) (ipAddr : string) (port : pyval)
    (st st' : ConnPanel) (f : string) :
  getFingerprint w1 ipAddr port st = (st', Return f) ->
  getFingerprint w2 ipAddr port st' = (st', Return f).
Proof.
  intros Hrun. pose proof (getFingerprint_answers w1 ipAddr port st) as Hwp.
  unfold wp in Hwp. rewrite Hrun in Hwp. destruct Hwp as [Hready _].
  apply ready_answer_returned, Hready.
Qed.

(** The theorem at a connection to an address the consensus does not
    list: the first call answers ["UNKNOWN"], and so does the second with a
    controller that knows a relay there. *)
Lemma getFingerprint_answer_is_cached_witness :
  let w1 := Scenario.controller (Return []) in
  let w2 := Scenario.controller_after_move in
  let st' := fst (getFingerprint w1 "5.5.5.5" (PyStr "9001") Scenario.started) in
  getFingerprint w1 "5.5.5.5" (PyStr "9001") Scenario.started = (st', Return "UNKNOWN")
  /\ getFingerprint w2 "5.5.5.5" (PyStr "9001") st' = (st', Return "UNKNOWN").
Proof.
  intros w1 w2 st'.
  assert (Hrun : getFingerprint w1 "5.5.5.5" (PyStr "9001") Scenario.started
                 = (st', Return "UNKNOWN")) by (vm_compute; reflexivity).
  split; [exact Hrun|].
  exact (getFingerprint_answer_is_cached w1 w2 "5.5.5.5" (PyStr "9001")
           Scenario.started st' "UNKNOWN" Hrun).
Defined.

(** X15.  A fresh answer of [getFingerprint] comes from the
    identity index of that very address: what it returns is the answer
    that was ready (the localhost fingerprint or the cache entry), or else
    ["UNKNOWN"], or the fingerprint of a relay the index lists at the
    address asked for. *)
Theorem getFingerprint_answers_from_index (w : Env) (ipAddr : string) (port : pyval)
    (st st' : ConnPanel) (f : string) :
  getFingerprint w ipAddr port st = (st', Return f) ->
  ready_answer st ipAddr port = Some f
  \/ ready_answer st ipAddr port = None
     /\ (f = "UNKNOWN" \/ listed_at (fingerprintMappings st) ipAddr f).
Proof.
  intros Hrun. pose proof (getFingerprint_answers w ipAddr port st) as Hwp.
  unfold wp in Hwp. rewrite Hrun in Hwp. destruct Hwp as [_ Horigin]. exact Horigin.
Qed.

(** The theorem at the relay of the started panel, asked for with a port
    that is not its OR port. *)
Lemma getFingerprint_answers_from_index_witness :
  let w := Scenario.controller (Return []) in
  let st' := fst (getFingerprint w "1.2.3.4" (PyStr "40000") Scenario.started) in
  getFingerprint w "1.2.3.4" (PyStr "40000") Scenario.started = (st', Return "ABCD")
  /\ (ready_answer Scenario.started "1.2.3.4" (PyStr "40000") = Some "ABCD"
      \/ ready_answer Scenario.started "1.2.3.4" (PyStr "40000") = None
         /\ ("ABCD" = "UNKNOWN"
             \/ listed_at (fingerprintMappings Scenario.started) "1.2.3.4" "ABCD")).
Proof.
  intros w st'.
  assert (Hrun : getFingerprint w "1.2.3.4" (PyStr "40000") Scenario.started
                 = (st', Return "ABCD")) by (vm_compute; reflexivity).
  split; [exact Hrun|].
  exact (getFingerprint_answers_from_index w "1.2.3.4" (PyStr "40000")
           Scenario.started st' "ABCD" Hrun).
Defined.


(** ** Properties that the resolvers and the sort keep *)

Lemma keeps_getFingerprint_lookup (w : Env) (I : ConnPanel -> Prop) ipAddr port :
  keeps I (lookupFingerprint w ipAddr port) -> keeps I (getFingerprint w ipAddr port).
Proof. intros H. unfold getFingerprint. keeps_split; auto. Qed.

Lemma keeps_getNickname_steps (w : Env) (I : ConnPanel -> Prop) ipAddr port :
  keeps I (getFingerprint w ipAddr port) ->
  (forall v s, I s -> I (set_nicknameLookupCache v s)) ->
  keeps I (getNickname w ipAddr port).
Proof. intros Hf Hn. unfold getNickname. keeps_split; auto. Qed.

(** The sort keeps what the two resolvers keep. *)
Section ResolverSteps.

Variable w : Env.
Variable I : ConnPanel -> Prop.

Hypothesis I_getFingerprint : forall ip port, keeps I (getFingerprint w ip port).
Hypothesis I_getNickname : forall ip port, keeps I (getNickname w ip port).

Lemma keeps_listingWrapper_steps lt ip port : keeps I (listingWrapper w lt ip port).
Proof. unfold listingWrapper. keeps_split; auto. Qed.

Lemma keeps_sort_function_steps lt entry x y : keeps I (sort_function w lt entry x y).
Proof.
  pose proof keeps_listingWrapper_steps.
  unfold sort_function, SORT_TYPES. destruct entry; keeps_split; auto.
Qed.

Lemma keeps_sortConnections_steps :
  (forall v s, I s -> I (set_connections v s)) -> keeps I (sortConnections w).
Proof.
  intros Hset. unfold sortConnections.
  apply keeps_bind; [apply keeps_get|]. intros st.
  apply keeps_bind.
  - apply keeps_list_sort. intros a b. apply keeps_multisort.
    intros f Hf. apply in_map_iff in Hf. destruct Hf as [o [<- _]].
    apply keeps_sort_function_steps.
  - intros sorted. apply keeps_modify. intros s. apply Hset.
Qed.

End ResolverSteps.

(** A property that survives new entries of the lookup caches, as
    opposed to any write to them, is kept as well: the resolvers only write
    under a key that has no entry. *)
Lemma keeps_lookupFingerprint_growth (w : Env) (I : ConnPanel -> Prop) ipAddr port :
  (forall k v s, I s -> fingerprintLookupCache s !! k = None ->
                 I (set_fingerprintLookupCache (<[k := v]> (fingerprintLookupCache s)) s)) ->
  (forall v s, I s -> I (set_orconnStatusCache v s)) ->
  (forall v s, I s -> I (set_orconnStatusCacheValid v s)) ->
  keeps I (lookupFingerprint w ipAddr port).
Proof.
  intros Hfp Ho Hv s Hs. destruct (port_number port) as [p|] eqn:Hp.
  - apply (wp_lookupFingerprint w I (fun _ => I) ipAddr port p s Ho Hv Hs Hp).
    + intros f _. exact Hs.
    + intros f s' Hs' Hc Hnone _. apply Hfp; [exact Hs'|]. rewrite Hc. exact Hnone.
  - unfold lookupFingerprint. rewrite wp_bind, wp_int_port, Hp. exact Hs.
Qed.

Lemma keeps_getFingerprint_growth (w : Env) (I : ConnPanel -> Prop) ipAddr port :
  (forall k v s, I s -> fingerprintLookupCache s !! k = None ->
                 I (set_fingerprintLookupCache (<[k := v]> (fingerprintLookupCache s)) s)) ->
  (forall v s, I s -> I (set_orconnStatusCache v s)) ->
  (forall v s, I s -> I (set_orconnStatusCacheValid v s)) ->
  keeps I (getFingerprint w ipAddr port).
Proof.
  intros Hfp Ho Hv. apply keeps_getFingerprint_lookup.
  apply keeps_lookupFingerprint_growth; assumption.
Qed.

Lemma keeps_getNickname_growth (w : Env) (I : ConnPanel -> Prop) ipAddr port :
  (forall k v s, I s -> fingerprintLookupCache s !! k = None ->
                 I (set_fingerprintLookupCache (<[k := v]> (fingerprintLookupCache s)) s)) ->
  (forall k v s, I s -> nicknameLookupCache s !! k = None ->
                 I (set_nicknameLookupCache (<[k := v]> (nicknameLookupCache s)) s)) ->
  (forall v s, I s -> I (set_orconnStatusCache v s)) ->
  (forall v s, I s -> I (set_orconnStatusCacheValid v s)) ->
  keeps I (getNickname w ipAddr port).
Proof.
  intros Hfp Hn Ho Hv s Hs. unfold getNickname. wp_step. wp_step.
  destruct (nicknameLookupCache s !! (ipAddr, port)) as [nickname|] eqn:Hmiss;
    [wp_step; exact Hs|].
  pose (I' := fun s' => I s' /\ nicknameLookupCache s' !! (ipAddr, port) = None).
  wp_step.
  apply (wp_keeps I'); [| split; assumption | | intros e s' [H _]; exact H].
  { apply keeps_getFingerprint_growth.
    - intros k v s0 [H1 H2] Hk. split; [auto | exact H2].
    - intros v s0 [H1 H2]. split; [auto | exact H2].
    - intros v s0 [H1 H2]. split; [auto | exact H2]. }
  intros fingerprint s1 Hs1. wp_step.
  apply (wp_keeps I'); [keeps_split | exact Hs1 | | intros e s' [H _]; exact H].
  intros [nickname|] s2 [Hs2 Hmiss2].
  - wp_step. wp_step. wp_step. apply Hn; assumption.
  - wp_step. exact Hs2.
Qed.

Lemma keeps_reset_growth (w : Env) (I : ConnPanel -> Prop) :
  (forall k v s, I s -> fingerprintLookupCache s !! k = None ->
                 I (set_fingerprintLookupCache (<[k := v]> (fingerprintLookupCache s)) s)) ->
  (forall k v s, I s -> nicknameLookupCache s !! k = None ->
                 I (set_nicknameLookupCache (<[k := v]> (nicknameLookupCache s)) s)) ->
  (forall v s, I s -> I (set_orconnStatusCache v s)) ->
  (forall v s, I s -> I (set_orconnStatusCacheValid v s)) ->
  (forall v s, I s -> I (set_localhostEntry v s)) ->
  (forall v s, I s -> I (set_lastUpdate v s)) ->
  (forall v s, I s -> I (set_connections v s)) ->
  (forall v s, I s -> I (set_connectionsBuffer v s)) ->
  (forall v s, I s -> I (set_connectionCount v s)) ->
  (forall v s, I s -> I (set_clientConnectionCache v s)) ->
  (forall v s, I s -> I (set_logged v s)) ->
  (forall v s, I s -> I (set_providedGeoipWarning v s)) ->
  keeps I (reset w).
Proof.
  intros Hfp Hn Ho Hv H1 H2 H3 H4 H5 H6 H7 H8.
  assert (Hf : forall ip port, keeps I (getFingerprint w ip port))
    by (intros; apply keeps_getFingerprint_growth; assumption).
  assert (Hnick : forall ip port, keeps I (getNickname w ip port))
    by (intros; apply keeps_getNickname_growth; assumption).
  apply keeps_reset_steps; auto.
  apply keeps_sortConnections_steps; assumption.
Qed.

(** X13.  The refreshes never overwrite or drop an entry of the
    two lookup caches: over any series of refreshes every cached
    fingerprint and every cached nickname stays as it is, whatever the
    controller would answer by then. *)
Theorem refreshes_keep_cached_answers (ticks : list Env) (st : ConnPanel) :
  fingerprintLookupCache st ⊆ fingerprintLookupCache (refreshes ticks st)
  /\ nicknameLookupCache st ⊆ nicknameLookupCache (refreshes ticks st).
Proof.
  apply (refreshes_keep
           (fun s => fingerprintLookupCache st ⊆ fingerprintLookupCache s
                     /\ nicknameLookupCache st ⊆ nicknameLookupCache s));
    [|split; reflexivity].
  intros w. apply keeps_reset_growth; try (intros v s H; exact H).
  - intros k v s [H1 H2] Hk. split; [|exact H2].
    change (fingerprintLookupCache st ⊆ <[k := v]> (fingerprintLookupCache s)).
    apply insert_subseteq_r; [|exact H1].
    apply (lookup_weaken_None _ _ _ Hk H1).
  - intros k v s [H1 H2] Hk. split; [exact H1|].
    change (nicknameLookupCache st ⊆ <[k := v]> (nicknameLookupCache s)).
    apply insert_subseteq_r; [|exact H2].
    apply (lookup_weaken_None _ _ _ Hk H2).
Qed.


(** ** The identity index and the consensus *)

Lemma fold_add_mapping_lookup (nsList : list ns_entry) (m : gmap string (list triple))
    (ipAddr : string) :
  fold_left add_mapping nsList m !! ipAddr
  = match entries_at ipAddr nsList with
    | [] => m !! ipAddr
    | entries => Some (default [] (m !! ipAddr) ++ entries)
    end.
Proof.
  revert m. induction nsList as [|entry nsList IH]; intros m; [reflexivity|].
  simpl fold_left. rewrite IH. unfold entries_at, add_mapping.
  destruct (decide (ns_ip entry = ipAddr)) as [Heq|Hne].
  - rewrite filter_cons_True by exact Heq. simpl map. rewrite <- Heq.
    destruct (m !! ns_ip entry) as [l|]; rewrite lookup_insert_eq; simpl;
      destruct (map _ (filter _ nsList)); try reflexivity;
      rewrite <- app_assoc; reflexivity.
  - rewrite filter_cons_False by exact Hne.
    destruct (m !! ns_ip entry) as [l|]; rewrite lookup_insert_ne by exact Hne;
      reflexivity.
Qed.

(** X17.  A consensus event replaces the identity index:
    whatever it held before, afterwards it lists under each address the
    (port, fingerprint, nickname) triples of exactly the consensus entries
    with that address, in consensus order, and has no entry for any other
    address.  The consensus is the list that comes with the event, or the
    one the controller gives when the event brings an empty list. *)
Theorem new_consensus_event_rebuilds_index (w : Env) (nslist consensus : list ns_entry)
    (st : ConnPanel) :
  nslist <> [] /\ consensus = nslist
  \/ nslist = [] /\ get_network_status w None = Return consensus ->
  forall ipAddr,
    fingerprintMappings (fst (new_consensus_event w nslist st)) !! ipAddr
    = match entries_at ipAddr consensus with
      | [] => None
      | entries => Some entries
      end.
Proof.
  intros Hsource ipAddr.
  pose (m := fold_left add_mapping consensus (∅ : gmap string (list triple))).
  assert (Hlookup : m !! ipAddr = match entries_at ipAddr consensus with
                                  | [] => None
                                  | entries => Some entries
                                  end).
  { subst m. rewrite fold_add_mapping_lookup, lookup_empty. reflexivity. }
  rewrite <- Hlookup.
  apply (wp_fst (fun s => fingerprintMappings s !! ipAddr = m !! ipAddr)).
  unfold new_consensus_event. wp_step. wp_step. wp_step. wp_step. wp_step. wp_step.
  wp_step.
  assert (Hmappings :
            forall s, wp (_getFingerprintMappings w (Some nslist))
                        (fun mappings _ => mappings = m)
                        (fun _ _ => False) s).
  { intros s. unfold _getFingerprintMappings.
    destruct Hsource as [[Hne ->]|[-> Hquery]].
    - destruct nslist as [|e l]; [congruence|]. wp_steps. reflexivity.
    - wp_step. wp_step. wp_step. rewrite Hquery. wp_steps. reflexivity. }
  eapply wp_mono; [apply Hmappings | | intros e s' []].
  intros mappings s1 ->. cbv beta. wp_step. wp_step. wp_step. wp_step.
  match goal with |- wp _ _ _ ?s => set (s2 := s) end.
  assert (H2 : fingerprintMappings s2 = m) by reflexivity.
  destruct (bool_decide (listingType s2 ≠ LIST_HOSTNAME)).
  - apply (wp_keeps (fun s => fingerprintMappings s = m)); [| exact H2 | |].
    + apply keeps_sortConnections; [stable | intros v s H; exact H].
    + intros u s' ->. reflexivity.
    + intros e s' ->. reflexivity.
  - wp_step. rewrite H2. reflexivity.
Qed.

(** The theorem at the consensus of the moved relay. *)
Lemma new_consensus_event_rebuilds_index_witness :
  let w := Scenario.controller (Return []) in
  let nslist := [Scenario.relayA_moved] in
  (nslist <> [] /\ nslist = nslist
   \/ nslist = [] /\ get_network_status w None = Return nslist)
  /\ forall ipAddr,
       fingerprintMappings (fst (new_consensus_event w nslist Scenario.started)) !! ipAddr
       = match entries_at ipAddr nslist with
         | [] => None
         | entries => Some entries
         end.
Proof.
  intros w nslist.
  assert (Hsource : nslist <> [] /\ nslist = nslist
                    \/ nslist = [] /\ get_network_status w None = Return nslist)
    by (left; split; [discriminate | reflexivity]).
  split; [exact Hsource|].
  exact (new_consensus_event_rebuilds_index w nslist nslist Scenario.started Hsource).
Defined.

(** The fingerprint cache agrees with an index [mappings] that stays in
    place. *)
Lemma keeps_answers_listed_lookupFingerprint (w : Env) mappings ipAddr port :
  keeps (fun s => fingerprintMappings s = mappings /\ answers_listed s)
        (lookupFingerprint w ipAddr port).
Proof.
  intros s Hs. destruct (port_number port) as [p|] eqn:Hp.
  - apply (wp_lookupFingerprint w
             (fun s => fingerprintMappings s = mappings /\ answers_listed s)
             (fun _ s => fingerprintMappings s = mappings /\ answers_listed s)
             ipAddr port p s); try (intros v s0 H; exact H); try assumption.
    + intros f _. exact Hs.
    + intros f s' [Hm Hlisted] Hc Hnone Horigin. split; [exact Hm|].
      intros ip q g. unfold answers_listed in Hlisted.
      change (<[(ipAddr, PyInt p) := f]> (fingerprintLookupCache s') !! (ip, q) = Some g ->
              g = "UNKNOWN" \/ listed_at (fingerprintMappings s') ip g).
      destruct (decide ((ipAddr, PyInt p) = (ip, q))) as [Heq|Hne].
      * rewrite Heq, lookup_insert_eq. intros [= <-]. injection Heq as <- _.
        destruct Hs as [Hms _]. rewrite Hm, <- Hms. exact Horigin.
      * rewrite lookup_insert_ne by exact Hne. apply Hlisted.
  - unfold lookupFingerprint. rewrite wp_bind, wp_int_port, Hp. exact Hs.
Qed.

Lemma keeps_answers_listed_sortConnections (w : Env) mappings :
  keeps (fun s => fingerprintMappings s = mappings /\ answers_listed s) (sortConnections w).
Proof.
  assert (Hf : forall ip port,
             keeps (fun s => fingerprintMappings s = mappings /\ answers_listed s)
                   (getFingerprint w ip port)).
  { intros ip port. apply keeps_getFingerprint_lookup.
    apply keeps_answers_listed_lookupFingerprint. }
  apply keeps_sortConnections_steps; [exact Hf | | intros v s H; exact H].
  intros ip port. apply keeps_getNickname_steps; [apply Hf | intros v s H; exact H].
Qed.

Lemma keeps_answers_listed_reset (w : Env) mappings :
  keeps (fun s => fingerprintMappings s = mappings /\ answers_listed s) (reset w).
Proof.
  assert (Hf : forall ip port,
             keeps (fun s => fingerprintMappings s = mappings /\ answers_listed s)
                   (getFingerprint w ip port)).
  { intros ip port. apply keeps_getFingerprint_lookup.
    apply keeps_answers_listed_lookupFingerprint. }
  apply keeps_reset_steps; try (intros v s H; exact H).
  - exact Hf.
  - intros ip port. apply keeps_getNickname_steps; [apply Hf | intros v s H; exact H].
  - apply keeps_answers_listed_sortConnections.
  - intros v s H _. exact H.
  - intros s H. exact H.
  - intros s H _. exact H.
Qed.

(** X18.  After a consensus event, and after any series of
    refreshes that follows it, every fingerprint in the lookup cache is
    ["UNKNOWN"] or the fingerprint of a relay that the identity index lists
    at the address the entry is cached for: no answer of before the event
    is left, whatever the listing type. *)
Theorem cache_follows_consensus (w : Env) (nslist : list ns_entry) (ticks : list Env)
    (st : ConnPanel) :
  answers_listed (refreshes ticks (fst (new_consensus_event w nslist st))).
Proof.
  assert (Hevent : exists mappings,
             fingerprintMappings (fst (new_consensus_event w nslist st)) = mappings
             /\ answers_listed (fst (new_consensus_event w nslist st))).
  { apply (wp_fst (fun s => exists mappings,
                             fingerprintMappings s = mappings /\ answers_listed s)).
    unfold new_consensus_event. wp_step. wp_step. wp_step. wp_step. wp_step. wp_step.
    wp_step.
    assert (Hempty : forall s, fingerprintLookupCache s = ∅ -> answers_listed s).
    { intros s Hs ip p f. rewrite Hs, lookup_empty. discriminate. }
    apply (wp_keeps (fun s => fingerprintLookupCache s = ∅));
      [apply keeps_getFingerprintMappings | reflexivity | |].
    2: { intros e s' Hs'. eexists. split; [reflexivity | apply Hempty, Hs']. }
    intros mappings s1 Hs1. wp_step. wp_step. wp_step. wp_step.
    match goal with |- wp _ _ _ ?s => set (s2 := s) end.
    assert (H2 : fingerprintMappings s2 = mappings /\ answers_listed s2)
      by (split; [reflexivity | apply Hempty; exact Hs1]).
    destruct (bool_decide (listingType s2 ≠ LIST_HOSTNAME)).
    - apply (wp_keeps (fun s => fingerprintMappings s = mappings /\ answers_listed s));
        [apply keeps_answers_listed_sortConnections | exact H2 | |].
      + intros u s' Hs'. exists mappings. exact Hs'.
      + intros e s' Hs'. exists mappings. exact Hs'.
    - wp_step. exists mappings. exact H2. }
  destruct Hevent as [mappings Hevent].
  apply (refreshes_keep (fun s => fingerprintMappings s = mappings /\ answers_listed s));
    [|exact Hevent].
  intros w0. apply keeps_answers_listed_reset.
Qed.

(** ** Answers from the index alone *)

Lemma load_orconnStatusCache_frame (w : Env) (st : ConnPanel) :
  wp (load_orconnStatusCache w)
     (fun _ s1 => fingerprintMappings s1 = fingerprintMappings st
                  /\ fingerprintLookupCache s1 = fingerprintLookupCache st)
     (fun e _ => orconnStatusCacheValid st = false
                 /\ get_info w "orconn-status" = Raise e) st.
Proof.
  unfold load_orconnStatusCache. wp_step. wp_step.
  destruct (orconnStatusCacheValid st) eqn:Hvalid; [wp_step; split; reflexivity|].
  wp_step. wp_step. wp_step. wp_step. wp_step. wp_step. wp_step.
  destruct (get_info w "orconn-status") as [status|e].
  - wp_step. split; reflexivity.
  - destruct e; try (split; reflexivity); wp_step; split; reflexivity.
Qed.

Lemma not_ready_lookup (w : Env) (st : ConnPanel) ipAddr port p :
  ready_answer st ipAddr port = None ->
  port_number port = Some p ->
  fingerprintLookupCache st !! (ipAddr, PyInt p) = None
  /\ getFingerprint w ipAddr port st = lookupFingerprint w ipAddr port st.
Proof.
  unfold ready_answer. cbv zeta. intros Hready Hp. rewrite Hp in Hready.
  unfold getFingerprint, bind, get.
  destruct (localhostEntry st) as [[entry fingerprint]|]; [|split; [exact Hready | reflexivity]].
  destruct (bool_decide (ipAddr = CONN_L_IP entry)
            && bool_decide (port = PyStr (CONN_L_PORT entry))); [discriminate|].
  split; [exact Hready | reflexivity].
Qed.

(** X16.  When the index lists exactly one relay at an
    address, a question that has no answer ready is answered with that
    relay's fingerprint whatever the port asked for, and the answer is
    stored under the address and the port asked for.  When the index has
    no entry for the address the answer is ["UNKNOWN"], stored in the same
    way.  Neither asks the controller for more than [orconn-status], and
    only that query can make the call raise. *)
Theorem getFingerprint_single_relay_any_port (w : Env) (st : ConnPanel)
    (ipAddr : string) (port : pyval) (p : Z) (answer : string) :
  ready_answer st ipAddr port = None ->
  port_number port = Some p ->
  (exists entryPort entryNickname,
     fingerprintMappings st !! ipAddr = Some [(entryPort, answer, entryNickname)]
     /\ answer <> "")
  \/ fingerprintMappings st !! ipAddr = None /\ answer = "UNKNOWN" ->
  wp (getFingerprint w ipAddr port)
     (fun f s' =>
        f = answer
        /\ fingerprintLookupCache s'
           = <[(ipAddr, PyInt p) := answer]> (fingerprintLookupCache st))
     (fun e _ => orconnStatusCacheValid st = false
                 /\ get_info w "orconn-status" = Raise e) st.
Proof.
  intros Hready Hp Hindex.
  destruct (not_ready_lookup w st ipAddr port p Hready Hp) as [Hmiss Heq].
  unfold wp. rewrite Heq.
  change (wp (lookupFingerprint w ipAddr port)
             (fun f s' =>
                f = answer
                /\ fingerprintLookupCache s'
                   = <[(ipAddr, PyInt p) := answer]> (fingerprintLookupCache st))
             (fun e _ => orconnStatusCacheValid st = false
                         /\ get_info w "orconn-status" = Raise e) st).
  unfold lookupFingerprint. rewrite wp_bind, wp_int_port, Hp. wp_step. wp_step.
  rewrite Hmiss. wp_step.
  eapply wp_mono; [apply load_orconnStatusCache_frame | | auto].
  intros u s1 [Hm Hc]. cbv beta. wp_step. wp_step. rewrite Hm.
  destruct Hindex as [[entryPort [entryNickname [Hmap Hanswer]]]|[Hmap ->]];
    unfold triple in *; rewrite Hmap.
  - cbv beta iota zeta.
    assert (Htruthy : truthy_opt (Some answer) = true)
      by (destruct answer; [contradiction | reflexivity]).
    rewrite Htruthy. wp_step. wp_step. rewrite Htruthy. wp_step. wp_step. wp_step.
    split; [reflexivity|]. simpl. rewrite Hc. reflexivity.
  - wp_step. wp_step. cbv beta iota zeta. simpl truthy_opt. cbv iota.
    wp_step. wp_step. wp_step.
    split; [reflexivity|]. simpl. rewrite Hc. reflexivity.
Qed.

(** The theorem at the relay of the started panel and a port that is not
    its OR port. *)
Lemma getFingerprint_single_relay_any_port_witness :
  let w := Scenario.controller (Return []) in
  let st := Scenario.started in
  ready_answer st "1.2.3.4" (PyStr "40000") = None
  /\ port_number (PyStr "40000") = Some 40000
  /\ ((exists entryPort entryNickname,
         fingerprintMappings st !! "1.2.3.4" = Some [(entryPort, "ABCD", entryNickname)]
         /\ "ABCD" <> "")
      \/ fingerprintMappings st !! "1.2.3.4" = None /\ "ABCD" = "UNKNOWN")
  /\ wp (getFingerprint w "1.2.3.4" (PyStr "40000"))
        (fun f s' =>
           f = "ABCD"
           /\ fingerprintLookupCache s'
              = <[("1.2.3.4", PyInt 40000) := "ABCD"]> (fingerprintLookupCache st))
        (fun e _ => orconnStatusCacheValid st = false
                    /\ get_info w "orconn-status" = Raise e) st.
Proof.
  intros w st.
  assert (Hready : ready_answer st "1.2.3.4" (PyStr "40000") = None)
    by (vm_compute; reflexivity).
  assert (Hp : port_number (PyStr "40000") = Some 40000) by (vm_compute; reflexivity).
  assert (Hindex : (exists entryPort entryNickname,
                      fingerprintMappings st !! "1.2.3.4"
                      = Some [(entryPort, "ABCD", entryNickname)]
                      /\ "ABCD" <> "")
                   \/ fingerprintMappings st !! "1.2.3.4" = None /\ "ABCD" = "UNKNOWN").
  { left. exists 9001, "relayA". split; [vm_compute; reflexivity | discriminate]. }
  split; [exact Hready|]. split; [exact Hp|]. split; [exact Hindex|].
  exact (getFingerprint_single_relay_any_port w st "1.2.3.4" (PyStr "40000") 40000 "ABCD"
           Hready Hp Hindex).
Defined.


(** ** Descriptor events and the lookup caches *)

Lemma elem_of_invalidEntries (k : string * pyval) (fingerprint : string)
    (cache : gmap (string * pyval) string) :
  k ∈ invalidEntries fingerprint cache <-> cache !! k = Some fingerprint.
Proof.
  unfold invalidEntries. rewrite list_elem_of_In, in_map_iff. split.
  - intros [[k' v] [Hk Hin]]. simpl in Hk. subst k'.
    apply list_elem_of_In, list_elem_of_filter in Hin. destruct Hin as [Hv Hin].
    simpl in Hv. subst v. apply elem_of_map_to_list in Hin. exact Hin.
  - intros H. exists (k, fingerprint). split; [reflexivity|].
    apply list_elem_of_In, list_elem_of_filter. split; [reflexivity|].
    apply elem_of_map_to_list. exact H.
Qed.

Lemma lookup_foldr_delete {V} (m : gmap (string * pyval) V) (ks : list (string * pyval))
    (k : string * pyval) :
  foldr delete m ks !! k = if decide (k ∈ ks) then None else m !! k.
Proof.
  induction ks as [|a ks IH]; simpl foldr.
  - destruct (decide (k ∈ [])) as [H|_]; [|reflexivity].
    apply not_elem_of_nil in H. contradiction.
  - destruct (decide (k = a)) as [->|Hne].
    + rewrite lookup_delete_eq.
      destruct (decide (a ∈ a :: ks)) as [_|H]; [reflexivity|].
      exfalso. apply H. left.
    + rewrite lookup_delete_ne by congruence. rewrite IH.
      destruct (decide (k ∈ ks)) as [Hin|Hnotin];
        destruct (decide (k ∈ a :: ks)) as [Hin'|Hnotin']; try reflexivity.
      * exfalso. apply Hnotin'. right. exact Hin.
      * exfalso. apply elem_of_cons in Hin'. destruct Hin'; contradiction.
Qed.

Lemma foldr_delete_subseteq {V} (m : gmap (string * pyval) V) (ks : list (string * pyval)) :
  foldr delete m ks ⊆ m.
Proof.
  apply map_subseteq_spec. intros k v. rewrite lookup_foldr_delete.
  destruct (decide (k ∈ ks)); [discriminate | auto].
Qed.

(** What [clear_cached] leaves of the fingerprint cache. *)
Lemma clear_cached_lookup (fingerprint : string) (s : ConnPanel) (k : string * pyval) :
  fingerprintLookupCache (fst (clear_cached fingerprint s)) !! k
  = if decide (fingerprintLookupCache s !! k = Some fingerprint) then None
    else fingerprintLookupCache s !! k.
Proof.
  unfold clear_cached, modify. simpl. rewrite lookup_foldr_delete.
  destruct (decide (k ∈ invalidEntries fingerprint (fingerprintLookupCache s))) as [Hin|Hnotin].
  - rewrite decide_True by (apply elem_of_invalidEntries; exact Hin). reflexivity.
  - rewrite decide_False; [reflexivity|].
    intros H. apply Hnotin, elem_of_invalidEntries, H.
Qed.

Lemma keeps_store_descriptor (I : ConnPanel -> Prop) nsEntry :
  (forall v s, I s -> I (set_fingerprintMappings v s)) ->
  keeps I (store_descriptor nsEntry).
Proof. intros Hm. unfold store_descriptor. keeps_split; auto. Qed.

(** A descriptor event keeps what the purge of the named fingerprints
    and the sort keep, when the writes to the index and the log do not
    matter. *)
Lemma keeps_new_desc_event_steps (w : Env) (I : ConnPanel -> Prop) (idlist : list string) :
  (forall v s, I s -> I (set_orconnStatusCacheValid v s)) ->
  (forall fingerprint, In fingerprint idlist -> keeps I (clear_cached fingerprint)) ->
  (forall v s, I s -> I (set_logged v s)) ->
  (forall v s, I s -> I (set_fingerprintMappings v s)) ->
  keeps I (sortConnections w) ->
  keeps I (new_desc_event w idlist).
Proof.
  intros Hv Hclear Hlog Hmap Hsort. unfold new_desc_event.
  apply keeps_bind; [apply keeps_modify; intros s; apply Hv|]. intros u.
  apply keeps_bind.
  - intros s Hs. apply (wp_for_until_return (update_descriptor w) I (fun _ => I)); [|exact Hs].
    intros fingerprint s0 Hin Hs0. revert s0 Hs0.
    change (keeps I (update_descriptor w fingerprint)).
    pose proof (keeps_store_descriptor I) as Hstore.
    pose proof (fun level msg => keeps_monitor_event I level msg Hlog) as Hmonitor.
    unfold update_descriptor.
    apply keeps_bind; [apply Hclear, Hin|]. intros u0. keeps_split; auto.
  - intros completed. destruct completed; [|apply keeps_ret].
    apply keeps_bind; [apply keeps_get|]. intros st.
    destruct (bool_decide (listingType st ≠ LIST_HOSTNAME)); [exact Hsort | apply keeps_ret].
Qed.

Lemma ready_answer_insert (s : ConnPanel) ipAddr port f k v :
  fingerprintLookupCache s !! k = None ->
  ready_answer s ipAddr port = Some f ->
  ready_answer (set_fingerprintLookupCache (<[k := v]> (fingerprintLookupCache s)) s)
               ipAddr port = Some f.
Proof.
  intros Hk. unfold ready_answer. cbv zeta.
  change (localhostEntry (set_fingerprintLookupCache
                            (<[k := v]> (fingerprintLookupCache s)) s))
    with (localhostEntry s).
  change (fingerprintLookupCache (set_fingerprintLookupCache
                                    (<[k := v]> (fingerprintLookupCache s)) s))
    with (<[k := v]> (fingerprintLookupCache s)).
  assert (Hcached : forall p,
             fingerprintLookupCache s !! (ipAddr, PyInt p) = Some f ->
             <[k := v]> (fingerprintLookupCache s) !! (ipAddr, PyInt p) = Some f).
  { intros p Hp. rewrite lookup_insert_ne; [exact Hp|].
    intros ->. rewrite Hk in Hp. discriminate. }
  destruct (localhostEntry s) as [[entry fingerprint]|].
  - destruct (bool_decide (ipAddr = CONN_L_IP entry)
              && bool_decide (port = PyStr (CONN_L_PORT entry))); [auto|].
    destruct (port_number port) as [p|]; [apply Hcached | auto].
  - destruct (port_number port) as [p|]; [apply Hcached | auto].
Qed.

Lemma ready_answer_cleared (s : ConnPanel) ipAddr port f fingerprint :
  f <> fingerprint ->
  ready_answer s ipAddr port = Some f ->
  ready_answer (fst (clear_cached fingerprint s)) ipAddr port = Some f.
Proof.
  intros Hne. unfold ready_answer. cbv zeta.
  change (localhostEntry (fst (clear_cached fingerprint s))) with (localhostEntry s).
  assert (Hcached : forall p,
             fingerprintLookupCache s !! (ipAddr, PyInt p) = Some f ->
             fingerprintLookupCache (fst (clear_cached fingerprint s)) !! (ipAddr, PyInt p)
             = Some f).
  { intros p Hp. rewrite clear_cached_lookup, Hp.
    rewrite decide_False; [reflexivity|]. intros [= H]. contradiction. }
  destruct (localhostEntry s) as [[entry fp]|].
  - destruct (bool_decide (ipAddr = CONN_L_IP entry)
              && bool_decide (port = PyStr (CONN_L_PORT entry))); [auto|].
    destruct (port_number port) as [p|]; [apply Hcached | auto].
  - destruct (port_number port) as [p|]; [apply Hcached | auto].
Qed.

(** X19.  A descriptor event invalidates only the answers
    that are the fingerprints it names.  When [getFingerprint] has answered
    [f] for an address and port and [f] is not in the event's list, the
    next call for them still answers [f] without asking anyone; this holds
    for the answer ["UNKNOWN"] too, even when the new descriptor puts a
    relay at that very address into the index. *)
Theorem answer_outlives_new_descriptor (w1 w2 w3 : Env) (ipAddr : string) (port : pyval)
    (idlist : list string) (st s1 : ConnPanel) (f : string) :
  getFingerprint w1 ipAddr port st = (s1, Return f) ->
  f ∉ idlist ->
  let s2 := fst (new_desc_event w2 idlist s1) in
  getFingerprint w3 ipAddr port s2 = (s2, Return f).
Proof.
  intros Hrun Hnotin s2.
  pose proof (getFingerprint_answers w1 ipAddr port st) as Hwp.
  unfold wp in Hwp. rewrite Hrun in Hwp. destruct Hwp as [Hready _].
  apply ready_answer_returned.
  pose (R := fun s => ready_answer s ipAddr port = Some f).
  assert (Hgrowth : forall k v s,
             R s -> fingerprintLookupCache s !! k = None ->
             R (set_fingerprintLookupCache (<[k := v]> (fingerprintLookupCache s)) s)).
  { intros k v s Hs Hk. apply ready_answer_insert; assumption. }
  assert (Hf : forall ip q, keeps R (getFingerprint w2 ip q)).
  { intros ip q. apply keeps_getFingerprint_growth; [exact Hgrowth | |];
      intros v s H; exact H. }
  apply (keeps_fst R); [|exact Hready].
  apply keeps_new_desc_event_steps; try (intros v s H; exact H).
  - intros fingerprint Hin s Hs.
    change (R (fst (clear_cached fingerprint s))).
    apply ready_answer_cleared; [|exact Hs].
    intros ->. apply Hnotin, list_elem_of_In, Hin.
  - apply keeps_sortConnections_steps; [exact Hf | | intros v s H; exact H].
    intros ip q. apply keeps_getNickname_steps; [apply Hf | intros v s H; exact H].
Qed.

(** The theorem at the moved relay: ["UNKNOWN"] is the answer for
    5.5.5.5:9001 before the descriptor event that puts [relayA] there, and
    it is the answer after it. *)
Lemma answer_outlives_new_descriptor_witness :
  let w1 := Scenario.controller (Return []) in
  let w2 := Scenario.controller_after_move in
  let s1 := fst (getFingerprint w1 "5.5.5.5" (PyStr "9001") Scenario.started) in
  let s2 := fst (new_desc_event w2 ["ABCD"] s1) in
  getFingerprint w1 "5.5.5.5" (PyStr "9001") Scenario.started = (s1, Return "UNKNOWN")
  /\ ("UNKNOWN" ∉ ["ABCD"])
  /\ fingerprintMappings s2 !! "5.5.5.5" = Some [(9001, "ABCD", "relayA")]
  /\ getFingerprint w2 "5.5.5.5" (PyStr "9001") s2 = (s2, Return "UNKNOWN").
Proof.
  intros w1 w2 s1 s2.
  assert (Hrun : getFingerprint w1 "5.5.5.5" (PyStr "9001") Scenario.started
                 = (s1, Return "UNKNOWN")) by (vm_compute; reflexivity).
  assert (Hnotin : "UNKNOWN" ∉ ["ABCD"]).
  { intros Hin. apply list_elem_of_singleton in Hin. discriminate. }
  split; [exact Hrun|]. split; [exact Hnotin|]. split; [vm_compute; reflexivity|].
  exact (answer_outlives_new_descriptor w1 w2 w2 "5.5.5.5" (PyStr "9001") ["ABCD"]
           Scenario.started s1 "UNKNOWN" Hrun Hnotin).
Defined.

(** The sort asks no resolver in the raw-address and the hostname
    listing, so every property that survives a reordering is kept. *)
Lemma keeps_sortConnections_unresolved (w : Env) (I : ConnPanel -> Prop) :
  (forall s, I s -> listingType s = LIST_IP \/ listingType s = LIST_HOSTNAME) ->
  (forall v s, I s -> I (set_connections v s)) ->
  keeps I (sortConnections w).
Proof.
  intros Hlisting Hset s Hs. unfold sortConnections. wp_step. wp_step. wp_step.
  assert (Hsorts : forall f x y,
             In f (map (sort_function w (listingType s)) (sortOrdering s)) ->
             keeps I (f x y)).
  { intros f x y Hf. apply in_map_iff in Hf. destruct Hf as [o [<- _]].
    assert (Hwrap : forall ip port, keeps I (listingWrapper w (listingType s) ip port)).
    { intros ip port. destruct (Hlisting s Hs) as [-> | ->];
        unfold listingWrapper; keeps_split. }
    unfold sort_function, SORT_TYPES. destruct o; keeps_split; auto. }
  apply (wp_keeps I); [| exact Hs | | auto].
  - apply keeps_list_sort. intros a b. apply keeps_multisort.
    intros f Hf. apply Hsorts, Hf.
  - intros sorted s1 Hs1. wp_step. apply Hset, Hs1.
Qed.

(** X20.  In the raw-address and the hostname listing
    a descriptor event leaves no answer in the fingerprint cache that is the
    first fingerprint it names, and no nickname under a key that held that
    answer; it adds nothing to either cache, and every answer that is not
    among the fingerprints it names stays. *)
Theorem new_desc_event_purges_first_fingerprint (w : Env) (fingerprint : string)
    (others : list string) (st : ConnPanel) :
  listingType st = LIST_IP \/ listingType st = LIST_HOSTNAME ->
  let s' := fst (new_desc_event w (fingerprint :: others) st) in
  (forall k, fingerprintLookupCache s' !! k <> Some fingerprint)
  /\ (forall k, fingerprintLookupCache st !! k = Some fingerprint ->
                nicknameLookupCache s' !! k = None)
  /\ fingerprintLookupCache s' ⊆ fingerprintLookupCache st
  /\ nicknameLookupCache s' ⊆ nicknameLookupCache st
  /\ (forall k f, fingerprintLookupCache st !! k = Some f ->
                  f ∉ fingerprint :: others ->
                  fingerprintLookupCache s' !! k = Some f).
Proof.
  intros Hlisting s'.
  pose (I0 := fun s =>
                (listingType s = LIST_IP \/ listingType s = LIST_HOSTNAME)
                /\ fingerprintLookupCache s ⊆ fingerprintLookupCache st
                /\ nicknameLookupCache s ⊆ nicknameLookupCache st
                /\ (forall k f, fingerprintLookupCache st !! k = Some f ->
                                f ∉ fingerprint :: others ->
                                fingerprintLookupCache s !! k = Some f)).
  pose (I1 := fun s =>
                (forall k, fingerprintLookupCache s !! k <> Some fingerprint)
                /\ (forall k, fingerprintLookupCache st !! k = Some fingerprint ->
                              nicknameLookupCache s !! k = None)).
  assert (Hclear0 : forall F s, In F (fingerprint :: others) -> I0 s ->
                                I0 (fst (clear_cached F s))).
  { intros F s HF [Hl [Hc [Hn Hother]]]. split; [exact Hl|]. split; [|split].
    - etransitivity; [|exact Hc]. apply foldr_delete_subseteq.
    - etransitivity; [|exact Hn]. apply foldr_delete_subseteq.
    - intros k f Hk Hf. rewrite clear_cached_lookup, (Hother k f Hk Hf).
      rewrite decide_False; [reflexivity|].
      intros [= ->]. apply Hf, list_elem_of_In, HF. }
  assert (Hclear1 : forall F s, I1 s -> I1 (fst (clear_cached F s))).
  { intros F s [Hnone Hnick]. split.
    - intros k. rewrite clear_cached_lookup.
      destruct (decide (fingerprintLookupCache s !! k = Some F)); [discriminate | apply Hnone].
    - intros k Hk. specialize (Hnick k Hk).
      apply (lookup_weaken_None _ (nicknameLookupCache s)); [exact Hnick|].
      apply foldr_delete_subseteq. }
  assert (Hfirst : forall s, fingerprintLookupCache s = fingerprintLookupCache st ->
                             I1 (fst (clear_cached fingerprint s))).
  { intros s Hc. split.
    - intros k. rewrite clear_cached_lookup.
      destruct (decide (fingerprintLookupCache s !! k = Some fingerprint)) as [|Hne];
        [discriminate | exact Hne].
    - intros k Hk. unfold clear_cached, modify. simpl.
      rewrite lookup_foldr_delete.
      rewrite decide_True; [reflexivity|].
      apply elem_of_invalidEntries. rewrite Hc. exact Hk. }
  pose (I := fun s => I0 s /\ I1 s).
  assert (Hlog : forall v s, I s -> I (set_logged v s)) by (intros v s H; exact H).
  pose proof (fun nsEntry => keeps_store_descriptor I nsEntry (fun v s H => H)) as Hstore.
  pose proof (fun level msg => keeps_monitor_event I level msg Hlog) as Hmonitor.
  assert (Hbody : forall F, In F (fingerprint :: others) -> keeps I (update_descriptor w F)).
  { intros F HF. unfold update_descriptor.
    apply keeps_bind; [|intros u0; keeps_split; auto].
    intros s [H0 H1]. unfold clear_cached at 1. rewrite wp_modify.
    change (I (fst (clear_cached F s))).
    split; [apply Hclear0 | apply Hclear1]; assumption. }
  assert (Hsort : keeps I (sortConnections w)).
  { apply keeps_sortConnections_unresolved; [|intros v s H; exact H].
    intros s [[Hl _] _]. exact Hl. }
  assert (Hwp : wp (new_desc_event w (fingerprint :: others)) (fun _ => I) (fun _ => I) st).
  { unfold new_desc_event. wp_step. wp_step.
    set (s0 := set_orconnStatusCacheValid false st).
    assert (H00 : I0 s0).
    { split; [exact Hlisting|]. split; [reflexivity|]. split; [reflexivity|].
      intros k f Hk _. exact Hk. }
    wp_step. simpl for_until_return. wp_step.
    unfold update_descriptor at 1. wp_step. unfold clear_cached at 1. wp_step.
    match goal with |- wp _ _ _ ?s => change s with (fst (clear_cached fingerprint s0)) end.
    assert (H1 : I (fst (clear_cached fingerprint s0))).
    { split; [apply Hclear0; [left; reflexivity | exact H00] | apply Hfirst; reflexivity]. }
    apply (wp_keeps I); [keeps_split; auto | exact H1 | | auto].
    intros go_on s2 H2. destruct go_on.
    - apply (wp_keeps I); [| exact H2 | | auto].
      + intros s Hs. apply (wp_for_until_return (update_descriptor w) I (fun _ => I));
          [|exact Hs].
        intros F s3 HF Hs3. apply Hbody; [right; exact HF | exact Hs3].
      + intros completed s3 H3. destruct completed; [|wp_step; exact H3].
        wp_step. wp_step.
        destruct (bool_decide (listingType s3 ≠ LIST_HOSTNAME));
          [apply Hsort, H3 | wp_step; exact H3].
    - wp_step. wp_step. exact H2. }
  apply wp_fst in Hwp. fold s' in Hwp.
  destruct Hwp as [[_ [Hc [Hn Hother]]] [Hnone Hnick]].
  repeat split; assumption.
Qed.

(** The theorem at the started panel after it has answered for the relay
    and for an unknown address, and a descriptor event for the relay. *)
Lemma new_desc_event_purges_first_fingerprint_witness :
  let w := Scenario.controller (Return []) in
  let s1 := fst (getFingerprint w "1.2.3.4" (PyStr "9001") Scenario.started) in
  let st := fst (getFingerprint w "9.9.9.9" (PyStr "443") s1) in
  let s' := fst (new_desc_event w ["ABCD"] st) in
  (listingType st = LIST_IP \/ listingType st = LIST_HOSTNAME)
  /\ fingerprintLookupCache st !! ("1.2.3.4", PyInt 9001) = Some "ABCD"
  /\ (forall k, fingerprintLookupCache s' !! k <> Some "ABCD")
  /\ (forall k, fingerprintLookupCache st !! k = Some "ABCD" ->
                nicknameLookupCache s' !! k = None)
  /\ fingerprintLookupCache s' ⊆ fingerprintLookupCache st
  /\ nicknameLookupCache s' ⊆ nicknameLookupCache st
  /\ (forall k f, fingerprintLookupCache st !! k = Some f ->
                  f ∉ ["ABCD"] ->
                  fingerprintLookupCache s' !! k = Some f).
Proof.
  intros w s1 st s'.
  assert (Hlisting : listingType st = LIST_IP \/ listingType st = LIST_HOSTNAME)
    by (left; vm_compute; reflexivity).
  split; [exact Hlisting|]. split; [vm_compute; reflexivity|].
  exact (new_desc_event_purges_first_fingerprint w "ABCD" [] st Hlisting).
Defined.

(** X21.  A descriptor event stops at the first
    fingerprint whose consensus lookup does not give exactly one entry.
    When the lookup raises [ErrorReply] or [TorCtlClosed] the event returns
    with nothing but the purge for that fingerprint done; with several
    entries it logs a warning and returns in the same way; with no entry at
    all the access to the first entry raises [IndexError]; any other
    exception of the lookup escapes.  In none of these cases are the
    fingerprints that follow looked at, or the connections sorted. *)
Theorem new_desc_event_stops_at_failed_lookup (w : Env) (fingerprint : string)
    (others : list string) (st : ConnPanel) :
  let purged := fst (clear_cached fingerprint (set_orconnStatusCacheValid false st)) in
  match get_network_status w (Some ("id/" +:+ fingerprint)) with
  | Return [] =>
      new_desc_event w (fingerprint :: others) st = (purged, Raise IndexError)
  | Return [_] => True
  | Return (_ :: _ :: _) =>
      new_desc_event w (fingerprint :: others) st
      = (set_logged (logged purged ++ [multiple_entries_warning fingerprint]) purged,
         Return tt)
  | Raise ErrorReply | Raise TorCtlClosed =>
      new_desc_event w (fingerprint :: others) st = (purged, Return tt)
  | Raise e =>
      new_desc_event w (fingerprint :: others) st = (purged, Raise e)
  end.
Proof.
  intros purged. subst purged.
  unfold new_desc_event, bind, modify. simpl for_until_return.
  unfold update_descriptor, bind, clear_cached, modify, try_except, call.
  destruct (get_network_status w (Some ("id/" +:+ fingerprint))) as [[|x [|y l]]|e].
  - reflexivity.
  - exact Logic.I.
  - assert (Hlen : (1 <? Z.of_nat (length (x :: y :: l))) = true)
      by (apply Z.ltb_lt; simpl length; lia).
    unfold ret. cbv beta iota. rewrite Hlen. reflexivity.
  - destruct e; reflexivity.
Qed.


(** ** The integer of an address *)

Lemma bind_run {A B} (m : M A) (k : A -> M B) s :
  bind m k s = match m s with
               | (s', Return a) => k a s'
               | (s', Raise e) => (s', Raise e)
               end.
Proof. reflexivity. Qed.

Lemma ipToInt_value (ipAddr : string) (s : ConnPanel) :
  _ipToInt ipAddr s
  = (s, match dotted_components ipAddr with
        | Some ns => Return (dotted_value 255 ns)
        | None => Raise ValueError
        end).
Proof.
  unfold _ipToInt, dotted_components, dotted_value.
  generalize 0 as total. induction (Py.split_on "." ipAddr) as [|comp rest IH];
    intros total; [reflexivity|].
  cbn [for_each int_all]. rewrite bind_run, bind_run. unfold int at 1.
  destruct (Py.int comp) as [n|]; [|reflexivity].
  change (ret n s) with (s, Return n). cbv beta iota.
  change (ret (total * 255 + n) s) with (s, Return (total * 255 + n)). cbv beta iota.
  rewrite IH. destruct (int_all rest); reflexivity.
Qed.

Lemma dotted_value_compare (base : Z) (xs : list Z) :
  255 <= base ->
  forall ys total1 total2,
    length xs = length ys ->
    Forall (fun n => 0 <= n <= 254) xs ->
    Forall (fun n => 0 <= n <= 254) ys ->
    (fold_left (fun total n => total * base + n) xs total1
     ?= fold_left (fun total n => total * base + n) ys total2)
    = match total1 ?= total2 with
      | Eq => fold_right (fun xy later => match fst xy ?= snd xy with
                                          | Eq => later
                                          | c => c
                                          end) Eq (combine xs ys)
      | c => c
      end.
Proof.
  intros Hbase. induction xs as [|x xs IH]; intros [|y ys] total1 total2 Hlen Hxs Hys;
    try discriminate.
  - simpl. destruct (total1 ?= total2); reflexivity.
  - simpl fold_left. injection Hlen as Hlen.
    inversion Hxs as [|? ? Hx Hxs']. inversion Hys as [|? ? Hy Hys']. subst.
    rewrite (IH ys _ _ Hlen Hxs' Hys').
    assert (Hc : (total1 * base + x ?= total2 * base + y)
                 = match total1 ?= total2 with Eq => x ?= y | c => c end).
    { destruct (Z.compare_spec total1 total2) as [->|Hlt|Hgt].
      - apply Z.add_compare_mono_l.
      - apply Z.compare_lt_iff. nia.
      - apply Z.compare_gt_iff. nia. }
    rewrite Hc. simpl. destruct (total1 ?= total2); reflexivity.
Qed.

(** X6.  For two addresses with the same number of dotted
    components, all of them between 0 and 254, [_ipToInt] returns integers
    that compare as the addresses do as base-256 numbers (as 32-bit integers
    for dotted quads): the factor 255 of [_ipToInt] misorders addresses only
    when a component is 255 or is not a number of an address at all.  The
    panel is not touched. *)
Theorem ipToInt_orders_small_components (a b : string) (xs ys : list Z) (s : ConnPanel) :
  dotted_components a = Some xs ->
  dotted_components b = Some ys ->
  length xs = length ys ->
  Forall (fun n => 0 <= n <= 254) xs ->
  Forall (fun n => 0 <= n <= 254) ys ->
  exists va vb,
    _ipToInt a s = (s, Return va)
    /\ _ipToInt b s = (s, Return vb)
    /\ (va ?= vb) = (dotted_value 256 xs ?= dotted_value 256 ys).
Proof.
  intros Ha Hb Hlen Hxs Hys.
  exists (dotted_value 255 xs), (dotted_value 255 ys).
  rewrite !ipToInt_value, Ha, Hb. split; [reflexivity|]. split; [reflexivity|].
  unfold dotted_value.
  rewrite (dotted_value_compare 255 xs) by (assumption || lia).
  rewrite (dotted_value_compare 256 xs) by (assumption || lia).
  reflexivity.
Qed.

(** The theorem at two addresses that differ in the second component. *)
Lemma ipToInt_orders_small_components_witness :
  let s := Scenario.started in
  dotted_components "10.1.0.254" = Some [10; 1; 0; 254]
  /\ dotted_components "10.0.254.254" = Some [10; 0; 254; 254]
  /\ exists va vb,
       _ipToInt "10.1.0.254" s = (s, Return va)
       /\ _ipToInt "10.0.254.254" s = (s, Return vb)
       /\ (va ?= vb)
          = (dotted_value 256 [10; 1; 0; 254] ?= dotted_value 256 [10; 0; 254; 254]).
Proof.
  intros s.
  assert (Ha : dotted_components "10.1.0.254" = Some [10; 1; 0; 254])
    by (vm_compute; reflexivity).
  assert (Hb : dotted_components "10.0.254.254" = Some [10; 0; 254; 254])
    by (vm_compute; reflexivity).
  split; [exact Ha|]. split; [exact Hb|].
  apply (ipToInt_orders_small_components "10.1.0.254" "10.0.254.254"
           [10; 1; 0; 254] [10; 0; 254; 254] s Ha Hb eq_refl);
    repeat constructor; lia.
Defined.

(** ** The primary sort key *)

Lemma multisort_by_type (w : Env) (lt : listing) (rest : list ord) x p s :
  wp (_multisort x p (map (sort_function w lt) (ORD_TYPE :: rest)))
     (fun c _ =>
        (c < 0 -> TYPE_WEIGHTS (CONN_TYPE x) <= TYPE_WEIGHTS (CONN_TYPE p))
        /\ (0 <= c -> TYPE_WEIGHTS (CONN_TYPE p) <= TYPE_WEIGHTS (CONN_TYPE x)))
     (fun _ _ => True) s.
Proof.
  simpl map. simpl _multisort. wp_step. wp_step.
  destruct (TYPE_WEIGHTS (CONN_TYPE x) - TYPE_WEIGHTS (CONN_TYPE p) =? 0) eqn:Hzero.
  - apply Z.eqb_eq in Hzero. cbn [negb orb].
    destruct (bool_decide (map (sort_function w lt) rest = [])).
    + wp_step. lia.
    + eapply wp_mono; [apply wp_true | | auto]. intros c s1 _. lia.
  - apply Z.eqb_neq in Hzero. cbn [negb orb]. wp_step. lia.
Qed.

(** X5.  With the connection type as the first entry of the
    sort ordering, as [__init__] sets it, a sort that returns leaves the
    records grouped by type in the order of [TYPE_WEIGHTS], whatever the
    other entries of the ordering and the listing type are; it holds the
    same records as before. *)
Theorem sortConnections_groups_by_type (w : Env) (st st' : ConnPanel) (rest : list ord) :
  sortOrdering st = ORD_TYPE :: rest ->
  sortConnections w st = (st', Return tt) ->
  StronglySorted by_type_weight (connections st')
  /\ Permutation (connections st') (connections st).
Proof.
  intros Hordering Hrun.
  assert (Hwp : wp (sortConnections w)
                  (fun _ s' => StronglySorted by_type_weight (connections s'))
                  (fun _ _ => True) st).
  { unfold sortConnections. wp_step. wp_step. wp_step. rewrite Hordering.
    unfold list_sort.
    eapply wp_mono.
    - apply (list_sort_sorted (fun e => TYPE_WEIGHTS (CONN_TYPE e))).
      + intros x p s. apply multisort_by_type.
      + constructor.
    - intros sorted s1 Hsorted. cbv beta. wp_step. exact Hsorted.
    - auto. }
  pose proof (sortConnections_perm w st) as Hperm.
  unfold wp in Hwp, Hperm. rewrite Hrun in Hwp, Hperm. split; assumption.
Qed.

(** The theorem at the ordering of [__init__] and an outbound record
    listed before an inbound one. *)
Lemma sortConnections_groups_by_type_witness :
  let w := Scenario.controller (Return []) in
  let st := set_connections
              [Scenario.record "2.2.2.2" 20;
               mkConn inbound "10.0.0.5" "9001" "5.6.7.8" "40000" "??" 10]
              Scenario.started in
  let st' := fst (sortConnections w st) in
  sortOrdering st = ORD_TYPE :: [ORD_FOREIGN_LISTING; ORD_FOREIGN_PORT]
  /\ sortConnections w st = (st', Return tt)
  /\ StronglySorted by_type_weight (connections st')
  /\ Permutation (connections st') (connections st).
Proof.
  intros w st st'.
  assert (Hordering : sortOrdering st = ORD_TYPE :: [ORD_FOREIGN_LISTING; ORD_FOREIGN_PORT])
    by (vm_compute; reflexivity).
  assert (Hrun : sortConnections w st = (st', Return tt)) by (vm_compute; reflexivity).
  split; [exact Hordering|]. split; [exact Hrun|].
  exact (sortConnections_groups_by_type w st st' _ Hordering Hrun).
Defined.


(** ** Address and port of a netstat column *)

Lemma find_bounds (c : ascii) (s : string) : -1 <= Py.find c s < Py.len s.
Proof.
  unfold Py.len. induction s as [|d rest IH]; simpl; [lia|].
  destruct (Ascii.eqb d c); [lia|].
  destruct (Py.find c rest <? 0) eqn:E; [lia|]. apply Z.ltb_ge in E. lia.
Qed.

Lemma find_take_drop (c : ascii) (s : string) :
  0 <= Py.find c s ->
  Py.take (Z.to_nat (Py.find c s)) s
  +:+ String c (Py.drop (S (Z.to_nat (Py.find c s))) s) = s.
Proof.
  induction s as [|d rest IH]; simpl Py.find; [lia|].
  destruct (Ascii.eqb d c) eqn:Hd.
  - intros _. apply Ascii.eqb_eq in Hd. subst d. reflexivity.
  - destruct (Py.find c rest <? 0) eqn:E; [lia|]. apply Z.ltb_ge in E. intros _.
    replace (Z.to_nat (Py.find c rest + 1)) with (S (Z.to_nat (Py.find c rest))) by lia.
    change (String d (Py.take (Z.to_nat (Py.find c rest)) rest
                      +:+ String c (Py.drop (S (Z.to_nat (Py.find c rest))) rest))
            = String d rest).
    f_equal. apply IH, E.
Qed.

Lemma length_take (n : nat) (s : string) :
  (n <= String.length s)%nat -> String.length (Py.take n s) = n.
Proof.
  revert s. induction n as [|n IH]; intros [|d rest]; simpl; try lia.
  intros H. rewrite IH by lia. reflexivity.
Qed.

Lemma drop_all (s : string) : Py.drop (String.length s) s = "".
Proof. induction s as [|d rest IH]; simpl; [reflexivity | exact IH]. Qed.

(** The column [address:port] of a netstat line comes apart at its first
    colon and goes together again. *)
Lemma column_round_trip (column : string) :
  let address := Py.slice_to column (Py.find ":" column) in
  let port := Py.slice_from column (Py.len address + 1) in
  (0 <= Py.find ":" column -> address +:+ ":" +:+ port = column)
  /\ (Py.find ":" column < 0 -> port = "").
Proof.
  intros address port. subst address port.
  pose proof (find_bounds ":" column) as Hfind. unfold Py.len in Hfind.
  unfold Py.slice_to, Py.slice_from, Py.bound, Py.len. split.
  - intros Hfound.
    assert (Hlt : (Py.find ":" column <? 0) = false) by (apply Z.ltb_ge; lia).
    rewrite Hlt.
    replace (Z.to_nat (Z.min (Z.of_nat (String.length column))
                             (Z.max 0 (Py.find ":" column))))
      with (Z.to_nat (Py.find ":" column)) by lia.
    rewrite length_take by lia.
    assert (Hlt' : (Z.of_nat (Z.to_nat (Py.find ":" column)) + 1 <? 0) = false)
      by (apply Z.ltb_ge; lia).
    rewrite Hlt'.
    replace (Z.to_nat (Z.min (Z.of_nat (String.length column))
                             (Z.max 0 (Z.of_nat (Z.to_nat (Py.find ":" column)) + 1))))
      with (S (Z.to_nat (Py.find ":" column))) by lia.
    apply find_take_drop, Hfound.
  - intros Hmissing.
    assert (Hlt : (Py.find ":" column <? 0) = true) by (apply Z.ltb_lt; lia).
    rewrite Hlt.
    assert (Hfind' : Py.find ":" column = -1) by lia. rewrite Hfind'.
    set (n := Z.to_nat (Z.min (Z.of_nat (String.length column))
                              (Z.max 0 (-1 + Z.of_nat (String.length column))))).
    assert (Hn : (n <= String.length column)%nat) by (subst n; lia).
    rewrite (length_take n column Hn).
    assert (Hlt' : (Z.of_nat n + 1 <? 0) = false) by (apply Z.ltb_ge; lia).
    rewrite Hlt'.
    replace (Z.to_nat (Z.min (Z.of_nat (String.length column)) (Z.max 0 (Z.of_nat n + 1))))
      with (String.length column) by (subst n; lia).
    apply drop_all.
Qed.

(** The record that [reset_line] adds for a line with a local and a foreign
    column, when it gets that far. *)
Lemma reset_line_columns (w : Env) (connTimes : gmap (string * string) Z)
    (line local foreign : string) (acc : reset_locals) (s : ConnPanel) :
  Py.startswith line "tcp" = true ->
  Py.split line !! 3%nat = Some local ->
  Py.split line !! 4%nat = Some foreign ->
  wp (reset_line w connTimes line acc)
     (fun acc' _ =>
        exists r,
          connectionsTmp acc' = connectionsTmp acc ++ [r]
          /\ (0 <= Py.find ":" local -> CONN_L_IP r +:+ ":" +:+ CONN_L_PORT r = local)
          /\ (0 <= Py.find ":" foreign -> CONN_F_IP r +:+ ":" +:+ CONN_F_PORT r = foreign)
          /\ (Py.find ":" local < 0 -> CONN_L_PORT r = "")
          /\ (Py.find ":" foreign < 0 -> CONN_F_PORT r = ""))
     (fun _ _ => True) s.
Proof.
  intros Htcp Hlocal Hforeign. unfold reset_line. rewrite Htcp. simpl negb. cbv iota.
  wp_step. wp_step. rewrite Hlocal. wp_step. wp_step. rewrite Hforeign. cbv zeta.
  apply wp_skip. intros st s1. apply wp_skip. intros classified s2.
  apply wp_skip. intros countryCode s3. wp_step.
  eexists. split; [reflexivity|]. simpl.
  destruct (column_round_trip local) as [Hl1 Hl2].
  destruct (column_round_trip foreign) as [Hf1 Hf2].
  auto.
Qed.

(** X10.  When the processing of a netstat line that starts with [tcp]
    and has a local and a foreign column returns, it has added exactly one
    record, at the end.  A column with a colon comes apart at its first
    colon: address, colon and port of the record put together are the column
    again.  A column without a colon gives an empty port.  (The processing
    can raise instead, from the resolvers or the controller, and then hands
    on no list at all.) *)
Theorem reset_line_splits_columns (w : Env) (connTimes : gmap (string * string) Z)
    (line local foreign : string) (acc acc' : reset_locals) (s s' : ConnPanel) :
  Py.startswith line "tcp" = true ->
  Py.split line !! 3%nat = Some local ->
  Py.split line !! 4%nat = Some foreign ->
  reset_line w connTimes line acc s = (s', Return acc') ->
  exists r,
    connectionsTmp acc' = connectionsTmp acc ++ [r]
    /\ (0 <= Py.find ":" local -> CONN_L_IP r +:+ ":" +:+ CONN_L_PORT r = local)
    /\ (0 <= Py.find ":" foreign -> CONN_F_IP r +:+ ":" +:+ CONN_F_PORT r = foreign)
    /\ (Py.find ":" local < 0 -> CONN_L_PORT r = "")
    /\ (Py.find ":" foreign < 0 -> CONN_F_PORT r = "").
Proof.
  intros Htcp Hlocal Hforeign Hrun.
  pose proof (reset_line_columns w connTimes line local foreign acc s Htcp Hlocal Hforeign)
    as Hwp.
  unfold wp in Hwp. rewrite Hrun in Hwp. exact Hwp.
Qed.

(** The theorem at the inbound line of the scenario. *)
Lemma reset_line_splits_columns_witness :
  let w := Scenario.controller (Return []) in
  let acc := mkLocals [] [0; 0; 0; 0; 0] 0 in
  let local := "10.0.0.5:9001" in
  let foreign := "5.6.7.8:40000" in
  let result := reset_line w ∅ Scenario.inbound_line acc Scenario.started in
  let s' := fst result in
  let acc' := mkLocals
                [mkConn inbound "10.0.0.5" "9001" "5.6.7.8" "40000" "??" 100]
                [1; 0; 0; 0; 0] 1 in
  Py.startswith Scenario.inbound_line "tcp" = true
  /\ Py.split Scenario.inbound_line !! 3%nat = Some local
  /\ Py.split Scenario.inbound_line !! 4%nat = Some foreign
  /\ reset_line w ∅ Scenario.inbound_line acc Scenario.started = (s', Return acc')
  /\ exists r,
       connectionsTmp acc' = connectionsTmp acc ++ [r]
       /\ (0 <= Py.find ":" local -> CONN_L_IP r +:+ ":" +:+ CONN_L_PORT r = local)
       /\ (0 <= Py.find ":" foreign -> CONN_F_IP r +:+ ":" +:+ CONN_F_PORT r = foreign)
       /\ (Py.find ":" local < 0 -> CONN_L_PORT r = "")
       /\ (Py.find ":" foreign < 0 -> CONN_F_PORT r = "").
Proof.
  intros w acc local foreign result s' acc'.
  assert (Htcp : Py.startswith Scenario.inbound_line "tcp" = true)
    by (vm_compute; reflexivity).
  assert (Hlocal : Py.split Scenario.inbound_line !! 3%nat = Some local)
    by (vm_compute; reflexivity).
  assert (Hforeign : Py.split Scenario.inbound_line !! 4%nat = Some foreign)
    by (vm_compute; reflexivity).
  assert (Hrun : reset_line w ∅ Scenario.inbound_line acc Scenario.started
                 = (s', Return acc')) by (vm_compute; reflexivity).
  split; [exact Htcp|]. split; [exact Hlocal|]. split; [exact Hforeign|].
  split; [exact Hrun|].
  exact (reset_line_splits_columns w ∅ Scenario.inbound_line local foreign acc acc'
           Scenario.started s' Htcp Hlocal Hforeign Hrun).
Defined.

(** The processing does not always return: the line of a tcp6 connection
    starts with [tcp] and has both columns, its foreign column [::1:9051]
    comes apart into an empty address and the port [:1:9051], and
    [int(port)] of line 535 raises [ValueError]. *)
Lemma reset_line_tcp6_raises :
  let w := Scenario.controller (Return []) in
  let line :=
    "tcp6       0      0 ::1:50000               ::1:9051                ESTABLISHED 1234/tor" in
  Py.startswith line "tcp" = true
  /\ Py.split line !! 3%nat = Some "::1:50000"
  /\ Py.split line !! 4%nat = Some "::1:9051"
  /\ snd (reset_line w ∅ line (mkLocals [] [0; 0; 0; 0; 0] 0) Scenario.started)
     = Raise ValueError.
Proof.
  intros w line. repeat split; vm_compute; reflexivity.
Qed.
